(** * EasyYoutube: a shallow embedding of the recorder front end

    The repository is a browser application (TypeScript / React).  This file
    embeds the pure helpers and the component state machines that the
    specification talks about, and states the properties of the
    specification over them.

    Conventions of the embedding:
    - a JavaScript string is a [string] of 8-bit code units;
    - an integer-valued JavaScript number is an [N] or a [Z]; the model is
      exact for the safe integers (below 2^53), which is where counters
      such as a recording duration or an HTTP status live;
    - where the code divides, or adds fractions, a JavaScript number is a
      binary64 [float] with the operations of IEEE 754: the seconds given
      to [formatTime], the pixel positions of the teleprompter;
    - host calls (getUserMedia, fetch, MediaRecorder, the clock, the DOM
      layout) are inputs of the embedded functions: each function takes the
      outcome of the host calls it makes and returns what it computes from
      them;
    - a React state cell is a record field, a setter call is a record
      update, a [window] global is a field of a record of globals. *)

From Stdlib Require Import ZArith NArith Floats.
From Stdlib Require Import Ascii String DecimalString DecimalN.
From stdpp Require Import base option list gmap strings.

Local Open Scope string_scope.

(** A decimal literal such as [0.1] is read as the double nearest to it,
    as JavaScript reads it. *)
Set Warnings "-inexact-float".

(* ===================================================================== *)
(** * Part I: definitions                                                 *)
(* ===================================================================== *)

(** ** JavaScript values and string methods used by the sources *)

Module JS.

(** The values that reach the embedded code through [any]: fields of a
    parsed JSON body, the [message] of a caught value.  An object or an
    array is kept with the string that ToString gives for it. *)
Inductive Value :=
| Undefined
| Null
| Bool (b : bool)
| Number (z : Z)
| Str (s : string)
| Obj (rendering : string).

(** ToBoolean on those values. *)
Definition truthy (v : Value) : bool :=
  match v with
  | Undefined | Null => false
  | Bool b => b
  | Number z => negb (z =? 0)%Z
  | Str s => negb (String.eqb s "")
  | Obj _ => true
  end.

(** [a || b] *)
Definition or_else (a b : Value) : Value := if truthy a then a else b.

(** Number.prototype.toString on a non-negative integer. *)
Definition Number_toString (n : N) : string :=
  NilZero.string_of_uint (N.to_uint n).

(** ToString on a value (template literals, [new Error(v)]). *)
Definition ToString (v : Value) : string :=
  match v with
  | Undefined => "undefined"
  | Null => "null"
  | Bool true => "true"
  | Bool false => "false"
  | Number z =>
      if (z <? 0)%Z then "-" ++ Number_toString (Z.to_N (- z))
      else Number_toString (Z.to_N z)
  | Str s => s
  | Obj rendering => rendering
  end.

(** The filler of padStart: the first [n] code units of the pad string
    repeated for ever ([rest] is what is left of the current copy). *)
Fixpoint fill (pad rest : string) (n : nat) : string :=
  match n with
  | O => ""
  | S n' =>
      match rest with
      | String c r => String c (fill pad r n')
      | EmptyString =>
          match pad with
          | String c r => String c (fill pad r n')
          | EmptyString => ""
          end
      end
  end.

(** String.prototype.padStart(targetLength, padString). *)
Definition padStart (s : string) (targetLength : nat) (padString : string)
  : string :=
  if (targetLength <=? String.length s)%nat then s
  else if String.eqb padString "" then s
  else fill padString padString (targetLength - String.length s) ++ s.

(** White space and line terminators of ECMAScript that fit in one 8-bit
    code unit: TAB, LF, VT, FF, CR, SPACE, NBSP. *)
Definition isWhiteSpace (c : ascii) : bool :=
  let n := nat_of_ascii c in
  ((n =? 9) || (n =? 10) || (n =? 11) || (n =? 12) || (n =? 13)
   || (n =? 32) || (n =? 160))%nat.

Fixpoint trimStart (s : string) : string :=
  match s with
  | String c r => if isWhiteSpace c then trimStart r else s
  | EmptyString => ""
  end.

(** [trimEnd]: a code unit is dropped when it is white space and all that
    follows it has been dropped. *)
Fixpoint trimEnd (s : string) : string :=
  match s with
  | String c r =>
      match trimEnd r with
      | EmptyString => if isWhiteSpace c then "" else String c ""
      | r' => String c r'
      end
  | EmptyString => ""
  end.

(** String.prototype.trim *)
Definition trim (s : string) : string := trimEnd (trimStart s).

(** String.prototype.slice(start, end) for non-negative indices. *)
Definition slice (s : string) (start stop : nat) : string :=
  String.substring start (stop - start) s.

(** String.prototype.replace with a global one-character pattern, as in
    [replace(/:/g, '-')]. *)
Fixpoint replaceAll (s : string) (c : ascii) (by_ : string) : string :=
  match s with
  | String x r =>
      (if Ascii.eqb x c then by_ else String x "") ++ replaceAll r c by_
  | EmptyString => ""
  end.

(** What a [throw] carries and a [catch] receives. *)
Inductive Thrown :=
| ErrorObject (message : string)      (* instanceof Error *)
| OtherThrown (v : Value).            (* anything else *)

(** The completion of a call: a value, or a thrown exception. *)
Inductive Completion (A : Type) :=
| Normal (a : A)
| Throw (e : Thrown).
Arguments Normal {A} a.
Arguments Throw {A} e.

(** The call returned. *)
Definition returned {A : Type} (c : Completion A) : bool :=
  match c with
  | Normal _ => true
  | Throw _ => false
  end.

End JS.

(** ** JavaScript numbers: binary64 *)

Module Double.

(** The double nearest to [m * 2^e]; [negativeZero] is the sign of a
    zero result. *)
Definition scaled (m e : Z) (negativeZero : bool) : float :=
  SF2Prim (binary_normalize prec emax m e negativeZero).

Definition of_Z (z : Z) : float := scaled z 0 false.
Definition of_N (n : N) : float := of_Z (Z.of_N n).

(** The value of [m * 2^e] when it is a whole number. *)
Definition whole (m : positive) (e : Z) : option Z :=
  if (0 <=? e)%Z then Some (Z.pos m * 2 ^ e)%Z
  else if (Z.pos m mod 2 ^ (- e) =? 0)%Z then Some (Z.pos m / 2 ^ (- e))%Z
       else None.

(** The whole number a double is, if it is one. *)
Definition integerValue (x : float) : option Z :=
  match Prim2SF x with
  | S754_zero _ => Some 0%Z
  | S754_finite s m e =>
      match whole m e with
      | Some z => Some (if s then (- z)%Z else z)
      | None => None
      end
  | _ => None
  end.

(** Math.floor *)
Definition floor (x : float) : float :=
  match Prim2SF x with
  | S754_finite s m e =>
      if (0 <=? e)%Z then x
      else
        let q := Z.shiftr (Z.pos m) (- e) in
        if s then
          let c := if (Z.shiftl q (- e) =? Z.pos m)%Z then q else (q + 1)%Z in
          PrimFloat.opp (of_Z c)
        else of_Z q
  | _ => x
  end.

(** [x % y]: the remainder has the sign of [x] and is exact. *)
Definition rem (x y : float) : float :=
  match Prim2SF x, Prim2SF y with
  | S754_nan, _ | _, S754_nan => nan
  | S754_infinity _, _ => nan
  | _, S754_zero _ => nan
  | S754_zero _, _ => x
  | S754_finite _ _ _, S754_infinity _ => x
  | S754_finite sx mx ex, S754_finite _ my ey =>
      let e := Z.min ex ey in
      let a := Z.shiftl (Z.pos mx) (ex - e) in
      let b := Z.shiftl (Z.pos my) (ey - e) in
      let r := Z.modulo a b in
      scaled (if sx then (- r)%Z else r) e sx
  end.

(** Comparison of [a * 10^p] with [b * 2^q]. *)
Definition compareScaled (a p b q : Z) : comparison :=
  Z.compare (a * 10 ^ Z.max p 0 * 2 ^ Z.max (- q) 0)
            (b * 2 ^ Z.max q 0 * 10 ^ Z.max (- p) 0).

(** Whether the decimal [s * 10^p] is read as the double [m * 2^e]: it
    lies within half a gap of it, the ends counting when [m] is even. *)
Definition readsAs (s p : Z) (m : positive) (e : Z) : bool :=
  let boundary := (Z.pos m =? 2 ^ 52)%Z && (-1074 <? e)%Z in
  let low := (4 * Z.pos m - (if boundary then 1 else 2))%Z in
  let high := (4 * Z.pos m + 2)%Z in
  let even := Z.even (Z.pos m) in
  match compareScaled s p low (e - 2) with
  | Lt => false
  | Eq => even
  | Gt =>
      match compareScaled s p high (e - 2) with
      | Lt => true
      | Eq => even
      | Gt => false
      end
  end.

(** The [n] with [10^(n-1) <= m * 2^e < 10^n], from an estimate. *)
Fixpoint magnitudeFrom (fuel : nat) (n : Z) (m : positive) (e : Z) : Z :=
  match fuel with
  | O => n
  | S fuel' =>
      match compareScaled 1 n (Z.pos m) e with
      | Gt =>
          match compareScaled 1 (n - 1) (Z.pos m) e with
          | Gt => magnitudeFrom fuel' (n - 1) m e
          | _ => n
          end
      | _ => magnitudeFrom fuel' (n + 1) m e
      end
  end.

Definition magnitude (m : positive) (e : Z) : Z :=
  magnitudeFrom 8 ((Z.log2 (Z.pos m) + e) * 30103 / 100000) m e.

(** The decimals of [k] digits next to [m * 2^e], the nearer first, each
    with its magnitude. *)
Definition candidates (k n : Z) (m : positive) (e : Z) : list (Z * Z) :=
  let p := (n - k)%Z in
  let num := (Z.pos m * 2 ^ Z.max e 0 * 10 ^ Z.max (- p) 0)%Z in
  let den := (2 ^ Z.max (- e) 0 * 10 ^ Z.max p 0)%Z in
  let lo := (num / den)%Z in
  let r := (num mod den)%Z in
  let nearer :=
    match Z.compare (2 * r) den with
    | Lt => [lo; (lo + 1)%Z]
    | Gt => [(lo + 1)%Z; lo]
    | Eq => if Z.even lo then [lo; (lo + 1)%Z] else [(lo + 1)%Z; lo]
    end in
  List.map
    (fun s => if (s =? 10 ^ k)%Z then (10 ^ (k - 1), n + 1) else (s, n))%Z
    (List.filter (fun s => (10 ^ (k - 1) <=? s)%Z) nearer).

Fixpoint shortestFrom (fuel : nat) (k n : Z) (m : positive) (e : Z)
  : Z * Z * Z :=
  match fuel with
  | O => (n, k, 0%Z)
  | S fuel' =>
      match List.filter (fun c => readsAs (fst c) (snd c - k) m e)
              (candidates k n m e) with
      | (s, n') :: _ => (n', k, s)
      | [] => shortestFrom fuel' (k + 1) n m e
      end
  end.

(** The [n], [k] and [s] of Number::toString: the fewest digits [s] that
    read back as the double. *)
Definition shortest (m : positive) (e : Z) : Z * Z * Z :=
  shortestFrom 17 1 (magnitude m e) m e.

(** The decimal digits of a whole number that is not negative. *)
Definition digits (z : Z) : string :=
  NilZero.string_of_uint (N.to_uint (Z.to_N z)).

Fixpoint zeros (n : nat) : string :=
  match n with
  | O => ""
  | S n' => String "0" (zeros n')
  end.

Definition exponentText (z : Z) : string :=
  if (z <? 0)%Z then "-" ++ digits (- z) else "+" ++ digits z.

(** The text of a positive finite double [m * 2^e]. *)
Definition positiveText (m : positive) (e : Z) : string :=
  let '(n, k, s) := shortest m e in
  let d := digits s in
  if (k <=? n)%Z && (n <=? 21)%Z then d ++ zeros (Z.to_nat (n - k))
  else if (0 <? n)%Z && (n <=? 21)%Z then
    String.substring 0 (Z.to_nat n) d ++ "."
      ++ String.substring (Z.to_nat n) (Z.to_nat (k - n)) d
  else if (-6 <? n)%Z && (n <=? 0)%Z then
    "0." ++ zeros (Z.to_nat (- n)) ++ d
  else if (k =? 1)%Z then d ++ "e" ++ exponentText (n - 1)
  else String.substring 0 1 d ++ "."
         ++ String.substring 1 (Z.to_nat (k - 1)) d
         ++ "e" ++ exponentText (n - 1).

Definition anyText (x : float) : string :=
  match Prim2SF x with
  | S754_nan => "NaN"
  | S754_zero _ => "0"
  | S754_infinity s => if s then "-Infinity" else "Infinity"
  | S754_finite s m e => (if s then "-" else "") ++ positiveText m e
  end.

(** Number.prototype.toString(): a whole number below 2^53 is written
    with its own digits, which are the fewest that read back as it. *)
Definition toString (x : float) : string :=
  match integerValue x with
  | Some z =>
      if (Z.abs z <? 2 ^ 53)%Z
      then (if (z <? 0)%Z then "-" else "") ++ digits (Z.abs z)
      else anyText x
  | None => anyText x
  end.

End Double.

(** ** [utils/media-utils.ts] *)

Module MediaUtils.

(** The probe list of [getSupportedMimeType], in source order. *)
Definition mimeTypes : list string :=
  [ "video/webm;codecs=vp9,opus";
    "video/webm;codecs=vp8,opus";
    "video/webm;codecs=h264,opus";
    "video/mp4;codecs=h264,aac";
    "video/webm";
    "video/mp4" ].

(** The [for (const type of mimeTypes)] loop with its early [return]:
    [Some type] when the loop returned, [None] when it ran to the end. *)
Fixpoint probe (isTypeSupported : string -> bool) (types : list string)
  : option string :=
  match types with
  | [] => None
  | type :: rest =>
      if isTypeSupported type then Some type
      else probe isTypeSupported rest
  end.

(** [getSupportedMimeType], over the browser's
    [MediaRecorder.isTypeSupported]. *)
Definition getSupportedMimeType (isTypeSupported : string -> bool)
  : string :=
  match probe isTypeSupported mimeTypes with
  | Some type => type
  | None => "video/webm"
  end.

(** [formatTime]: [Math.floor(seconds / 60)], [seconds % 60], and the
    template literal with the two [toString] and padStart calls. *)
Definition formatTime (seconds : float) : string :=
  let mins := Double.floor (seconds / 60)%float in
  let secs := Double.rem seconds 60%float in
  JS.padStart (Double.toString mins) 2 "0" ++ ":"
    ++ JS.padStart (Double.toString secs) 2 "0".

(** *** Media streams *)

Inductive TrackKind := audio | video.

Record MediaStreamTrack := {
  kind : TrackKind;
  label : string;
  enabled : bool
}.

Record MediaStream := { tracks : list MediaStreamTrack }.

Definition isAudio (t : MediaStreamTrack) : bool :=
  match kind t with audio => true | video => false end.
Definition isVideo (t : MediaStreamTrack) : bool :=
  match kind t with video => true | audio => false end.

Definition getAudioTracks (s : MediaStream) : list MediaStreamTrack :=
  List.filter isAudio (tracks s).
Definition getVideoTracks (s : MediaStream) : list MediaStreamTrack :=
  List.filter isVideo (tracks s).

(** [new MediaStream()] *)
Definition emptyMediaStream : MediaStream := {| tracks := [] |}.

(** [stream.getAudioTracks().forEach(track => { track.enabled = true })]:
    the tracks are shared objects, so the stream sees the update. *)
Definition enableAudioTracks (s : MediaStream) : MediaStream :=
  {| tracks :=
       List.map (fun t =>
                   if isAudio t
                   then {| kind := kind t; label := label t;
                           enabled := true |}
                   else t) (tracks s) |}.

(** The [window] globals of [types/window-fix.ts] that the audio capture
    touches; [None] is [undefined] or [null]. *)
Record Window := {
  _directAudioStream : option MediaStream;
  _audioTracksAdded : option N
}.

Definition setDirectAudioStream (stream : option MediaStream) (w : Window)
  : Window :=
  {| _directAudioStream := stream;
     _audioTracksAdded := _audioTracksAdded w |}.

(** [window._audioTracksAdded || 0] *)
Definition getAudioTracksAdded (w : Window) : N :=
  match _audioTracksAdded w with
  | Some n => n
  | None => 0%N
  end.

Definition setAudioTracksAdded (count : N) (w : Window) : Window :=
  {| _directAudioStream := _directAudioStream w;
     _audioTracksAdded := Some count |}.

Definition incrementAudioTracksAdded (w : Window) : Window :=
  let current := getAudioTracksAdded w in
  setAudioTracksAdded (current + 1)%N w.

(** [captureAudioForRecording].  [highQuality] is the completion of the
    first [getUserMedia] call (ideal constraints), [basic] that of the
    second one ([{ audio: true }]), which is only looked at when the first
    one threw.  The result is the completion of the returned promise and
    the globals after the call. *)
Definition captureAudioForRecording
    (highQuality basic : JS.Completion MediaStream) (w : Window)
  : JS.Completion MediaStream * Window :=
  match highQuality with
  | JS.Normal highQualityAudio =>
      let highQualityAudio := enableAudioTracks highQualityAudio in
      let w := setDirectAudioStream (Some highQualityAudio) w in
      let w := incrementAudioTracksAdded w in
      (JS.Normal highQualityAudio, w)
  | JS.Throw _ =>
      match basic with
      | JS.Normal basicAudio =>
          let w := setDirectAudioStream (Some basicAudio) w in
          let w := incrementAudioTracksAdded w in
          (JS.Normal basicAudio, w)
      | JS.Throw _ =>
          (JS.Normal emptyMediaStream, w)
      end
  end.

(** What the platform promises for a request that asks for audio only:
    the stream has an audio track and no video track. *)
Definition audioOnly (s : MediaStream) : Prop :=
  getAudioTracks s <> [] /\ getVideoTracks s = [].

End MediaUtils.

(** ** [utils/error-handler.ts] *)

Module ErrorHandler.

(** The values [handleMediaError] tells apart: a [DOMException] as the
    browser creates them; a value without a [message] property (the
    primitives, strings included, and the objects that have none); and an
    object with a [message] property, given by what the first and the
    second reading of that property do.  A reading runs a getter when the
    property has one: it may throw, and it need not answer twice the
    same. *)
Inductive ErrorValue :=
| DOMException (name message : string)
| Plain (v : JS.Value)
| Object (first second : JS.Completion JS.Value).

(** [handleMediaError]: the [switch] on the name of a [DOMException], the
    string returned as it is, then [error && error.message] and
    [return error.message], which read the property once each. *)
Definition handleMediaError (error : ErrorValue) (context : string)
  : JS.Completion JS.Value :=
  match error with
  | DOMException name _ =>
      if String.eqb name "NotFoundError" then
        JS.Normal (JS.Str "Camera or microphone not found. Please connect a device and try again.")
      else if String.eqb name "NotAllowedError"
              || String.eqb name "PermissionDeniedError" then
        JS.Normal (JS.Str "Permission denied. Please allow access to your camera and microphone.")
      else if String.eqb name "OverconstrainedError" then
        JS.Normal (JS.Str "Your device does not meet the required constraints. Try a different device.")
      else if String.eqb name "NotReadableError"
              || String.eqb name "AbortError" then
        JS.Normal (JS.Str "Could not access your camera or microphone. Please check if another application is using them.")
      else if String.eqb name "SecurityError" then
        JS.Normal (JS.Str "Security error. Media access is not allowed in this context.")
      else
        JS.Normal (JS.Str ("Media error: " ++ name ++ ". Please try again."))
  | Plain (JS.Str s) => JS.Normal (JS.Str s)
  | Plain _ =>
      JS.Normal (JS.Str ("Unknown error during " ++ context ++ ". Please try again."))
  | Object first second =>
      match first with
      | JS.Throw e => JS.Throw e
      | JS.Normal message =>
          if JS.truthy message then second
          else JS.Normal (JS.Str ("Unknown error during " ++ context
                                    ++ ". Please try again."))
      end
  end.

(** The default value of the [context] parameter. *)
Definition defaultContext : string := "media".

(** The call returned a non-empty string. *)
Definition nonEmptyString (c : JS.Completion JS.Value) : Prop :=
  exists s, c = JS.Normal (JS.Str s) /\ s <> "".

Definition permissionDenied : string :=
  "Permission denied. Please allow access to your camera and microphone.".

End ErrorHandler.

(** ** [components/Teleprompter.tsx] of the video recorder *)

Module Teleprompter.

Local Open Scope float_scope.

(** What an [animate] closure captured from the render that created it:
    [animate] reads [isScrolling] and [speed] as they were in that
    render. *)
Record Closure := {
  c_isScrolling : bool;
  c_speed : float
}.

(** The state cells of the component, and the callback that
    [requestAnimationFrame] holds ([None] when no frame is requested). *)
Record State := {
  speed : float;
  isScrolling : bool;
  position : float;
  pending : option Closure
}.

(** [useState(2)], [useState(false)], [useState(0)]; no frame requested. *)
Definition initial : State :=
  {| speed := 2; isScrolling := false; position := 0; pending := None |}.

(** What the two refs give when the updater of [animate] reads them: the
    content's [scrollHeight] and the container's [clientHeight], [None]
    for a ref whose [current] is null.  The updater reads them again in
    every frame. *)
Record Layout := {
  scrollHeight : option Z;
  clientHeight : option Z
}.

(** [contentRef.current.scrollHeight - containerRef.current.clientHeight]
    when both refs are set. *)
Definition maxScroll (l : Layout) : option float :=
  match scrollHeight l, clientHeight l with
  | Some sh, Some ch => Some (Double.of_Z sh - Double.of_Z ch)
  | _, _ => None
  end.

(** The effect on [[isScrolling]]: it requests a frame for the [animate]
    of the current render when scrolling is on, and cancels the requested
    frame when it is off. *)
Definition scrollingEffect (st : State) : State :=
  {| speed := speed st; isScrolling := isScrolling st;
     position := position st;
     pending :=
       if isScrolling st
       then Some {| c_isScrolling := isScrolling st; c_speed := speed st |}
       else None |}.

(** [setIsScrolling(b)]: the effect runs when the value changes. *)
Definition setIsScrolling (b : bool) (st : State) : State :=
  let st' := {| speed := speed st; isScrolling := b;
                position := position st; pending := pending st |} in
  if Bool.eqb b (isScrolling st) then st' else scrollingEffect st'.

Definition setPosition (p : float) (st : State) : State :=
  {| speed := speed st; isScrolling := isScrolling st;
     position := p; pending := pending st |}.

(** One call of [animate] as captured in [c], with the layout [l] that the
    refs give in this frame: the guard on [isScrolling], then the updater
    passed to [setPosition] with the [setIsScrolling(false)] it makes; the
    closure requests itself again. *)
Definition animate (l : Layout) (c : Closure) (st : State) : State :=
  if negb (c_isScrolling c) then
    {| speed := speed st; isScrolling := isScrolling st;
       position := position st; pending := None |}
  else
    let prev := position st in
    let newPosition := prev + c_speed c * 0.1 in
    match maxScroll l with
    | Some maxScroll =>
        if maxScroll <=? newPosition then
          setPosition maxScroll (setIsScrolling false st)
        else setPosition newPosition st
    | None => setPosition newPosition st
    end.

Definition toggleScrolling (st : State) : State :=
  setIsScrolling (negb (isScrolling st)) st.

Definition resetScroll (st : State) : State :=
  setIsScrolling false (setPosition 0 st).

(** The [onChange] of the speed slider: [setSpeed(parseInt(value))]; the
    effect does not depend on [speed], the requested frame is kept. *)
Definition setSpeed (v : Z) (st : State) : State :=
  {| speed := Double.of_Z v; isScrolling := isScrolling st;
     position := position st; pending := pending st |}.

(** What can happen to the component. *)
Inductive Event :=
| Frame (l : Layout)   (* the requested animation frame fires; [l] is what
                          the refs give in it *)
| ToggleClick
| ResetClick
| SpeedChange (v : Z).

Definition step (st : State) (e : Event) : State :=
  match e with
  | Frame l =>
      match pending st with
      | Some c => animate l c st
      | None => st
      end
  | ToggleClick => toggleScrolling st
  | ResetClick => resetScroll st
  | SpeedChange v => setSpeed v st
  end.

(** The state after a sequence of events, from the initial render. *)
Definition run (es : list Event) : State :=
  List.fold_left step es initial.

(** What holds in every state: a frame is requested exactly while
    scrolling is on, by a closure that saw scrolling on. *)
Definition invariant (st : State) : Prop :=
  match pending st with
  | Some c => c_isScrolling c = true /\ isScrolling st = true
  | None => isScrolling st = false
  end.


(** A script of 1000 pixels in the same container. *)
Definition longScript : Layout :=
  {| scrollHeight := Some 1000%Z; clientHeight := Some 256%Z |}.

(** The same container once the script has been cut to 260 pixels. *)
Definition cutScript : Layout :=
  {| scrollHeight := Some 260%Z; clientHeight := Some 256%Z |}.

Definition reachable (st : State) : Prop :=
  exists es, run es = st.

End Teleprompter.

(** ** The script-generation form ([ScriptForm] in [media_player.tsx]) *)

Module ScriptForm.

(** The state cells of the component that [handleSubmit] and
    [handleInputChange] read or write.  [formData] is the object kept in
    the [formData] cell; the six cells of generated content hold what the
    server sent, whatever its type. *)
Record State := {
  formData : gmap string string;
  generatedScript : JS.Value;
  editableScript : JS.Value;
  youtubeDescription : JS.Value;
  editableDescription : JS.Value;
  youtubeTags : JS.Value;
  editableTags : JS.Value;
  isLoading : bool;
  error : string
}.

(** The argument of [useState<ScriptFormData>]. *)
Definition initialFormData : gmap string string :=
  <["topicTitle" := ""]> (<["seoKeyword" := ""]> (<["creatorInfo" := ""]> ∅)).

Definition initial : State :=
  {| formData := initialFormData;
     generatedScript := JS.Str ""; editableScript := JS.Str "";
     youtubeDescription := JS.Str ""; editableDescription := JS.Str "";
     youtubeTags := JS.Str ""; editableTags := JS.Str "";
     isLoading := false; error := "" |}.

(** [setFormData(prev => ({ ...prev, [name]: value }))] *)
Definition handleInputChange (name value : string) (st : State) : State :=
  {| formData := <[name := value]> (formData st);
     generatedScript := generatedScript st;
     editableScript := editableScript st;
     youtubeDescription := youtubeDescription st;
     editableDescription := editableDescription st;
     youtubeTags := youtubeTags st;
     editableTags := editableTags st;
     isLoading := isLoading st; error := error st |}.

(** The three controls of the form that have [handleInputChange] as their
    [onChange], with the [name] attribute of each. *)
Inductive Input := TopicTitleInput | SeoKeywordInput | CreatorInfoInput.

Definition nameAttr (i : Input) : string :=
  match i with
  | TopicTitleInput => "topicTitle"
  | SeoKeywordInput => "seoKeyword"
  | CreatorInfoInput => "creatorInfo"
  end.

(** The values of the [formData] cell that typing into the form reaches. *)
Inductive formReachable : gmap string string -> Prop :=
| form_initial : formReachable initialFormData
| form_change (i : Input) (value : string) (st : State) :
    formReachable (formData st) ->
    formReachable (formData (handleInputChange (nameAttr i) value st)).

Definition setError (e : string) (st : State) : State :=
  {| formData := formData st;
     generatedScript := generatedScript st;
     editableScript := editableScript st;
     youtubeDescription := youtubeDescription st;
     editableDescription := editableDescription st;
     youtubeTags := youtubeTags st;
     editableTags := editableTags st;
     isLoading := isLoading st; error := e |}.

Definition setIsLoading (b : bool) (st : State) : State :=
  {| formData := formData st;
     generatedScript := generatedScript st;
     editableScript := editableScript st;
     youtubeDescription := youtubeDescription st;
     editableDescription := editableDescription st;
     youtubeTags := youtubeTags st;
     editableTags := editableTags st;
     isLoading := b; error := error st |}.

(** The six setter calls after a successful response. *)
Definition setGenerated (script description tags : JS.Value) (st : State)
  : State :=
  {| formData := formData st;
     generatedScript := script; editableScript := script;
     youtubeDescription := description; editableDescription := description;
     youtubeTags := tags; editableTags := tags;
     isLoading := isLoading st; error := error st |}.

(** A call of [fetch], as the form issues it. *)
Record Request := {
  url : string;
  method : string;
  headers : list (string * string);
  body : gmap string string        (* the object given to JSON.stringify *)
}.

(** What [await response.json()] gives. *)
Inductive Body :=
| JsonRejected (e : JS.Thrown)             (* the body is not JSON *)
| JsonNull (typeError : string)            (* [null]: reading a field throws *)
| JsonObject (data : gmap string JS.Value).

(** What [await fetch(...)] gives. *)
Inductive FetchOutcome :=
| FetchRejected (e : JS.Thrown)
| FetchResponse (ok : bool) (status : N) (body : Body).

(** Reading a field of the parsed body: [undefined] when it is absent. *)
Definition field (data : gmap string JS.Value) (k : string) : JS.Value :=
  match data !! k with
  | Some v => v
  | None => JS.Undefined
  end.

(** [!s.trim()] *)
Definition blank (s : string) : bool := String.eqb (JS.trim s) "".

(** [err instanceof Error ? err.message : '...'] in the [catch]. *)
Definition caughtMessage (e : JS.Thrown) : string :=
  match e with
  | JS.ErrorObject message => message
  | JS.OtherThrown _ => "Failed to generate content. Please try again."
  end.

(** What a call of [handleSubmit] leaves behind when its promise settles:
    the state, the requests that went out, and whether the ten-second
    timer is still armed. *)
Record Submitted := {
  state : State;
  requests : list Request;
  timerArmed : bool
}.

Definition generateRequest (st : State) : Request :=
  {| url := "http://localhost:5000/generate-content";
     method := "POST";
     headers := [("Content-Type", "application/json")];
     body := formData st |}.

(** The [try] block after the [fetch] has settled; the result is the
    completion of the block. *)
Definition afterFetch (outcome : FetchOutcome) (st : State)
  : JS.Completion State :=
  match outcome with
  | FetchRejected e => JS.Throw e
  | FetchResponse ok status body =>
      match body with
      | JsonRejected e => JS.Throw e
      | JsonNull typeError => JS.Throw (JS.ErrorObject typeError)
      | JsonObject data =>
          if negb ok then
            JS.Throw
              (JS.ErrorObject
                 (JS.ToString
                    (JS.or_else (field data "error")
                       (JS.Str ("Server error: "
                                  ++ JS.Number_toString status)))))
          else
            JS.Normal
              (setGenerated (field data "script") (field data "description")
                 (field data "tags") st)
      end
  end.

(** [handleSubmit].  [slow] tells whether the ten-second timer fired while
    the [fetch] was pending; [outcome] is what the [fetch] and the reading
    of its body gave.  Reading [.trim] of a missing field throws. *)
Definition handleSubmit (st : State) (slow : bool) (outcome : FetchOutcome)
  : JS.Completion Submitted :=
  match formData st !! "topicTitle" with
  | None => JS.Throw (JS.ErrorObject "TypeError")
  | Some topicTitle =>
      let invalid :=
        if blank topicTitle then JS.Normal true
        else match formData st !! "seoKeyword" with
             | None => JS.Throw (JS.ErrorObject "TypeError")
             | Some seoKeyword => JS.Normal (blank seoKeyword)
             end in
      match invalid with
      | JS.Throw e => JS.Throw e
      | JS.Normal true =>
          JS.Normal
            {| state :=
                 setError "Please fill in both the topic title and SEO keyword" st;
               requests := []; timerArmed := false |}
      | JS.Normal false =>
          let request := generateRequest st in
          let st1 := setError "" (setIsLoading true st) in
          let st2 :=
            if slow then
              setError "This is taking longer than expected. Please wait while we generate your script..." st1
            else st1 in
          let armed :=
            match outcome with
            | FetchRejected _ => negb slow
            | FetchResponse _ _ _ => false
            end in
          let st3 :=
            match afterFetch outcome st2 with
            | JS.Normal st' => st'
            | JS.Throw err => setError (caughtMessage err) st2
            end in
          JS.Normal
            {| state := setIsLoading false st3;
               requests := [request];
               timerArmed := armed |}
      end
  end.

(** The requests a call of [handleSubmit] sent. *)
Definition sent (c : JS.Completion Submitted) : list Request :=
  match c with
  | JS.Normal r => requests r
  | JS.Throw _ => []
  end.

(** The message of the validation. *)
Definition fillInBoth : string :=
  "Please fill in both the topic title and SEO keyword".

(** The generated content of a state. *)
Definition content (st : State) : list JS.Value :=
  [generatedScript st; editableScript st; youtubeDescription st;
   editableDescription st; youtubeTags st; editableTags st].

(** A string made of white space only (the empty string is one). *)
Fixpoint whitespaceOnly (s : string) : Prop :=
  match s with
  | EmptyString => True
  | String c r => JS.isWhiteSpace c = true /\ whitespaceOnly r
  end.

End ScriptForm.

(** ** Downloading a recording *)

Module Download.

(** [new Date()], read in UTC: the fields that [toISOString] prints. *)
Record Date := {
  year : Z;
  month : N;           (* 1 to 12 *)
  day : N;             (* 1 to 31 *)
  hours : N;
  minutes : N;
  seconds : N;
  milliseconds : N
}.

(** A date whose fields are in range. *)
Definition validDate (d : Date) : Prop :=
  (1 <= month d <= 12)%N /\ (1 <= day d <= 31)%N /\ (hours d < 24)%N
  /\ (minutes d < 60)%N /\ (seconds d < 60)%N /\ (milliseconds d < 1000)%N.

(** A year that [toISOString] prints with four digits. *)
Definition fourDigitYear (d : Date) : Prop := (0 <= year d <= 9999)%Z.

Definition digits (width : nat) (n : N) : string :=
  JS.padStart (JS.Number_toString n) width "0".

(** The year of the ISO format: four digits, or a sign and six digits
    outside 0..9999. *)
Definition isoYear (y : Z) : string :=
  if ((0 <=? y) && (y <=? 9999))%Z then digits 4 (Z.to_N y)
  else if (y <? 0)%Z then "-" ++ digits 6 (Z.to_N (- y))
  else "+" ++ digits 6 (Z.to_N y).

(** The part of the ISO format up to the seconds: [YYYY-MM-DDTHH:mm:ss]. *)
Definition isoSeconds (d : Date) : string :=
  isoYear (year d) ++ "-" ++ digits 2 (month d) ++ "-" ++ digits 2 (day d)
    ++ "T" ++ digits 2 (hours d) ++ ":" ++ digits 2 (minutes d)
    ++ ":" ++ digits 2 (seconds d).

(** Date.prototype.toISOString: [YYYY-MM-DDTHH:mm:ss.sssZ]. *)
Definition toISOString (d : Date) : string :=
  isoSeconds d ++ "." ++ digits 3 (milliseconds d) ++ "Z".

(** A URL or a blob held in a cell that may be [null]; the empty string is
    falsy as well. *)
Definition present (url : option string) : bool :=
  match url with
  | Some u => negb (String.eqb u "")
  | None => false
  end.

(** Each function below returns the [download] attribute of the link it
    clicks, or [None] when it returns before making one. *)

(** [downloadVideo] of [utils/download_utils], which the in-component
    recorders call. *)
Definition downloadVideoUtil (videoUrl : option string)
    (recordedChunks : nat) (now : Date) : option string :=
  if negb (present videoUrl) || (recordedChunks =? 0)%nat then None
  else Some ("recording_" ++ toISOString now ++ ".webm").

(** [handleDownload] of [video-recorder/components/VideoPlayer.tsx]. *)
Definition handleDownload_component (videoUrl : option string)
    (videoBlob : bool) (now : Date) : option string :=
  if negb (present videoUrl) || negb videoBlob then None
  else Some ("recording-" ++ toISOString now ++ ".webm").

(** The name built by [handleDownload] of [video-recorder/VideoPlayer.tsx]
    and by [downloadVideo] of the hook-based recorder. *)
Definition stampedName (now : Date) : string :=
  "recording-"
    ++ JS.replaceAll (JS.slice (toISOString now) 0 19) ":" "-"
    ++ ".webm".

(** [handleDownload] of [video-recorder/VideoPlayer.tsx]. *)
Definition handleDownload (videoUrl : option string) (now : Date)
  : option string :=
  if negb (present videoUrl) then None else Some (stampedName now).

(** [downloadVideo] of the hook-based [VideoRecorder]. *)
Definition downloadVideo (videoBlob : bool) (now : Date) : option string :=
  if negb videoBlob then None else Some (stampedName now).

(** The link under the inline player of the two composite recorders:
    [{videoUrl && <a href={videoUrl} download="screen_recording.webm">}]. *)
Definition downloadLink (videoUrl : option string) : option string :=
  if present videoUrl then Some "screen_recording.webm" else None.

(** The name the specification gives. *)
Definition specifiedName (now : Date) : string :=
  "recording_" ++ toISOString now ++ ".webm".

(** The time stamp with its colons replaced: [YYYY-MM-DDTHH-mm-ss]. *)
Definition fileStamp (d : Date) : string :=
  digits 4 (Z.to_N (year d)) ++ "-" ++ digits 2 (month d) ++ "-"
    ++ digits 2 (day d) ++ "T" ++ digits 2 (hours d) ++ "-"
    ++ digits 2 (minutes d) ++ "-" ++ digits 2 (seconds d).

(** A string of the given width with no colon in it. *)
Definition plain (width : nat) (s : string) : Prop :=
  String.length s = width /\ JS.replaceAll s ":" "-" = s.

(** The same, decided on the rendering of a number. *)
Definition plainDigits (width : nat) (n : N) : bool :=
  (String.length (digits width n) =? width)%nat
  && String.eqb (JS.replaceAll (digits width n) ":" "-") (digits width n).

(** 5 March 2024, 14:07:09.042 UTC. *)
Definition march5 : Date :=
  {| year := 2024; month := 3; day := 5; hours := 14; minutes := 7;
     seconds := 9; milliseconds := 42 |}.

End Download.

(** ** The recording state of the recorders *)

Module Recorder.

(** The values of the two declarations of [RecordingState] taken together:
    [types/index.ts] has [completed] as fourth value, the other declaration
    has [processing]. *)
Inductive RecordingState := idle | recording | paused | processing | completed.

(** A recorder as a machine: its state, what can happen to it, how the
    tracked recording state is read off. *)
Record Machine := {
  m_state : Type;
  m_event : Type;
  m_init : m_state;
  m_step : m_state -> m_event -> m_state;
  m_tracked : m_state -> RecordingState
}.

Definition run (m : Machine) (es : list (m_event m)) : m_state m :=
  List.fold_left (m_step m) es (m_init m).

Definition reachable (m : Machine) (st : m_state m) : Prop :=
  exists es, run m es = st.

(** The in-component recorders keep the recording state, whether
    [mediaRecorderRef.current] and [streamRef.current] are set, and
    whether a timer set by [stopRecording] is waiting. *)
Record Cells := {
  recordingState : RecordingState;
  mediaRecorder : bool;
  stream : bool;
  stopTimer : bool
}.

Definition setRecordingState (s : RecordingState) (c : Cells) : Cells :=
  {| recordingState := s; mediaRecorder := mediaRecorder c;
     stream := stream c; stopTimer := stopTimer c |}.

Definition setMediaRecorder (b : bool) (c : Cells) : Cells :=
  {| recordingState := recordingState c; mediaRecorder := b;
     stream := stream c; stopTimer := stopTimer c |}.

Definition setStream (b : bool) (c : Cells) : Cells :=
  {| recordingState := recordingState c; mediaRecorder := mediaRecorder c;
     stream := b; stopTimer := stopTimer c |}.

Definition setStopTimer (b : bool) (c : Cells) : Cells :=
  {| recordingState := recordingState c; mediaRecorder := mediaRecorder c;
     stream := stream c; stopTimer := b |}.

Definition isRecording (s : RecordingState) : bool :=
  match s with recording => true | _ => false end.

Definition isIdle (s : RecordingState) : bool :=
  match s with idle => true | _ => false end.

(** [useState('idle')], refs at null. *)
Definition initialCells : Cells :=
  {| recordingState := idle; mediaRecorder := false; stream := false;
     stopTimer := false |}.

(** What the host does during a call of [startRecording]. *)
Inductive StartOutcome :=
| StartThrows (recorderSet : bool)  (* a host call throws; the ref may be set *)
| StartGivesUp                      (* a guard inside the [try] returns *)
| Started.

(** What can happen to an in-component recorder.  A flag [throws] says
    that the host call made by the handler throws. *)
Inductive Event :=
| Mounted (camera recorder : bool)  (* the mount effect has finished *)
| StartClick (o : StartOutcome)
| PauseClick (throws : bool)
| StopClick (throws : bool)
| RecorderStop (noChunks : bool)    (* the recorder's [onstop] runs *)
| StopTimeout (throws : bool).      (* the timer of [stopRecording] fires *)

(** [pauseRecording], the same in the four components. *)
Definition pauseRecording (throws : bool) (c : Cells) : Cells :=
  if mediaRecorder c && isRecording (recordingState c) then
    if throws then c else setRecordingState paused c
  else c.

(** *** The first component of [components/VideoRecorder.tsx] *)
Module Canvas.

Definition startRecording (o : StartOutcome) (c : Cells) : Cells :=
  if negb (stream c) then c
  else match o with
       | StartGivesUp => c
       | StartThrows recorderSet =>
           if recorderSet then setMediaRecorder true c else c
       | Started => setRecordingState recording (setMediaRecorder true c)
       end.

Definition stopRecording (throws : bool) (c : Cells) : Cells :=
  if negb (mediaRecorder c) then c
  else if throws then c
  else setRecordingState idle c.

Definition step (c : Cells) (e : Event) : Cells :=
  match e with
  | Mounted camera _ => if camera then setStream true c else c
  | StartClick o => startRecording o c
  | PauseClick throws => pauseRecording throws c
  | StopClick throws => stopRecording throws c
  | RecorderStop _ => c
  | StopTimeout _ => c
  end.

Definition machine : Machine :=
  {| m_state := Cells; m_event := Event; m_init := initialCells;
     m_step := step; m_tracked := recordingState |}.

End Canvas.

(** *** The second component of [components/VideoRecorder.tsx] *)
Module Camera.

(** The recorder is made by the mount effect; [startRecording] starts or
    resumes it. *)
Definition startRecording (o : StartOutcome) (c : Cells) : Cells :=
  if negb (stream c) then c
  else if negb (mediaRecorder c) then c
  else match o with
       | Started => setRecordingState recording c
       | StartThrows _ | StartGivesUp => c
       end.

Definition stopRecording (throws : bool) (c : Cells) : Cells :=
  if negb (mediaRecorder c) || isIdle (recordingState c) then c
  else if throws then c
  else setRecordingState idle c.

Definition step (c : Cells) (e : Event) : Cells :=
  match e with
  | Mounted camera recorder =>
      if camera then
        let c := setStream true c in
        if recorder then setMediaRecorder true c else c
      else c
  | StartClick o => startRecording o c
  | PauseClick throws => pauseRecording throws c
  | StopClick throws => stopRecording throws c
  | RecorderStop _ => c
  | StopTimeout _ => c
  end.

Definition machine : Machine :=
  {| m_state := Cells; m_event := Event; m_init := initialCells;
     m_step := step; m_tracked := recordingState |}.

End Camera.

(** *** The recorder of [part_000] *)
Module Composite.

(** [startRecording] sets the state at the end of its [try] and in its
    [catch]. *)
Definition startRecording (o : StartOutcome) (c : Cells) : Cells :=
  match o with
  | Started => setRecordingState recording (setMediaRecorder true c)
  | StartThrows recorderSet =>
      setRecordingState idle
        (if recorderSet then setMediaRecorder true c else c)
  | StartGivesUp => c
  end.

(** [stopRecording] stops the recorder and clears the ref; the state is
    set by the recorder's [onstop]. *)
Definition stopRecording (throws : bool) (c : Cells) : Cells :=
  if mediaRecorder c && isRecording (recordingState c) then
    if throws then c else setMediaRecorder false c
  else c.

(** [recorder.onstop]: the branch without chunks and the normal end both
    set the state to idle. *)
Definition onstop (noChunks : bool) (c : Cells) : Cells :=
  if noChunks then setRecordingState idle c else setRecordingState idle c.

Definition step (c : Cells) (e : Event) : Cells :=
  match e with
  | Mounted camera _ => if camera then setStream true c else c
  | StartClick o => startRecording o c
  | PauseClick throws => pauseRecording throws c
  | StopClick throws => stopRecording throws c
  | RecorderStop noChunks => onstop noChunks c
  | StopTimeout _ => c
  end.

Definition machine : Machine :=
  {| m_state := Cells; m_event := Event; m_init := initialCells;
     m_step := step; m_tracked := recordingState |}.

End Composite.

(** *** The recorder of [part_001] *)
Module Split.

(** The ref is set after [mediaRecorder.start]; the [catch] only reports
    the error. *)
Definition startRecording (o : StartOutcome) (c : Cells) : Cells :=
  match o with
  | Started => setRecordingState recording (setMediaRecorder true c)
  | StartThrows _ | StartGivesUp => c
  end.

(** [stopRecording] asks for the last chunk and sets a timer; the state
    is set when the timer fires. *)
Definition stopRecording (throws : bool) (c : Cells) : Cells :=
  if mediaRecorder c && isRecording (recordingState c) then
    if throws then c else setStopTimer true c
  else c.

Definition stopTimeout (throws : bool) (c : Cells) : Cells :=
  if stopTimer c then
    let c := setStopTimer false c in
    if throws then c else setRecordingState idle c
  else c.

Definition onstop (noChunks : bool) (c : Cells) : Cells :=
  if noChunks then setRecordingState idle c else setRecordingState idle c.

Definition step (c : Cells) (e : Event) : Cells :=
  match e with
  | Mounted camera _ => if camera then setStream true c else c
  | StartClick o => startRecording o c
  | PauseClick throws => pauseRecording throws c
  | StopClick throws => stopRecording throws c
  | RecorderStop noChunks => onstop noChunks c
  | StopTimeout throws => stopTimeout throws c
  end.

Definition machine : Machine :=
  {| m_state := Cells; m_event := Event; m_init := initialCells;
     m_step := step; m_tracked := recordingState |}.

End Split.

(** *** The hook [hooks/useRecording.ts] *)
Module Hook.

(** The recording state, whether [recordRTCRef.current] is set, and how
    many calls of each of the two asynchronous handlers are waiting on the
    recorder: a handler can be called again before an earlier call has
    settled, and every call runs to its end. *)
Record Cells := {
  recordingState : RecordingState;
  service : bool;
  starting : nat;
  stopping : nat
}.

Definition setRecordingState (s : RecordingState) (c : Cells) : Cells :=
  {| recordingState := s; service := service c;
     starting := starting c; stopping := stopping c |}.

Definition initialCells : Cells :=
  {| recordingState := idle; service := false;
     starting := 0; stopping := 0 |}.

(** What can happen to the hook. *)
Inductive Event :=
| Mounted                             (* the effect creates the service *)
| StartCalled (canvasStream : bool)   (* [startRecording], up to its await *)
| StartSettled (ok serviceSet : bool) (* the rest of a [startRecording] *)
| StopCalled                          (* [stopRecording], up to its await *)
| StopSettled (ok : bool)             (* the rest of a [stopRecording] *)
| PauseCalled                         (* the returned [pauseRecording] *)
.

(** [startRecording] up to [await recordRTCRef.current.initialize(...)]:
    without a canvas stream the [throw] lands in the [catch]. *)
Definition startRecording_begin (canvasStream : bool) (c : Cells) : Cells :=
  if negb canvasStream then setRecordingState idle c
  else
    let c := setRecordingState processing c in
    {| recordingState := recordingState c; service := service c;
       starting := S (starting c); stopping := stopping c |}.

(** The rest of one waiting [startRecording]: the state at the end of the
    [try], or the [catch]. *)
Definition startRecording_end (ok serviceSet : bool) (c : Cells) : Cells :=
  if (0 <? starting c)%nat then
    let c := {| recordingState := recordingState c;
                service := service c || serviceSet;
                starting := Nat.pred (starting c);
                stopping := stopping c |} in
    if ok then setRecordingState recording c
    else setRecordingState idle c
  else c.

(** [stopRecording] up to [await recordRTCRef.current.stopRecording()]. *)
Definition stopRecording_begin (c : Cells) : Cells :=
  let c := setRecordingState processing c in
  if negb (service c) then setRecordingState idle c
  else {| recordingState := recordingState c; service := service c;
          starting := starting c; stopping := S (stopping c) |}.

(** The rest of one waiting [stopRecording]: idle after the blob is
    stored, idle in the [catch]. *)
Definition stopRecording_end (ok : bool) (c : Cells) : Cells :=
  if (0 <? stopping c)%nat then
    let c := {| recordingState := recordingState c; service := service c;
                starting := starting c;
                stopping := Nat.pred (stopping c) |} in
    if ok then setRecordingState idle c else setRecordingState idle c
  else c.

Definition pauseRecording (c : Cells) : Cells := setRecordingState paused c.

Definition resumeRecording (c : Cells) : Cells :=
  setRecordingState recording c.

(** The hook returns
    [recordingState === 'recording' ? pauseRecording : resumeRecording]
    as its [pauseRecording]. *)
Definition returnedPauseRecording (c : Cells) : Cells :=
  if isRecording (recordingState c) then pauseRecording c
  else resumeRecording c.

Definition step (c : Cells) (e : Event) : Cells :=
  match e with
  | Mounted =>
      {| recordingState := recordingState c; service := true;
         starting := starting c; stopping := stopping c |}
  | StartCalled canvasStream => startRecording_begin canvasStream c
  | StartSettled ok serviceSet => startRecording_end ok serviceSet c
  | StopCalled => stopRecording_begin c
  | StopSettled ok => stopRecording_end ok c
  | PauseCalled => returnedPauseRecording c
  end.

Definition machine : Machine :=
  {| m_state := Cells; m_event := Event; m_init := initialCells;
     m_step := step; m_tracked := recordingState |}.

End Hook.

(** The recorders of the repository. *)
Definition inComponent : list Machine :=
  [Canvas.machine; Camera.machine; Composite.machine; Split.machine].

Definition recorders : list Machine := inComponent ++ [Hook.machine].

(** The three values of the specification. *)
Definition threeValued (s : RecordingState) : Prop :=
  s = idle \/ s = recording \/ s = paused.

End Recorder.

(** ** View modes of the hook-based [VideoRecorder] ([part_004]) *)

Module ViewModes.

(** [type ViewMode = 'full' | 'split' | 'circle' | 'tutorial'] *)
Inductive ViewMode := full | split | circle | tutorial.

(** The string a value of the type is at run time. *)
Definition literal (m : ViewMode) : string :=
  match m with
  | full => "full"
  | split => "split"
  | circle => "circle"
  | tutorial => "tutorial"
  end.

Definition fourValues : list string := ["full"; "split"; "circle"; "tutorial"].

(** The cells [changeViewMode] writes, the global it writes, and the
    stream work it asks for. *)
Record State := {
  viewMode : string;
  lastViewChange : string;
  _lastViewMode : option string;          (* [window._lastViewMode] *)
  cleanups : nat;                         (* calls of [cleanupStreams] *)
  scheduled : list string                 (* [initStreams] timers, by mode *)
}.

(** [useState<ViewMode>('full')]; the global is whatever the page left. *)
Definition initial (stamp : string) (global : option string) : State :=
  {| viewMode := "full"; lastViewChange := stamp;
     _lastViewMode := global; cleanups := 0; scheduled := [] |}.

(** [changeViewMode(newMode)], with the recording state the hook gave to
    this render and the time stamp of [new Date().toISOString()]. *)
Definition changeViewMode (newMode : string)
    (recordingState : Recorder.RecordingState) (stamp : string) (st : State)
  : State :=
  if String.eqb newMode (viewMode st) then st
  else
    let isActiveRecording :=
      match recordingState with
      | Recorder.recording | Recorder.paused => true
      | _ => false
      end in
    {| viewMode := newMode;
       lastViewChange := stamp;
       _lastViewMode := Some newMode;
       cleanups := if isActiveRecording then cleanups st
                   else S (cleanups st);
       scheduled := scheduled st ++ [newMode] |}.

(** The four buttons of the component, each with the argument its
    [onClick] gives to [changeViewMode]. *)
Inductive Button := WebcamOnly | SplitView | CircleWebcam | Tutorial.

Definition onClick (b : Button) : string :=
  match b with
  | WebcamOnly => "full"
  | SplitView => "split"
  | CircleWebcam => "circle"
  | Tutorial => "tutorial"
  end.

(** A click, in a render whose recording state and clock are given. *)
Record Click := {
  button : Button;
  during : Recorder.RecordingState;
  at_ : string
}.

Definition click (st : State) (c : Click) : State :=
  changeViewMode (onClick (button c)) (during c) (at_ c) st.

Definition run (stamp : string) (global : option string) (cs : list Click)
  : State :=
  List.fold_left click cs (initial stamp global).

Definition reachable (st : State) : Prop :=
  exists stamp global cs, run stamp global cs = st.

End ViewModes.

(** ** The words of the specification about rendered numbers *)

Module Rendering.

(** The decimal rendering of a natural number. *)
Definition decimal (n : N) : string := NilZero.string_of_uint (N.to_uint n).

(** Reading a string of decimal digits back; [None] when a character is
    not a digit. *)
Definition readDecimal (s : string) : option N :=
  match NilEmpty.uint_of_string s with
  | Some d => Some (N.of_uint d)
  | None => None
  end.

Fixpoint zeros (n : nat) : string :=
  match n with
  | O => ""
  | S n' => String "0" (zeros n')
  end.

(** [s] left-padded with '0' to at least [width] characters. *)
Definition leftPad (width : nat) (s : string) : string :=
  zeros (width - String.length s) ++ s.

End Rendering.

(** ** Reading a formatted time back *)

Module TimeText.

(** The text before the first colon and the text after it; [None] when
    there is no colon. *)
Fixpoint splitAtColon (s : string) : option (string * string) :=
  match s with
  | EmptyString => None
  | String c r =>
      if Ascii.eqb c ":" then Some ("", r)
      else match splitAtColon r with
           | Some (a, b) => Some (String c a, b)
           | None => None
           end
  end.

(** The number of seconds a text [minutes:seconds] stands for. *)
Definition parseTime (s : string) : option N :=
  match splitAtColon s with
  | Some (mm, ss) =>
      match Rendering.readDecimal mm, Rendering.readDecimal ss with
      | Some m, Some sec => Some (60 * m + sec)%N
      | _, _ => None
      end
  | None => None
  end.

End TimeText.

(** ** [createMixedStream] of [utils/media-utils.ts] *)

Module Mixing.

(** [stream.addTrack(track)] for a track that is not yet in the stream. *)
Definition addTrack (t : MediaUtils.MediaStreamTrack)
    (s : MediaUtils.MediaStream) : MediaUtils.MediaStream :=
  {| MediaUtils.tracks := (MediaUtils.tracks s ++ [t])%list |}.

(** [track.clone()]: a new track with the kind, the label and the enabled
    flag of its original. *)
Definition clone (t : MediaUtils.MediaStreamTrack)
  : MediaUtils.MediaStreamTrack :=
  {| MediaUtils.kind := MediaUtils.kind t;
     MediaUtils.label := MediaUtils.label t;
     MediaUtils.enabled := MediaUtils.enabled t |}.

(** [createMixedStream]: the two [forEach] loops over a new stream.  The
    video tracks are the objects of the video stream; the audio tracks are
    new clones, so that every [addTrack] adds. *)
Definition createMixedStream (videoStream audioStream : MediaUtils.MediaStream)
  : MediaUtils.MediaStream :=
  let mixedStream := MediaUtils.emptyMediaStream in
  let mixedStream :=
    List.fold_left (fun m track => addTrack track m)
      (MediaUtils.getVideoTracks videoStream) mixedStream in
  let mixedStream :=
    List.fold_left (fun m track => addTrack (clone track) m)
      (MediaUtils.getAudioTracks audioStream) mixedStream in
  mixedStream.

(** The stream a caller records when it mixes the canvas video with what
    [captureAudioForRecording] returned. *)
Definition recordWithCapturedAudio (canvas : MediaUtils.MediaStream)
    (highQuality basic : JS.Completion MediaUtils.MediaStream)
    (w : MediaUtils.Window) : option MediaUtils.MediaStream :=
  match fst (MediaUtils.captureAudioForRecording highQuality basic w) with
  | JS.Normal audioStream => Some (createMixedStream canvas audioStream)
  | JS.Throw _ => None
  end.

End Mixing.

(** ** The globals of [types/window-fix.ts] and their clean-up *)

Module WindowFix.

(** The five globals.  [None] stands for [undefined] and for [null]: every
    reader goes through [x || default], which does not tell them apart.
    A recorder and a pending promise are kept as handles. *)
Record Globals := {
  _directAudioStream : option MediaUtils.MediaStream;
  _mediaRecorderInstance : option nat;
  _lastViewMode : option string;
  _audioTracksAdded : option N;
  _pendingAudioPromise : option nat
}.

(** A page on which nothing has been set. *)
Definition unset : Globals :=
  {| _directAudioStream := None; _mediaRecorderInstance := None;
     _lastViewMode := None; _audioTracksAdded := None;
     _pendingAudioPromise := None |}.

Definition getDirectAudioStream (w : Globals) : option MediaUtils.MediaStream :=
  _directAudioStream w.

Definition setDirectAudioStream (stream : option MediaUtils.MediaStream)
    (w : Globals) : Globals :=
  {| _directAudioStream := stream;
     _mediaRecorderInstance := _mediaRecorderInstance w;
     _lastViewMode := _lastViewMode w;
     _audioTracksAdded := _audioTracksAdded w;
     _pendingAudioPromise := _pendingAudioPromise w |}.

Definition getMediaRecorderInstance (w : Globals) : option nat :=
  _mediaRecorderInstance w.

Definition setMediaRecorderInstance (recorder : option nat) (w : Globals)
  : Globals :=
  {| _directAudioStream := _directAudioStream w;
     _mediaRecorderInstance := recorder;
     _lastViewMode := _lastViewMode w;
     _audioTracksAdded := _audioTracksAdded w;
     _pendingAudioPromise := _pendingAudioPromise w |}.

(** [window._lastViewMode || 'full']: the empty string is falsy. *)
Definition getLastViewMode (w : Globals) : string :=
  match _lastViewMode w with
  | Some mode => if String.eqb mode "" then "full" else mode
  | None => "full"
  end.

Definition setLastViewMode (mode : string) (w : Globals) : Globals :=
  {| _directAudioStream := _directAudioStream w;
     _mediaRecorderInstance := _mediaRecorderInstance w;
     _lastViewMode := Some mode;
     _audioTracksAdded := _audioTracksAdded w;
     _pendingAudioPromise := _pendingAudioPromise w |}.

(** [window._audioTracksAdded || 0] *)
Definition getAudioTracksAdded (w : Globals) : N :=
  match _audioTracksAdded w with
  | Some n => n
  | None => 0%N
  end.

Definition setAudioTracksAdded (count : N) (w : Globals) : Globals :=
  {| _directAudioStream := _directAudioStream w;
     _mediaRecorderInstance := _mediaRecorderInstance w;
     _lastViewMode := _lastViewMode w;
     _audioTracksAdded := Some count;
     _pendingAudioPromise := _pendingAudioPromise w |}.

(** [incrementAudioTracksAdded]: the new globals and the returned count. *)
Definition incrementAudioTracksAdded (w : Globals) : Globals * N :=
  let current := getAudioTracksAdded w in
  (setAudioTracksAdded (current + 1)%N w, (current + 1)%N).

(** [initWindowGlobals], the five [x = x || default] assignments. *)
Definition initWindowGlobals (w : Globals) : Globals :=
  {| _directAudioStream := _directAudioStream w;
     _mediaRecorderInstance := _mediaRecorderInstance w;
     _lastViewMode := Some (getLastViewMode w);
     _audioTracksAdded := Some (getAudioTracksAdded w);
     _pendingAudioPromise := _pendingAudioPromise w |}.

(** What the five readers give. *)
Definition readings (w : Globals)
  : option MediaUtils.MediaStream * option nat * string * N * option nat :=
  (getDirectAudioStream w, getMediaRecorderInstance w, getLastViewMode w,
   getAudioTracksAdded w, _pendingAudioPromise w).

(** [cleanupAudioResources] of the recorder factory: the globals after
    the call, the tracks it stopped, and whether it asked the global
    recorder to stop.  [recorderRecording] tells whether that recorder's
    state is 'recording'. *)
Definition cleanupAudioResources (recorderRecording : bool) (w : Globals)
  : Globals * list MediaUtils.MediaStreamTrack * bool :=
  let stopped :=
    match _directAudioStream w with
    | Some stream => MediaUtils.tracks stream
    | None => []
    end in
  let stopCalled :=
    match _mediaRecorderInstance w with
    | Some _ => recorderRecording
    | None => false
    end in
  ({| _directAudioStream := None;
      _mediaRecorderInstance := None;
      _lastViewMode := _lastViewMode w;
      _audioTracksAdded := Some 0%N;
      _pendingAudioPromise := None |}, stopped, stopCalled).

(** [n] calls of [incrementAudioTracksAdded]. *)
Fixpoint incrementTimes (n : nat) (w : Globals) : Globals :=
  match n with
  | O => w
  | S n' => incrementTimes n' (fst (incrementAudioTracksAdded w))
  end.

End WindowFix.

(** ** The duration timer of [hooks/useRecording.ts] *)

Module HookTimer.

(** The refs and cells of the hook that count the duration.  Times are
    milliseconds as [Date.now()] gives them; [timerRef] tells whether an
    interval is running. *)
Record Cells := {
  timerRef : bool;
  startTimeRef : option Z;
  pausedTimeRef : Z;
  recordingDuration : Z;
  pausedAt : option Z
}.

(** [useState(0)], [useRef(null)], [useRef(0)]. *)
Definition initial : Cells :=
  {| timerRef := false; startTimeRef := None; pausedTimeRef := 0;
     recordingDuration := 0; pausedAt := None |}.

(** [startTimer]: the running interval is cleared, the start time is set
    back by the time already counted, a new interval is set. *)
Definition startTimer (now : Z) (c : Cells) : Cells :=
  {| timerRef := true;
     startTimeRef := Some (now - pausedTimeRef c * 1000)%Z;
     pausedTimeRef := pausedTimeRef c;
     recordingDuration := recordingDuration c;
     pausedAt := pausedAt c |}.

(** The callback of the interval, when the interval is running:
    [if (startTimeRef.current)] is false for [null] and for 0. *)
Definition tick (now : Z) (c : Cells) : Cells :=
  if timerRef c then
    match startTimeRef c with
    | Some start =>
        if (start =? 0)%Z then c
        else
          {| timerRef := timerRef c; startTimeRef := startTimeRef c;
             pausedTimeRef := pausedTimeRef c;
             recordingDuration := ((now - start) / 1000)%Z;
             pausedAt := pausedAt c |}
    | None => c
    end
  else c.

(** What [startRecording] does to the timer when it succeeds: the resets
    at its beginning, then [startTimer] once the recorder is ready. *)
Definition startRecording (now : Z) (c : Cells) : Cells :=
  startTimer now
    {| timerRef := timerRef c; startTimeRef := startTimeRef c;
       pausedTimeRef := 0; recordingDuration := 0; pausedAt := None |}.

(** [pauseRecording]: the interval is cleared and the duration shown is
    kept as the time already counted. *)
Definition pauseRecording (now : Z) (c : Cells) : Cells :=
  {| timerRef := false; startTimeRef := startTimeRef c;
     pausedTimeRef := recordingDuration c;
     recordingDuration := recordingDuration c;
     pausedAt := Some now |}.

(** [resumeRecording] *)
Definition resumeRecording (now : Z) (c : Cells) : Cells :=
  startTimer now
    {| timerRef := timerRef c; startTimeRef := startTimeRef c;
       pausedTimeRef := pausedTimeRef c;
       recordingDuration := recordingDuration c; pausedAt := None |}.

(** [stopRecording] clears the interval. *)
Definition stopRecording (c : Cells) : Cells :=
  {| timerRef := false; startTimeRef := startTimeRef c;
     pausedTimeRef := pausedTimeRef c;
     recordingDuration := recordingDuration c; pausedAt := pausedAt c |}.

End HookTimer.

(** ** Editing the tags and formatting the script ([media_player.tsx]) *)

Module Editing.

(** The form with the flag of the tags editor. *)
Record Editor := {
  form : ScriptForm.State;
  isEditingTags : bool
}.

Definition setYoutubeTags (v : JS.Value) (st : ScriptForm.State)
  : ScriptForm.State :=
  {| ScriptForm.formData := ScriptForm.formData st;
     ScriptForm.generatedScript := ScriptForm.generatedScript st;
     ScriptForm.editableScript := ScriptForm.editableScript st;
     ScriptForm.youtubeDescription := ScriptForm.youtubeDescription st;
     ScriptForm.editableDescription := ScriptForm.editableDescription st;
     ScriptForm.youtubeTags := v;
     ScriptForm.editableTags := ScriptForm.editableTags st;
     ScriptForm.isLoading := ScriptForm.isLoading st;
     ScriptForm.error := ScriptForm.error st |}.

Definition setEditableTags (v : JS.Value) (st : ScriptForm.State)
  : ScriptForm.State :=
  {| ScriptForm.formData := ScriptForm.formData st;
     ScriptForm.generatedScript := ScriptForm.generatedScript st;
     ScriptForm.editableScript := ScriptForm.editableScript st;
     ScriptForm.youtubeDescription := ScriptForm.youtubeDescription st;
     ScriptForm.editableDescription := ScriptForm.editableDescription st;
     ScriptForm.youtubeTags := ScriptForm.youtubeTags st;
     ScriptForm.editableTags := v;
     ScriptForm.isLoading := ScriptForm.isLoading st;
     ScriptForm.error := ScriptForm.error st |}.

(** [handleTagsEdit]: [setEditableTags(e.target.value)]. *)
Definition handleTagsEdit (value : string) (e : Editor) : Editor :=
  {| form := setEditableTags (JS.Str value) (form e);
     isEditingTags := isEditingTags e |}.

(** [toggleTagsEditMode]: leaving the editor saves its text, entering it
    loads the saved tags. *)
Definition toggleTagsEditMode (e : Editor) : Editor :=
  {| form :=
       if isEditingTags e
       then setYoutubeTags (ScriptForm.editableTags (form e)) (form e)
       else setEditableTags (ScriptForm.youtubeTags (form e)) (form e);
     isEditingTags := negb (isEditingTags e) |}.

(** The double quote. *)
Definition quote : string := String (ascii_of_nat 34) "".

(** The [switch] of [insertFormatting]: the formatted text and the cursor
    offset for a format and a selected text. *)
Definition formatted (format selectedText : string) : string * nat :=
  if String.eqb format "h1" then ("# " ++ selectedText, 2)
  else if String.eqb format "h2" then ("## " ++ selectedText, 3)
  else if String.eqb format "bold" then ("**" ++ selectedText ++ "**", 2)
  else if String.eqb format "italic" then ("*" ++ selectedText ++ "*", 1)
  else if String.eqb format "strike" then ("~~" ++ selectedText ++ "~~", 2)
  else if String.eqb format "color-red" then
    ("<span style=" ++ quote ++ "color: red" ++ quote ++ ">"
       ++ selectedText ++ "</span>", 23)
  else if String.eqb format "color-blue" then
    ("<span style=" ++ quote ++ "color: blue" ++ quote ++ ">"
       ++ selectedText ++ "</span>", 24)
  else (selectedText, 0).

(** String.prototype.substring(start, end): both indices are clamped to
    the length and swapped when they come in the wrong order. *)
Definition substring (s : string) (a b : nat) : string :=
  let a := Nat.min a (String.length s) in
  let b := Nat.min b (String.length s) in
  String.substring (Nat.min a b) (Nat.max a b - Nat.min a b) s.

(** String.prototype.substring(start): to the end of the string. *)
Definition substringFrom (s : string) (a : nat) : string :=
  substring s a (String.length s).

(** [insertFormatting].  [selection] is the selection of the textarea of
    the ref, [None] when the ref is not set.  The result is the new
    content given to [setContent] and the place where the timer puts the
    cursor; [None] when the function returns at once. *)
Definition insertFormatting (format : string) (selection : option (nat * nat))
    (content : string) : option (string * nat) :=
  match selection with
  | None => None
  | Some (start, stop) =>
      let selectedText := substring content start stop in
      let '(formattedText, cursorOffset) := formatted format selectedText in
      let newText :=
        substring content 0 start ++ formattedText
          ++ substringFrom content stop in
      let cursor :=
        if negb (String.eqb selectedText "")
        then (start + String.length formattedText)%nat
        else (start + cursorOffset)%nat in
      Some (newText, cursor)
  end.

(** The markers each button puts around the selection: what comes before
    it and what comes after it. *)
Definition markers (format : string) : string * string :=
  if String.eqb format "h1" then ("# ", "")
  else if String.eqb format "h2" then ("## ", "")
  else if String.eqb format "bold" then ("**", "**")
  else if String.eqb format "italic" then ("*", "*")
  else if String.eqb format "strike" then ("~~", "~~")
  else if String.eqb format "color-red" then
    ("<span style=" ++ quote ++ "color: red" ++ quote ++ ">", "</span>")
  else if String.eqb format "color-blue" then
    ("<span style=" ++ quote ++ "color: blue" ++ quote ++ ">", "</span>")
  else ("", "").

(** The formats of the seven buttons of the toolbar. *)
Definition toolbar : list string :=
  ["h1"; "h2"; "bold"; "italic"; "strike"; "color-red"; "color-blue"].

End Editing.

(* ===================================================================== *)
(** * Audio tracks, track status and the remaining utilities *)

(** ** Tracks with an identity *)

Module TrackSet.

(** A track as the audio utilities see it: its [id] and its kind.  A
    stream holds its tracks in the order in which they were added. *)
Record Track := {
  id : string;
  kind : MediaUtils.TrackKind
}.

Definition isAudio (t : Track) : bool :=
  match kind t with MediaUtils.audio => true | MediaUtils.video => false end.

Definition getAudioTracks (s : list Track) : list Track :=
  List.filter isAudio s.

(** Whether two tracks are the same track. *)
Definition sameTrack (a b : Track) : bool :=
  String.eqb (id a) (id b)
  && match kind a, kind b with
     | MediaUtils.audio, MediaUtils.audio => true
     | MediaUtils.video, MediaUtils.video => true
     | _, _ => false
     end.

(** [stream.addTrack(track)]: nothing happens when the track is already
    in the stream. *)
Definition addTrack (t : Track) (s : list Track) : list Track :=
  if existsb (sameTrack t) s then s else (s ++ [t])%list.

(** [ids.includes(x)] *)
Definition includes (ids : list string) (x : string) : bool :=
  existsb (String.eqb x) ids.

(** The [forEach] of both versions of [ensureAudioTracks]: the target
    stream and the counter [tracksAdded] after the loop. *)
Definition addMissing (existingTrackIds : list string)
    (audioTracks : list Track) (targetStream : list Track)
  : list Track * nat :=
  List.fold_left
    (fun acc track =>
       if negb (includes existingTrackIds (id track))
       then (addTrack track (fst acc), S (snd acc))
       else acc)
    audioTracks (targetStream, 0%nat).

End TrackSet.

(** ** [ensureAudioTracks] of the audio utilities ([part_011]) *)

Module AudioUtils.

(** The target stream after the call and the returned flag; [None] is a
    stream that is [null]. *)
Definition ensureAudioTracks
    (sourceStream targetStream : option (list TrackSet.Track))
  : option (list TrackSet.Track) * bool :=
  match sourceStream with
  | None => (targetStream, false)
  | Some source =>
      match targetStream with
      | None => (None, false)
      | Some target =>
          let audioTracks := TrackSet.getAudioTracks source in
          if (length audioTracks =? 0)%nat then (Some target, false)
          else
            let existingAudioTracks := TrackSet.getAudioTracks target in
            let existingTrackIds := List.map TrackSet.id existingAudioTracks in
            let '(target', tracksAdded) :=
              TrackSet.addMissing existingTrackIds audioTracks target in
            (Some target',
             (0 <? tracksAdded)%nat || (0 <? length existingAudioTracks)%nat)
      end
  end.

End AudioUtils.

(** ** [ensureAudioTracks] of [utils/audio-processor.ts] *)

Module AudioProcessor.

Definition ensureAudioTracks
    (sourceStream targetStream : option (list TrackSet.Track))
  : option (list TrackSet.Track) * bool :=
  match sourceStream, targetStream with
  | Some source, Some target =>
      let sourceAudioTracks := TrackSet.getAudioTracks source in
      if (length sourceAudioTracks =? 0)%nat then (Some target, false)
      else
        let existingTrackIds :=
          List.map TrackSet.id (TrackSet.getAudioTracks target) in
        let '(target', tracksAdded) :=
          TrackSet.addMissing existingTrackIds sourceAudioTracks target in
        (Some target', (0 <? tracksAdded)%nat)
  | _, _ => (targetStream, false)
  end.

End AudioProcessor.

(** ** [utils/video-track-processor.ts] *)

Module VideoTrackProcessor.

Record Track := {
  kind : MediaUtils.TrackKind;
  label : string;
  enabled : bool;
  muted : bool;
  readyState : string
}.

Definition isAudio (t : Track) : bool :=
  match kind t with MediaUtils.audio => true | MediaUtils.video => false end.
Definition isVideo (t : Track) : bool :=
  match kind t with MediaUtils.video => true | MediaUtils.audio => false end.

Definition getAudioTracks (s : list Track) : list Track := List.filter isAudio s.
Definition getVideoTracks (s : list Track) : list Track := List.filter isVideo s.

(** [list.forEach((x, index) => ...)] over a state. *)
Fixpoint forEachFrom {A St : Type} (f : St -> nat -> A -> St) (index : nat)
    (l : list A) (s : St) : St :=
  match l with
  | [] => s
  | x :: r => forEachFrom f (S index) r (f s index x)
  end.

(** The result of [getTracksStatus]; [allMuted] is its field [muted]. *)
Record Status := {
  healthy : bool;
  videoTracks : nat;
  audioTracks : nat;
  allMuted : bool;
  details : list string
}.

Definition indexText (index : nat) : string :=
  JS.Number_toString (N.of_nat index).

(** The body of the loop over the video tracks, on [videoHealthy] and
    [details]. *)
Definition checkVideo (acc : bool * list string) (index : nat) (track : Track)
  : bool * list string :=
  let '(videoHealthy, details) := acc in
  let '(videoHealthy, details) :=
    if negb (enabled track)
    then (false,
          (details ++ [("Video track " ++ indexText index ++ " is disabled")%string])%list)
    else (videoHealthy, details) in
  let '(videoHealthy, details) :=
    if muted track
    then (false,
          (details ++ [("Video track " ++ indexText index ++ " is muted")%string])%list)
    else (videoHealthy, details) in
  (videoHealthy,
   (details ++ [("Video " ++ indexText index ++ ": " ++ label track
                   ++ " (" ++ readyState track ++ ")")%string])%list).

(** The body of the loop over the audio tracks, on [audioHealthy],
    [allMuted] and [details]. *)
Definition checkAudio (acc : bool * bool * list string) (index : nat)
    (track : Track) : bool * bool * list string :=
  let '(audioHealthy, allMuted, details) := acc in
  let '(audioHealthy, details) :=
    if negb (enabled track)
    then (false,
          (details ++ [("Audio track " ++ indexText index ++ " is disabled")%string])%list)
    else (audioHealthy, details) in
  let allMuted := if negb (muted track) then false else allMuted in
  (audioHealthy, allMuted,
   (details ++ [("Audio " ++ indexText index ++ ": " ++ label track
                   ++ " (" ++ readyState track ++ ")")%string])%list).

Definition getTracksStatus (stream : option (list Track)) : Status :=
  match stream with
  | None =>
      {| healthy := false; videoTracks := 0; audioTracks := 0;
         allMuted := true; details := ["No stream available"] |}
  | Some s =>
      let videoTracks := getVideoTracks s in
      let audioTracks := getAudioTracks s in
      let '(videoHealthy, details) :=
        forEachFrom checkVideo 0 videoTracks (true, []) in
      let '(audioHealthy, allMuted, details) :=
        forEachFrom checkAudio 0 audioTracks
          (true, (0 <? length audioTracks)%nat, details) in
      {| healthy :=
           videoHealthy && audioHealthy && (0 <? length videoTracks)%nat;
         videoTracks := length videoTracks;
         audioTracks := length audioTracks;
         allMuted := allMuted;
         details := details |}
  end.

(** *** [pulseTrack] *)

(** The stream that is pulsed, the timers of [pulseTrack] that have not
    fired yet (each with the [originalEnabled] it captured, oldest first),
    and the telemetry events with the flag they report. *)
Record Pulsing := {
  stream : option (list Track);
  timers : list bool;
  events : list (string * bool)
}.

Definition setEnabled (b : bool) (t : Track) : Track :=
  {| kind := kind t; label := label t; enabled := b; muted := muted t;
     readyState := readyState t |}.

(** Assigning to the first video track of the stream, the track that
    [videoTracks[0]] denotes. *)
Fixpoint updateFirstVideo (f : Track -> Track) (s : list Track) : list Track :=
  match s with
  | [] => []
  | t :: r => if isVideo t then f t :: r else t :: updateFirstVideo f r
  end.

(** [pulseTrack], up to the [setTimeout]. *)
Definition pulseTrack (p : Pulsing) : Pulsing :=
  match stream p with
  | None => p
  | Some s =>
      match getVideoTracks s with
      | [] => p
      | track :: _ =>
          let originalEnabled := enabled track in
          {| stream := Some (updateFirstVideo (setEnabled false) s);
             timers := (timers p ++ [originalEnabled])%list;
             events := (events p ++ [("pulseTrack", originalEnabled)])%list |}
      end
  end.

(** The oldest timer of [pulseTrack] fires: all timers have the same
    delay, so they fire in the order in which they were set. *)
Definition timerFires (p : Pulsing) : Pulsing :=
  match timers p with
  | [] => p
  | originalEnabled :: rest =>
      {| stream :=
           match stream p with
           | Some s => Some (updateFirstVideo (setEnabled originalEnabled) s)
           | None => None
           end;
         timers := rest;
         events :=
           (events p ++ [("pulseTrackComplete", originalEnabled)])%list |}
  end.

(** [n] calls in a row. *)
Fixpoint times {A : Type} (n : nat) (f : A -> A) (a : A) : A :=
  match n with
  | O => a
  | S n' => times n' f (f a)
  end.

(** The [enabled] flag of the first video track. *)
Definition firstVideoEnabled (p : Pulsing) : option bool :=
  match stream p with
  | Some s => option_map enabled (List.head (getVideoTracks s))
  | None => None
  end.

End VideoTrackProcessor.

(** ** [checkBrowserCompatibility] ([part_013]) *)

Module BrowserCompatibility.

(** What the function reads of the browser.  [mediaDevices] is
    [navigator.mediaDevices], with whether its two methods exist;
    [MediaRecorder] is the global of that name, [None] when it is not
    defined, with its [isTypeSupported]; [captureStream] tells whether a
    canvas has that method. *)
Record MediaDevices := {
  getUserMedia : bool;
  getDisplayMedia : bool
}.

Record Browser := {
  mediaDevices : option MediaDevices;
  MediaRecorder : option (string -> bool);
  captureStream : bool
}.

Record CompatibilityResult := {
  compatible : bool;
  issues : list string
}.

(** [issues.push(text)] when the condition holds. *)
Definition pushIf (condition : bool) (text : string) (issues : list string)
  : list string :=
  if condition then (issues ++ [text])%list else issues.

Definition missing (b : Browser) (method : MediaDevices -> bool) : bool :=
  match mediaDevices b with
  | None => true
  | Some devices => negb (method devices)
  end.

(** Reading [MediaRecorder.isTypeSupported] when the global is not
    defined throws a ReferenceError. *)
Definition checkBrowserCompatibility (b : Browser)
  : JS.Completion CompatibilityResult :=
  let issues := [] in
  let issues :=
    pushIf (missing b getUserMedia)
      "Camera and microphone access not supported" issues in
  let issues :=
    pushIf (match MediaRecorder b with None => true | Some _ => false end)
      "MediaRecorder API not supported" issues in
  let issues :=
    pushIf (negb (captureStream b)) "Canvas capture not supported" issues in
  let issues :=
    pushIf (missing b getDisplayMedia) "Screen capture not supported" issues in
  match MediaRecorder b with
  | None => JS.Throw (JS.ErrorObject "MediaRecorder is not defined")
  | Some isTypeSupported =>
      let hasWebmSupport := isTypeSupported "video/webm;codecs=vp8,opus" in
      let issues :=
        pushIf (negb hasWebmSupport) "WebM video format not supported" issues in
      JS.Normal
        {| compatible := (length issues =? 0)%nat; issues := issues |}
  end.

End BrowserCompatibility.

(** ** [RecorderTelemetry] of [utils/telemetry.ts] *)

Module Telemetry.

Record Event := {
  timestamp : Z;
  event : string;
  data : JS.Value
}.

(** [recordEvent], with what [Date.now()] gives. *)
Definition recordEvent (now : Z) (name : string) (d : JS.Value)
    (events : list Event) : list Event :=
  (events ++ [{| timestamp := now; event := name; data := d |}])%list.

Definition getEventsSince (t : Z) (events : list Event) : list Event :=
  List.filter (fun e => (t <=? timestamp e)%Z) events.

Definition clear (events : list Event) : list Event := [].

(** The log after a series of calls of [recordEvent] on an empty log. *)
Definition recorded (calls : list (Z * string * JS.Value)) : list Event :=
  List.fold_left
    (fun events call =>
       recordEvent (fst (fst call)) (snd (fst call)) (snd call) events)
    calls [].

(** The clock never goes back between the calls. *)
Fixpoint monotone (previous : Z) (calls : list (Z * string * JS.Value))
  : Prop :=
  match calls with
  | [] => True
  | call :: rest =>
      (previous <= fst (fst call))%Z /\ monotone (fst (fst call)) rest
  end.

End Telemetry.

(** ** [components/RecordingControls.tsx] *)

Module Controls.

Inductive Control :=
| StartButton | ResumeButton | PauseButton | StopButton
| ProcessingNotice | TeleprompterToggle | NewRecordingButton.

Inductive Handler :=
| onStartRecording | onStopRecording | onPauseRecording
| onToggleTeleprompter.

(** The [onClick] of each control; the notice has none. *)
Definition onClick (c : Control) : option Handler :=
  match c with
  | StartButton | ResumeButton | NewRecordingButton => Some onStartRecording
  | PauseButton => Some onPauseRecording
  | StopButton => Some onStopRecording
  | TeleprompterToggle => Some onToggleTeleprompter
  | ProcessingNotice => None
  end.

Definition stateIs (a b : Recorder.RecordingState) : bool :=
  match a, b with
  | Recorder.idle, Recorder.idle
  | Recorder.recording, Recorder.recording
  | Recorder.paused, Recorder.paused
  | Recorder.processing, Recorder.processing
  | Recorder.completed, Recorder.completed => true
  | _, _ => false
  end.

(** What the component renders, in the order of its JSX; [videoUrl]
    tells whether the prop is truthy. *)
Definition render (recordingState : Recorder.RecordingState) (videoUrl : bool)
  : list Control :=
  ((if stateIs recordingState Recorder.idle && negb videoUrl
    then [StartButton] else [])
   ++ (if stateIs recordingState Recorder.paused then [ResumeButton] else [])
   ++ (if stateIs recordingState Recorder.recording
       then [PauseButton; StopButton] else [])
   ++ (if stateIs recordingState Recorder.processing
       then [ProcessingNotice] else [])
   ++ (if negb (stateIs recordingState Recorder.processing)
       then [TeleprompterToggle] else [])
   ++ (if videoUrl && stateIs recordingState Recorder.idle
       then [NewRecordingButton] else []))%list.

(** The handlers the user can reach. *)
Definition offered (recordingState : Recorder.RecordingState) (videoUrl : bool)
  : list Handler :=
  omap onClick (render recordingState videoUrl).

(** What a click on a control does to the hook, as the hook-based
    [VideoRecorder] wires the handlers: the part of the handler that runs
    at once. *)
Definition clicked (h : Handler) (canvasStream : bool)
    (c : Recorder.Hook.Cells) : Recorder.Hook.Cells :=
  match h with
  | onStartRecording => Recorder.Hook.startRecording_begin canvasStream c
  | onStopRecording => Recorder.Hook.stopRecording_begin c
  | onPauseRecording => Recorder.Hook.returnedPauseRecording c
  | onToggleTeleprompter => c
  end.

End Controls.

(** ** The floating teleprompter ([components/Teleprompter.tsx]) *)

Module Floating.

Inductive Position := overlay | side | bottom.

(** The cells of the component that dragging and the size buttons use.
    Coordinates are whole pixels. *)
Record State := {
  isDragging : bool;
  position_ : Z * Z;
  dragStartRef : Z * Z;
  fontSize : Z
}.

Definition initial : State :=
  {| isDragging := false; position_ := (0, 0)%Z; dragStartRef := (0, 0)%Z;
     fontSize := 32 |}.

(** [handleMouseDown]; [rect] is the bounding rectangle of the
    container, [None] when the ref is not set. *)
Definition handleMouseDown (position : Position) (client : Z * Z)
    (rect : option (Z * Z)) (st : State) : State :=
  match position with
  | overlay =>
      {| isDragging := true; position_ := position_ st;
         dragStartRef :=
           match rect with
           | Some (rectLeft, rectTop) =>
               (fst client - rectLeft, snd client - rectTop)%Z
           | None => dragStartRef st
           end;
         fontSize := fontSize st |}
  | _ => st
  end.

(** [handleMouseMove]; [mounted] tells whether the ref is set. *)
Definition handleMouseMove (client : Z * Z) (mounted : bool) (st : State)
  : State :=
  if isDragging st && mounted then
    {| isDragging := isDragging st;
       position_ := (fst client - fst (dragStartRef st),
                     snd client - snd (dragStartRef st))%Z;
       dragStartRef := dragStartRef st; fontSize := fontSize st |}
  else st.

Definition handleMouseUp (st : State) : State :=
  {| isDragging := false; position_ := position_ st;
     dragStartRef := dragStartRef st; fontSize := fontSize st |}.

Definition setFontSize (size : Z) (st : State) : State :=
  {| isDragging := isDragging st; position_ := position_ st;
     dragStartRef := dragStartRef st; fontSize := size |}.

(** The two size buttons. *)
Definition decreaseFontSize (st : State) : State :=
  setFontSize (Z.max 16 (fontSize st - 4)) st.

Definition increaseFontSize (st : State) : State :=
  setFontSize (Z.min 72 (fontSize st + 4)) st.

Inductive Event :=
| MouseDown (client : Z * Z) (rect : option (Z * Z))
| MouseMove (client : Z * Z) (mounted : bool)
| MouseUp
| Smaller
| Larger.

Definition step (position : Position) (st : State) (e : Event) : State :=
  match e with
  | MouseDown client rect => handleMouseDown position client rect st
  | MouseMove client mounted => handleMouseMove client mounted st
  | MouseUp => handleMouseUp st
  | Smaller => decreaseFontSize st
  | Larger => increaseFontSize st
  end.

Definition run (position : Position) (es : list Event) : State :=
  List.fold_left (step position) es initial.

End Floating.

(* ===================================================================== *)
(** * Conditions used by the further properties *)

Module Conditions.

(** A click made in a render in which a recording is active: the
    condition [recordingState === 'recording' || recordingState ===
    'paused'] of [changeViewMode]. *)
Definition activeClick (c : ViewModes.Click) : Prop :=
  ViewModes.during c = Recorder.recording
  \/ ViewModes.during c = Recorder.paused.

(** What holds of the view-mode cells between clicks. *)
Definition inStep (stamp : string) (global : option string)
    (st : ViewModes.State) : Prop :=
  match ViewModes.scheduled st with
  | [] => ViewModes.viewMode st = "full"
          /\ ViewModes._lastViewMode st = global
          /\ ViewModes.cleanups st = 0%nat
          /\ ViewModes.lastViewChange st = stamp
  | _ => ViewModes._lastViewMode st = Some (ViewModes.viewMode st)
         /\ List.last (ViewModes.scheduled st) "" = ViewModes.viewMode st
  end
  /\ (ViewModes.cleanups st <= length (ViewModes.scheduled st))%nat.

End Conditions.

(* ===================================================================== *)
(** * Part II: properties                                                 *)
(* ===================================================================== *)

(** ** Strings *)

#[local] Arguments String.append !s1 s2 : simpl nomatch.

Lemma length_append (a b : string) :
  String.length (a ++ b) = (String.length a + String.length b)%nat.
Proof. induction a as [|c a IH]; simpl; [reflexivity | now rewrite IH]. Qed.

Lemma append_assoc (a b c : string) : (a ++ b) ++ c = a ++ b ++ c.
Proof. induction a as [|x a IH]; simpl; [reflexivity | now rewrite IH]. Qed.

Lemma fill_zero_rest (rest : string) (n : nat) :
  (rest = "" \/ rest = "0") -> JS.fill "0" rest n = Rendering.zeros n.
Proof.
  revert rest. induction n as [|n IH]; intros rest Hrest; simpl.
  - reflexivity.
  - destruct Hrest as [-> | ->]; simpl; rewrite IH; auto.
Qed.

(** Padding with the one-character string "0" is left-padding with
    zeros. *)
Lemma padStart_zero (s : string) (width : nat) :
  JS.padStart s width "0" = Rendering.leftPad width s.
Proof.
  unfold JS.padStart, Rendering.leftPad.
  destruct (Nat.leb_spec width (String.length s)) as [Hle | Hlt].
  - replace (width - String.length s)%nat with 0%nat by lia. reflexivity.
  - simpl. rewrite fill_zero_rest; auto.
Qed.

Lemma length_zeros (n : nat) : String.length (Rendering.zeros n) = n.
Proof. induction n; simpl; congruence. Qed.

Lemma length_leftPad (width : nat) (s : string) :
  String.length (Rendering.leftPad width s) = Nat.max width (String.length s).
Proof.
  unfold Rendering.leftPad. rewrite length_append, length_zeros. lia.
Qed.

Lemma uint_of_string_zeros (k : nat) (s : string) (d : Decimal.uint) :
  NilEmpty.uint_of_string s = Some d ->
  exists d', NilEmpty.uint_of_string (Rendering.zeros k ++ s) = Some d'
             /\ N.of_uint d' = N.of_uint d.
Proof.
  intros Hs. induction k as [|k [d' [Hd' Heq]]]; simpl.
  - exists d. split; [exact Hs | reflexivity].
  - exists (Decimal.D0 d'). rewrite Hd'. split; [reflexivity | exact Heq].
Qed.

Lemma uint_of_string_decimal (n : N) :
  exists d, NilEmpty.uint_of_string (Rendering.decimal n) = Some d
            /\ N.of_uint d = n.
Proof.
  unfold Rendering.decimal, NilZero.string_of_uint.
  generalize (DecimalN.Unsigned.of_to n).
  destruct (N.to_uint n) as [|u|u|u|u|u|u|u|u|u|u]; intros Hof.
  1: { exists (Decimal.D0 Decimal.Nil). split; [reflexivity | exact Hof]. }
  all: eexists; split; [apply NilEmpty.usu | exact Hof].
Qed.

(** Reading a padded rendering gives the number back. *)
Lemma readDecimal_leftPad (width : nat) (n : N) :
  Rendering.readDecimal (Rendering.leftPad width (Rendering.decimal n))
  = Some n.
Proof.
  destruct (uint_of_string_decimal n) as [d [Hd Hn]].
  destruct (uint_of_string_zeros
              (width - String.length (Rendering.decimal n)) _ _ Hd)
    as [d' [Hd' Heq]].
  unfold Rendering.readDecimal, Rendering.leftPad.
  rewrite Hd'. congruence.
Qed.

(** A property checked on every number below a bound holds below it. *)
Lemma below_forallb (P : N -> bool) (bound : N) :
  forallb P (List.map N.of_nat (List.seq 0 (N.to_nat bound))) = true ->
  forall n : N, (n < bound)%N -> P n = true.
Proof.
  intros Hall n Hn.
  rewrite forallb_forall in Hall. apply Hall.
  apply in_map_iff. exists (N.to_nat n). split.
  - apply N2Nat.id.
  - apply in_seq. lia.
Qed.

Lemma two_digits (n : N) :
  (n < 100)%N -> String.length (Rendering.leftPad 2 (Rendering.decimal n)) = 2%nat.
Proof.
  intros Hn.
  apply Nat.eqb_eq.
  apply (below_forallb
           (fun n => String.length (Rendering.leftPad 2 (Rendering.decimal n))
                     =? 2)%nat 100%N); [vm_compute; reflexivity | exact Hn].
Qed.

(** The string methods on a few inputs. *)

Example padStart_short : JS.padStart "5" 2 "0" = "05".
Proof. reflexivity. Qed.

Example padStart_long : JS.padStart "123" 2 "0" = "123".
Proof. reflexivity. Qed.

Example padStart_cycles : JS.padStart "7" 6 "abc" = "abcab7".
Proof. reflexivity. Qed.

Example trim_both_ends :
  JS.trim (String (ascii_of_nat 9) "  a b  ") = "a b".
Proof. reflexivity. Qed.

Example slice_replace :
  JS.replaceAll (JS.slice "2024-03-05T14:07:09.042Z" 0 19) ":" "-"
  = "2024-03-05T14-07-09".
Proof. reflexivity. Qed.

Example toISOString_march5 :
  Download.toISOString Download.march5 = "2024-03-05T14:07:09.042Z".
Proof. reflexivity. Qed.

(** ** [getSupportedMimeType] *)

Lemma probe_some (p : string -> bool) (types : list string) (t : string) :
  MediaUtils.probe p types = Some t ->
  exists before after,
    types = (before ++ t :: after)%list
    /\ Forall (fun x => p x = false) before /\ p t = true.
Proof.
  induction types as [|x rest IH]; simpl; [discriminate |].
  destruct (p x) eqn:Hx.
  - intros [= <-]. exists [], rest. repeat split; [constructor | exact Hx].
  - intros H. destruct (IH H) as (before & after & -> & Hb & Ht).
    exists (x :: before), after. repeat split; [constructor | ]; assumption.
Qed.

Lemma probe_none (p : string -> bool) (types : list string) :
  MediaUtils.probe p types = None -> Forall (fun x => p x = false) types.
Proof.
  induction types as [|x rest IH]; simpl; [constructor |].
  destruct (p x) eqn:Hx; [discriminate |].
  intros H. constructor; [exact Hx | exact (IH H)].
Qed.

(** C3.  Whatever the browser's [isTypeSupported] answers, the type
    [getSupportedMimeType] returns is the first entry of the probe list
    (the six entries of the source, in their order) that is supported, and
    it is 'video/webm' when no entry is supported. *)
Theorem getSupportedMimeType_first_match (isTypeSupported : string -> bool) :
  MediaUtils.mimeTypes =
    [ "video/webm;codecs=vp9,opus"; "video/webm;codecs=vp8,opus";
      "video/webm;codecs=h264,opus"; "video/mp4;codecs=h264,aac";
      "video/webm"; "video/mp4" ]
  /\ ((exists before type after,
          MediaUtils.mimeTypes = (before ++ type :: after)%list
          /\ Forall (fun t => isTypeSupported t = false) before
          /\ isTypeSupported type = true
          /\ MediaUtils.getSupportedMimeType isTypeSupported = type)
      \/ (Forall (fun t => isTypeSupported t = false) MediaUtils.mimeTypes
          /\ MediaUtils.getSupportedMimeType isTypeSupported = "video/webm")).
Proof.
  split; [reflexivity |].
  unfold MediaUtils.getSupportedMimeType.
  destruct (MediaUtils.probe isTypeSupported MediaUtils.mimeTypes) as [t|] eqn:E.
  - left. destruct (probe_some _ _ _ E) as (before & after & Hl & Hb & Ht).
    exists before, t, after. auto.
  - right. split; [exact (probe_none _ _ E) | reflexivity].
Qed.

Example getSupportedMimeType_mp4_only :
  MediaUtils.getSupportedMimeType
    (fun type => String.prefix "video/mp4" type)
  = "video/mp4;codecs=h264,aac".
Proof. reflexivity. Qed.

Example getSupportedMimeType_nothing :
  MediaUtils.getSupportedMimeType (fun _ => false) = "video/webm".
Proof. reflexivity. Qed.

(** ** Binary64 arithmetic on whole numbers *)

Section WholeDoubles.

Local Open Scope Z_scope.

Lemma digits2_pos_size (p : positive) : digits2_pos p = Pos.size p.
Proof. induction p as [p IH|p IH|]; simpl; [now rewrite IH | now rewrite IH | reflexivity]. Qed.

Lemma digits_bounds (p : positive) :
  2 ^ (Z.pos (digits2_pos p) - 1) <= Z.pos p < 2 ^ Z.pos (digits2_pos p).
Proof.
  rewrite digits2_pos_size.
  pose proof (Pos.size_gt p) as Hgt. pose proof (Pos.size_le p) as Hle.
  apply Pos2Z.pos_lt_pos in Hgt. apply Pos2Z.pos_le_pos in Hle.
  rewrite Pos2Z.inj_pow in Hgt, Hle.
  change (Z.pos 2) with 2 in Hgt, Hle.
  change (Z.pos p~0) with (2 * Z.pos p) in Hle.
  split; [| exact Hgt].
  replace (Z.pos (Pos.size p)) with (Z.pos (Pos.size p) - 1 + 1) in Hle by lia.
  rewrite Z.pow_add_r in Hle by lia.
  change (2 ^ 1) with 2 in Hle. lia.
Qed.

Lemma digits_unique (p : positive) (k : Z) :
  2 ^ (k - 1) <= Z.pos p < 2 ^ k -> Z.pos (digits2_pos p) = k.
Proof.
  intros [Hlo Hhi].
  pose proof (digits_bounds p) as [Hlo' Hhi'].
  assert (Hk : 0 < k).
  { destruct (Z_lt_le_dec 0 k) as [H|H]; [exact H |].
    destruct (Z.eq_dec k 0) as [->|Hne]; [simpl in Hhi; lia |].
    rewrite Z.pow_neg_r in Hhi by lia. lia. }
  assert (H1 : k - 1 < Z.pos (digits2_pos p)).
  { apply (Z.pow_lt_mono_r_iff 2); lia. }
  assert (H2 : Z.pos (digits2_pos p) - 1 < k).
  { apply (Z.pow_lt_mono_r_iff 2); lia. }
  lia.
Qed.

Lemma loc_of_record (m : Z) (l : location) :
  loc_of_shr_record (shr_record_of_loc m l) = l.
Proof. destruct l as [|[]]; reflexivity. Qed.

(** Rounding a mantissa that already has 53 digits and a location. *)
Lemma round_aux_53 (mx : positive) (ex : Z) (lx : location) :
  2 ^ 52 <= Z.pos mx < 2 ^ 53 -> -1074 <= ex <= 970 ->
  exists mq eq',
    binary_round_aux prec emax false (Z.pos mx) ex lx = S754_finite false mq eq'
    /\ ((eq' = ex /\ Z.pos mx <= Z.pos mq <= Z.pos mx + 1)
        \/ (eq' = ex + 1 /\ 2 * Z.pos mq = Z.pos mx + 1)).
Proof.
  intros Hm He.
  unfold binary_round_aux, shr_fexp.
  change (Zdigits2 (Z.pos mx)) with (Z.pos (digits2_pos mx)).
  rewrite (digits_unique mx 53) by exact Hm.
  assert (Hf : fexp prec emax (53 + ex) - ex = 0).
  { unfold fexp, SpecFloat.emin, prec, emax. lia. }
  rewrite Hf. unfold shr at 1. cbv iota.
  rewrite loc_of_record.
  assert (Hsm : shr_m (shr_record_of_loc (Z.pos mx) lx) = Z.pos mx)
    by (destruct lx as [|[]]; reflexivity).
  rewrite Hsm.
  assert (Hr : round_nearest_even (Z.pos mx) lx = Z.pos mx
               \/ round_nearest_even (Z.pos mx) lx = Z.pos mx + 1).
  { unfold round_nearest_even. destruct lx as [|[]]; auto.
    destruct (Z.even (Z.pos mx)); auto. }
  destruct Hr as [Hr | Hr]; rewrite Hr.
  - change (Zdigits2 (Z.pos mx)) with (Z.pos (digits2_pos mx)).
    rewrite (digits_unique mx 53) by exact Hm.
    rewrite Hf. simpl shr. cbv iota. simpl shr_m.
    replace (ex <=? emax - prec) with true
      by (symmetry; apply Z.leb_le; unfold emax, prec; lia).
    exists mx, ex. split; [reflexivity |]. left. lia.
  - destruct (Z.eq_dec (Z.pos mx + 1) (2 ^ 53)) as [Heq | Hne].
    + rewrite Heq.
      change (2 ^ 53) with 9007199254740992 in *.
      change (Zdigits2 9007199254740992) with 54.
      assert (Hf1 : fexp prec emax (54 + ex) - ex = 1).
      { unfold fexp, SpecFloat.emin, prec, emax. lia. }
      rewrite Hf1.
      cbv [shr shr_record_of_loc SpecFloat.iter_pos shr_1 shr_m shr_r shr_s].
      replace (ex + 1 <=? emax - prec) with true
        by (symmetry; apply Z.leb_le; unfold emax, prec; lia).
      eexists _, _. split; [reflexivity |]. right. split; [reflexivity |].
      lia.
    + assert (Hpos : exists q, Z.pos mx + 1 = Z.pos q)
        by (exists (mx + 1)%positive; lia).
      destruct Hpos as [q Hq]. rewrite Hq.
      change (Zdigits2 (Z.pos q)) with (Z.pos (digits2_pos q)).
      rewrite (digits_unique q 53) by lia.
      rewrite Hf. simpl shr. cbv iota. simpl shr_m.
      replace (ex <=? emax - prec) with true
        by (symmetry; apply Z.leb_le; unfold emax, prec; lia).
      exists q, ex. split; [reflexivity |]. left. lia.
Qed.

Lemma round_aux_54 (mx : positive) (ex : Z) (lx : location) :
  2 ^ 53 <= Z.pos mx < 2 ^ 53 + 2 ^ 52 -> -1074 <= ex <= 969 ->
  exists mq,
    binary_round_aux prec emax false (Z.pos mx) ex lx
    = S754_finite false mq (ex + 1)
    /\ Z.pos mx - 1 <= 2 * Z.pos mq <= Z.pos mx + 1.
Proof.
  intros Hm He.
  change (2 ^ 53) with 9007199254740992 in Hm.
  change (2 ^ 52) with 4503599627370496 in Hm.
  unfold binary_round_aux, shr_fexp.
  change (Zdigits2 (Z.pos mx)) with (Z.pos (digits2_pos mx)).
  rewrite (digits_unique mx 54)
    by (change (2 ^ (54 - 1)) with 9007199254740992;
        change (2 ^ 54) with 18014398509481984; lia).
  assert (Hf1 : fexp prec emax (54 + ex) - ex = 1).
  { unfold fexp, SpecFloat.emin, prec, emax. lia. }
  assert (Hf : fexp prec emax (53 + (ex + 1)) - (ex + 1) = 0).
  { unfold fexp, SpecFloat.emin, prec, emax. lia. }
  rewrite Hf1. unfold shr at 1. cbv iota. unfold SpecFloat.iter_pos.
  assert (Hcases :
    exists p, 2 * Z.pos p <= Z.pos mx <= 2 * Z.pos p + 1
      /\ shr_m (shr_1 (shr_record_of_loc (Z.pos mx) lx)) = Z.pos p
      /\ (round_nearest_even (Z.pos p)
            (loc_of_shr_record (shr_1 (shr_record_of_loc (Z.pos mx) lx)))
          = Z.pos p
          \/ (Z.pos mx = 2 * Z.pos p + 1
              /\ round_nearest_even (Z.pos p)
                   (loc_of_shr_record
                      (shr_1 (shr_record_of_loc (Z.pos mx) lx)))
                 = Z.pos p + 1))).
  { destruct mx as [p|p|]; [| | lia].
    - exists p. split; [lia |].
      destruct lx as [|[]];
        cbn [shr_1 shr_record_of_loc loc_of_shr_record shr_m shr_r shr_s orb
             round_nearest_even];
        (split; [reflexivity |]);
        try (destruct (Z.even (Z.pos p)));
        first [left; reflexivity | right; split; [lia | reflexivity]].
    - exists p. split; [lia |].
      destruct lx as [|[]];
        cbn [shr_1 shr_record_of_loc loc_of_shr_record shr_m shr_r shr_s orb
             round_nearest_even];
        (split; [reflexivity |]); left; reflexivity. }
  destruct Hcases as (p & Hp & Hsm & Hr).
  rewrite Hsm.
  assert (Hfin : forall q : positive,
             2 ^ 52 <= Z.pos q < 2 ^ 53 ->
             (let '(mrs'', e'') :=
                shr (shr_record_of_loc (Z.pos q) loc_Exact) (ex + 1)
                  (fexp prec emax (Zdigits2 (Z.pos q) + (ex + 1)) - (ex + 1)) in
              match shr_m mrs'' with
              | 0 => S754_zero false
              | Z.pos m =>
                  if e'' <=? emax - prec then S754_finite false m e''
                  else S754_infinity false
              | Z.neg _ => S754_nan
              end) = S754_finite false q (ex + 1)).
  { intros q Hq.
    change (Zdigits2 (Z.pos q)) with (Z.pos (digits2_pos q)).
    rewrite (digits_unique q 53) by exact Hq.
    rewrite Hf. simpl shr. cbv iota. simpl shr_m.
    replace (ex + 1 <=? emax - prec) with true
      by (symmetry; apply Z.leb_le; unfold emax, prec; lia).
    reflexivity. }
  destruct Hr as [Hr | [Hodd Hr]]; rewrite Hr.
  - exists p. split; [| lia]. apply Hfin.
    change (2 ^ 53) with 9007199254740992.
    change (2 ^ 52) with 4503599627370496. lia.
  - exists (p + 1)%positive. split; [| lia].
    replace (Z.pos p + 1) with (Z.pos (p + 1)) by lia. apply Hfin.
    change (2 ^ 53) with 9007199254740992.
    change (2 ^ 52) with 4503599627370496. lia.
Qed.

(** Rounding the quotient of a division: at most one unit away, on the
    grid of the result. *)
Lemma round_aux_quotient (mx : positive) (ex : Z) (lx : location) :
  2 ^ 52 <= Z.pos mx < 2 ^ 53 + 2 ^ 52 -> -1074 <= ex <= 969 ->
  exists mq eq',
    binary_round_aux prec emax false (Z.pos mx) ex lx = S754_finite false mq eq'
    /\ ((eq' = ex /\ Z.pos mx <= Z.pos mq <= Z.pos mx + 1)
        \/ (eq' = ex + 1 /\ Z.pos mx - 1 <= 2 * Z.pos mq <= Z.pos mx + 1)).
Proof.
  intros Hm He.
  destruct (Z_lt_le_dec (Z.pos mx) (2 ^ 53)) as [Hlt | Hge].
  - destruct (round_aux_53 mx ex lx) as (mq & eq' & H1 & H2); [lia | lia |].
    exists mq, eq'. split; [exact H1 |].
    destruct H2 as [H2 | [H2 H3]]; [left; exact H2 | right; lia].
  - destruct (round_aux_54 mx ex lx) as (mq & H1 & H2); [lia | lia |].
    exists mq, (ex + 1). split; [exact H1 | right; lia].
Qed.

Lemma pow2_pos (n : Z) : 0 <= n -> 0 < 2 ^ n.
Proof. intros. apply Z.pow_pos_nonneg; lia. Qed.

(** A positive whole number below 2^53, as a double. *)
Lemma integer_form (x : float) (z : Z) :
  Double.integerValue x = Some z -> 0 < z < 2 ^ 53 ->
  exists m e,
    Prim2SF x = S754_finite false m e
    /\ 2 ^ 52 <= Z.pos m < 2 ^ 53
    /\ -52 <= e <= 0
    /\ Z.pos m = z * 2 ^ (- e).
Proof.
  intros Hint Hz.
  pose proof (Prim2SF_valid x) as Hvalid.
  unfold Double.integerValue in Hint.
  destruct (Prim2SF x) as [s|s| |s m e]; try discriminate Hint.
  - injection Hint as <-. lia.
  - unfold SpecFloat.valid_binary, bounded, canonical_mantissa in Hvalid.
    apply andb_prop in Hvalid. destruct Hvalid as [Hcanon Hemax].
    apply Z.eqb_eq in Hcanon. apply Z.leb_le in Hemax.
    pose proof (digits_bounds m) as [Hlo Hhi].
    set (d := Z.pos (digits2_pos m)) in *.
    assert (Hd : 1 <= d) by (unfold d; lia).
    unfold fexp, SpecFloat.emin, prec, emax in Hcanon.
    unfold Double.whole in Hint.
    assert (Hvalue : exists w, (if s then - w else w) = z
                               /\ ((0 <= e /\ w = Z.pos m * 2 ^ e)
                                   \/ (e < 0 /\ Z.pos m = w * 2 ^ (- e)))).
    { destruct (Z.leb_spec 0 e) as [He | He].
      - injection Hint as Hint. eexists. split; [exact Hint |]. left. auto.
      - destruct (Z.eqb_spec (Z.pos m mod 2 ^ (- e)) 0) as [Hmod | Hmod];
          [| discriminate Hint].
        injection Hint as Hint. eexists. split; [exact Hint |]. right.
        split; [exact He |].
        pose proof (pow2_pos (- e) ltac:(lia)) as Hp.
        rewrite (Z_div_exact_full_2 (Z.pos m) (2 ^ (- e))) at 1 by lia.
        apply Z.mul_comm. }
    destruct Hvalue as (w & Hw & Hcase).
    assert (Hwpos : 0 < w).
    { destruct Hcase as [[He ->] | [He Hm]].
      - pose proof (pow2_pos e He). nia.
      - pose proof (pow2_pos (- e) ltac:(lia)). nia. }
    destruct s; [lia |]. subst w.
    assert (H53 : d = 53).
    { destruct (Z.max_spec (d + e - 53) (3 - 1024 - 53)) as [[Hlt Hmax] | [Hge Hmax]];
        [| lia].
      (* e = -1074: the mantissa is a multiple of 2^1074 *)
      exfalso. rewrite Hmax in Hcanon.
      destruct Hcase as [[He _] | [He Hm]]; [lia |].
      assert (Hbig : 2 ^ 53 <= 2 ^ (- e)) by (apply Z.pow_le_mono_r; lia).
      assert (Hm53 : Z.pos m < 2 ^ 53).
      { apply Z.lt_le_trans with (2 ^ d); [exact Hhi |].
        apply Z.pow_le_mono_r; lia. }
      nia. }
    rewrite H53 in Hlo, Hhi. change (2 ^ (53 - 1)) with (2 ^ 52) in Hlo.
    exists m, e. split; [reflexivity |]. split; [lia |].
    destruct Hcase as [[He Hzv] | [He Hm]].
    + assert (e = 0).
      { destruct (Z.eq_dec e 0) as [H0 | Hne]; [exact H0 |].
        assert (2 ^ 1 <= 2 ^ e) by (apply Z.pow_le_mono_r; lia).
        change (2 ^ 1) with 2 in *. nia. }
      subst e. split; [lia |]. simpl. lia.
    + split; [| exact Hm].
      split; [| lia].
      destruct (Z_lt_le_dec e (-52)) as [Hsmall | Hok]; [| lia].
      assert (2 ^ 53 <= 2 ^ (- e)) by (apply Z.pow_le_mono_r; lia).
      nia.
Qed.

Lemma whole_positive (m : positive) (e w : Z) :
  Double.whole m e = Some w -> 0 < w.
Proof.
  unfold Double.whole.
  destruct (Z.leb_spec 0 e) as [He | He].
  - intros [= <-]. pose proof (pow2_pos e He) as Hp. destruct (2 ^ e); lia.
  - destruct (Z.eqb_spec (Z.pos m mod 2 ^ (- e)) 0) as [Hmod | Hmod];
      [| discriminate].
    intros [= <-].
    pose proof (pow2_pos (- e) ltac:(lia)) as Hp.
    pose proof (Z_div_exact_full_2 (Z.pos m) (2 ^ (- e)) ltac:(lia) Hmod).
    destruct (Z_lt_le_dec 0 (Z.pos m / 2 ^ (- e))) as [H0 | H0]; [exact H0 |].
    nia.
Qed.

Lemma integer_zero (x : float) :
  Double.integerValue x = Some 0 -> exists s, Prim2SF x = S754_zero s.
Proof.
  unfold Double.integerValue.
  destruct (Prim2SF x) as [s|s| |s m e]; try discriminate.
  - intros _. exists s. reflexivity.
  - destruct (Double.whole m e) as [w|] eqn:Hw; [| discriminate].
    apply whole_positive in Hw. destruct s; intros [= H]; lia.
Qed.

(** Rounding changes nothing in a mantissa of 53 digits that is exact. *)
Lemma round_aux_exact (mx : positive) (ex : Z) :
  2 ^ 52 <= Z.pos mx < 2 ^ 53 -> -1074 <= ex <= 971 ->
  binary_round_aux prec emax false (Z.pos mx) ex loc_Exact
  = S754_finite false mx ex.
Proof.
  intros Hm He.
  unfold binary_round_aux, shr_fexp.
  change (Zdigits2 (Z.pos mx)) with (Z.pos (digits2_pos mx)).
  rewrite (digits_unique mx 53) by exact Hm.
  assert (Hf : fexp prec emax (53 + ex) - ex = 0).
  { unfold fexp, SpecFloat.emin, prec, emax. lia. }
  rewrite Hf. unfold shr at 1. cbv iota.
  cbn [shr_record_of_loc loc_of_shr_record shr_m shr_r shr_s
       round_nearest_even].
  change (Zdigits2 (Z.pos mx)) with (Z.pos (digits2_pos mx)).
  rewrite (digits_unique mx 53) by exact Hm.
  rewrite Hf. simpl shr. cbv iota. simpl shr_m.
  replace (ex <=? emax - prec) with true
    by (symmetry; apply Z.leb_le; unfold emax, prec; lia).
  reflexivity.
Qed.

Lemma valid_53 (m : positive) (e : Z) :
  2 ^ 52 <= Z.pos m < 2 ^ 53 -> -1074 <= e <= 971 ->
  valid_binary (S754_finite false m e) = true.
Proof.
  intros Hm He.
  unfold SpecFloat.valid_binary, bounded, canonical_mantissa.
  rewrite (digits_unique m 53) by exact Hm.
  apply andb_true_intro. split.
  - apply Z.eqb_eq. unfold fexp, SpecFloat.emin, prec, emax. lia.
  - apply Z.leb_le. unfold prec, emax. lia.
Qed.

(** A whole number below 2^53 is a double. *)
Lemma integerValue_of_Z (k : Z) :
  0 <= k < 2 ^ 53 -> Double.integerValue (Double.of_Z k) = Some k.
Proof.
  intros Hk.
  destruct k as [|p|p]; [reflexivity | | lia].
  unfold Double.of_Z, Double.scaled, binary_normalize, binary_round, shl_align.
  pose proof (digits_bounds p) as [Hlo Hhi].
  set (d := Z.pos (digits2_pos p)) in *.
  assert (Hd : 1 <= d <= 53).
  { split; [unfold d; lia |].
    destruct (Z_lt_le_dec 53 d) as [Hbig | Hok]; [| exact Hok].
    assert (2 ^ 53 <= 2 ^ (d - 1)) by (apply Z.pow_le_mono_r; lia). lia. }
  assert (Hf : fexp prec emax (d + 0) - 0 = d - 53).
  { unfold fexp, SpecFloat.emin, prec, emax. lia. }
  rewrite Hf.
  destruct (d - 53) as [|q|q] eqn:Hq; [| lia |].
  - assert (H53 : d = 53) by lia. rewrite H53 in Hlo, Hhi.
    change (2 ^ (53 - 1)) with (2 ^ 52) in Hlo.
    rewrite round_aux_exact by lia.
    unfold Double.integerValue.
    rewrite Prim2SF_SF2Prim by (apply valid_53; lia).
    unfold Double.whole. change (0 <=? 0) with true. cbv iota.
    change (2 ^ 0) with 1. rewrite Z.mul_1_r. reflexivity.
  - change (PosDef.Pos.iter xO p q) with (shift_pos q p).
    assert (Hshift : Z.pos (shift_pos q p) = Z.pos p * 2 ^ Z.pos q).
    { rewrite shift_pos_correct, Z.pow_pos_fold. lia. }
    assert (Hqd : Z.pos q = 53 - d) by lia.
    assert (Hrange : 2 ^ 52 <= Z.pos (shift_pos q p) < 2 ^ 53).
    { rewrite Hshift, Hqd.
      replace 52 with ((d - 1) + (53 - d)) by lia.
      replace 53 with (d + (53 - d)) at 4 by lia.
      rewrite !Z.pow_add_r by lia.
      pose proof (pow2_pos (53 - d) ltac:(lia)). nia. }
    assert (Hfexp : fexp prec emax (d + 0) = Z.neg q).
    { unfold fexp, SpecFloat.emin, prec, emax. lia. }
    rewrite Hfexp.
    rewrite round_aux_exact by lia.
    unfold Double.integerValue.
    rewrite Prim2SF_SF2Prim by (apply valid_53; lia).
    unfold Double.whole.
    replace (0 <=? Z.neg q) with false by (symmetry; apply Z.leb_gt; lia).
    change (- Z.neg q) with (Z.pos q).
    rewrite Hshift, Z.mod_mul by (pose proof (pow2_pos (Z.pos q)); lia).
    rewrite Z.eqb_refl, Z.div_mul by (pose proof (pow2_pos (Z.pos q)); lia).
    reflexivity.
Qed.

(** The quotient by sixty of a whole number, rounded to a double, has the
    whole part of the exact quotient. *)
Lemma div60_whole_part (m : positive) (e z : Z) :
  2 ^ 52 <= Z.pos m < 2 ^ 53 -> -52 <= e <= 0 -> Z.pos m = z * 2 ^ (- e) ->
  exists mq eq',
    SFdiv prec emax (S754_finite false m e)
      (S754_finite false 8444249301319680 (-47))
    = S754_finite false mq eq'
    /\ eq' < 0
    /\ Z.pos mq / 2 ^ (- eq') = z / 60.
Proof.
  intros Hm He Hz.
  unfold SFdiv, SFdiv_core_binary.
  change (Zdigits2 (Z.pos m)) with (Z.pos (digits2_pos m)).
  rewrite (digits_unique m 53) by exact Hm.
  change (Zdigits2 8444249301319680) with 53.
  change IntDef.Z.min with Z.min.
  change IntDef.Z.shiftl with Z.shiftl.
  change IntDef.Z.div_eucl with Z.div_eucl.
  assert (He' : Z.min (fexp prec emax (53 + e - (53 + -47))) (e - -47) = e - 6).
  { unfold fexp, SpecFloat.emin, prec, emax. lia. }
  rewrite He'.
  replace (e - -47 - (e - 6)) with 53 by lia.
  cbv zeta iota.
  rewrite Z.shiftl_mul_pow2 by lia.
  pose proof (Z_div_mod (Z.pos m * 2 ^ 53) 8444249301319680 ltac:(lia)) as Hdiv.
  destruct (Z.div_eucl (Z.pos m * 2 ^ 53) 8444249301319680) as [q r].
  destruct Hdiv as [Hqr Hr].
  change (2 ^ 53) with 9007199254740992 in *.
  change (2 ^ 52) with 4503599627370496 in *.
  cbv [xorb].
  set (P := 2 ^ (- e)) in *.
  assert (HP : 1 <= P) by (pose proof (pow2_pos (- e) ltac:(lia)); unfold P; lia).
  pose proof (Z.div_mod z 60 ltac:(lia)) as Hz60.
  pose proof (Z.mod_pos_bound z 60 ltac:(lia)) as Hrho.
  set (K := z / 60) in *. set (rho := z mod 60) in *.
  assert (Hq1 : 60 * q <= 64 * Z.pos m < 60 * q + 60) by lia.
  assert (Hqpos : 4503599627370496 <= q < 9007199254740992 + 4503599627370496)
    by lia.
  destruct q as [|pq|pq]; [lia | | lia].
  destruct (round_aux_quotient pq (e - 6)
              (new_location 8444249301319680 r))
    as (mq & eq' & Hround & Hcases);
    [change (2 ^ 53) with 9007199254740992;
     change (2 ^ 52) with 4503599627370496; lia | lia |].
  exists mq, eq'. split; [exact Hround |].
  (* 64 P K <= q <= 64 P K + 64 P - 2 *)
  assert (Hlow : 64 * P * K <= Z.pos pq) by nia.
  assert (Hhigh : Z.pos pq + 2 <= 64 * P * K + 64 * P) by nia.
  destruct Hcases as [[-> Hmq] | [-> Hmq]].
  - split; [lia |].
    replace (- (e - 6)) with (6 + - e) by lia.
    rewrite Z.pow_add_r by lia. change (2 ^ 6) with 64. fold P.
    symmetry. apply (Z.div_unique _ _ K (Z.pos mq - 64 * P * K)); lia.
  - split; [lia |].
    replace (- (e - 6 + 1)) with (5 + - e) by lia.
    rewrite Z.pow_add_r by lia. change (2 ^ 5) with 32. fold P.
    symmetry. apply (Z.div_unique _ _ K (Z.pos mq - 32 * P * K)); lia.
Qed.

Lemma Prim2SF_sixty :
  Prim2SF 60 = S754_finite false 8444249301319680 (-47).
Proof. reflexivity. Qed.

(** [Math.floor(seconds / 60)] on a whole number of seconds below 2^53. *)
Lemma floor_div60 (x : float) (z : Z) :
  Double.integerValue x = Some z -> 0 <= z < 2 ^ 53 ->
  Double.integerValue (Double.floor (x / 60)) = Some (z / 60).
Proof.
  intros Hint Hz.
  destruct (Z.eq_dec z 0) as [-> | Hne].
  - destruct (integer_zero x Hint) as [s Hs].
    unfold Double.floor, Double.integerValue.
    assert (Hq : Prim2SF (x / 60) = S754_zero (xorb s false)).
    { rewrite div_spec, Hs, Prim2SF_sixty. reflexivity. }
    rewrite Hq. rewrite Hq. reflexivity.
  - destruct (integer_form x z Hint ltac:(lia)) as (m & e & Hx & Hm & He & Hv).
    destruct (div60_whole_part m e z Hm He Hv) as (mq & eq' & Hdiv & Heq & Hk).
    unfold Double.floor.
    assert (Hq : Prim2SF (x / 60) = S754_finite false mq eq').
    { rewrite div_spec, Hx, Prim2SF_sixty. exact Hdiv. }
    rewrite Hq.
    replace (0 <=? eq') with false by (symmetry; apply Z.leb_gt; exact Heq).
    rewrite Z.shiftr_div_pow2 by lia. rewrite Hk.
    apply integerValue_of_Z.
    split; [apply Z.div_pos; lia |].
    apply Z.le_lt_trans with z; [| lia].
    apply Z.div_le_upper_bound; lia.
Qed.

Lemma scaled_small (rho w : Z) :
  0 <= rho < 60 -> 47 <= w <= 52 ->
  Double.integerValue (Double.scaled (rho * 2 ^ w) (- w) false) = Some rho.
Proof.
  intros Hrho Hw.
  assert (Hcheck : forall w', 47 <= w' <= 52 ->
            forallb (fun n : nat =>
                       match Double.integerValue
                               (Double.scaled (Z.of_nat n * 2 ^ w') (- w') false)
                       with
                       | Some k => k =? Z.of_nat n
                       | None => false
                       end) (List.seq 0 60) = true).
  { intros w' Hw'.
    assert (Hc : w' = 47 \/ w' = 48 \/ w' = 49 \/ w' = 50 \/ w' = 51 \/ w' = 52)
      by lia.
    destruct Hc as [-> | [-> | [-> | [-> | [-> | ->]]]]];
      vm_compute; reflexivity. }
  specialize (Hcheck w Hw). rewrite forallb_forall in Hcheck.
  specialize (Hcheck (Z.to_nat rho)).
  rewrite Z2Nat.id in Hcheck by lia.
  assert (Hin : In (Z.to_nat rho) (List.seq 0 60)) by (apply in_seq; lia).
  specialize (Hcheck Hin).
  destruct (Double.integerValue (Double.scaled (rho * 2 ^ w) (- w) false))
    as [k|]; [| discriminate].
  apply Z.eqb_eq in Hcheck. congruence.
Qed.

(** [seconds % 60] on a whole number of seconds below 2^53. *)
Lemma rem60 (x : float) (z : Z) :
  Double.integerValue x = Some z -> 0 <= z < 2 ^ 53 ->
  Double.integerValue (Double.rem x 60) = Some (z mod 60).
Proof.
  intros Hint Hz.
  destruct (Z.eq_dec z 0) as [-> | Hne].
  - destruct (integer_zero x Hint) as [s Hs].
    unfold Double.rem. rewrite Hs, Prim2SF_sixty. exact Hint.
  - destruct (integer_form x z Hint ltac:(lia)) as (m & e & Hx & Hm & He & Hv).
    unfold Double.rem. rewrite Hx, Prim2SF_sixty.
    pose proof (Z.mod_pos_bound z 60 ltac:(lia)) as Hrho.
    destruct (Z_le_gt_dec (-47) e) as [Hbig | Hsmall].
    + replace (Z.min e (-47)) with (-47) by lia.
      replace (-47 - -47) with 0 by lia.
      rewrite Z.shiftl_0_r, Z.shiftl_mul_pow2 by lia.
      rewrite Hv, <- Z.mul_assoc, <- Z.pow_add_r by lia.
      replace (- e + (e - -47)) with 47 by lia.
      change 8444249301319680 with (60 * 2 ^ 47).
      rewrite Z.mul_mod_distr_r by lia.
      apply (scaled_small (z mod 60) 47); lia.
    + replace (Z.min e (-47)) with e by lia.
      replace (e - e) with 0 by lia.
      rewrite Z.shiftl_0_r, Z.shiftl_mul_pow2 by lia.
      rewrite Hv.
      change 8444249301319680 with (60 * 2 ^ 47).
      rewrite <- Z.mul_assoc, <- Z.pow_add_r by lia.
      replace (47 + (-47 - e)) with (- e) by lia.
      rewrite Z.mul_mod_distr_r
        by (pose proof (pow2_pos (- e) ltac:(lia)); lia).
      replace e with (- - e) at 2 by lia.
      apply (scaled_small (z mod 60) (- e)); lia.
Qed.

Lemma toString_whole (x : float) (k : Z) :
  Double.integerValue x = Some k -> 0 <= k < 2 ^ 53 ->
  Double.toString x = Double.digits k.
Proof.
  intros Hint Hk. unfold Double.toString. rewrite Hint.
  replace (Z.abs k <? 2 ^ 53) with true by (symmetry; apply Z.ltb_lt; lia).
  replace (k <? 0) with false by (symmetry; apply Z.ltb_ge; lia).
  rewrite Z.abs_eq by lia. reflexivity.
Qed.

End WholeDoubles.

(** The operations on a few inputs, with what JavaScript gives. *)

Example double_floor_samples :
  List.map (fun x => Double.toString (Double.floor x))
    [(-0.5)%float; 2.7%float; (-3)%float; 0.999%float]
  = ["-1"; "2"; "-3"; "0"].
Proof. vm_compute. reflexivity. Qed.

Example double_rem_samples :
  List.map (fun xy => Double.toString (Double.rem (fst xy) (snd xy)))
    [(5.5, 2); (-7, 3); (7, -3); (1, 0); (125, 60)]%float
  = ["1.5"; "-1"; "1"; "NaN"; "5"].
Proof. vm_compute. reflexivity. Qed.

Example double_toString_samples :
  List.map Double.toString
    [0.1; 0.1 + 0.2; 1e21; 123456789012345680000; 1.5e-7; 1 / 3; -0;
     infinity; 5e-324; 1.7976931348623157e308]%float
  = ["0.1"; "0.30000000000000004"; "1e+21"; "123456789012345680000";
     "1.5e-7"; "0.3333333333333333"; "0"; "Infinity"; "5e-324";
     "1.7976931348623157e+308"].
Proof. vm_compute. reflexivity. Qed.

(** On whole numbers below 2^53 the digits of the number are what the
    search for the fewest digits gives. *)
Example double_toString_whole_samples :
  List.map (fun z => Double.anyText (Double.of_Z z))
    [0; 7; 59; 60; 100; 3600; 1125899906842627; 9007199254740991;
     4503599627370496; 1000000000000000; -42]%Z
  = List.map (fun z => Double.toString (Double.of_Z z))
      [0; 7; 59; 60; 100; 3600; 1125899906842627; 9007199254740991;
       4503599627370496; 1000000000000000; -42]%Z.
Proof. vm_compute. reflexivity. Qed.

(** ** [formatTime] *)

Lemma whole_seconds_bound (s : N) :
  (s < 2 ^ 53)%N -> (0 <= Z.of_N s < 2 ^ 53)%Z.
Proof.
  change (2 ^ 53)%N with 9007199254740992%N.
  change (2 ^ 53)%Z with 9007199254740992%Z. lia.
Qed.

(** [formatTime] on a whole number of seconds below 2^53. *)
Lemma formatTime_whole (seconds : float) (s : N) :
  Double.integerValue seconds = Some (Z.of_N s) ->
  (s < 2 ^ 53)%N ->
  MediaUtils.formatTime seconds
  = Rendering.leftPad 2 (Rendering.decimal (s / 60))
    ++ ":" ++ Rendering.leftPad 2 (Rendering.decimal (s mod 60)).
Proof.
  intros Hint Hs. apply whole_seconds_bound in Hs.
  pose proof (floor_div60 seconds _ Hint Hs) as Hmins.
  pose proof (rem60 seconds _ Hint Hs) as Hsecs.
  change 60%Z with (Z.of_N 60) in Hmins, Hsecs.
  rewrite <- N2Z.inj_div in Hmins. rewrite <- N2Z.inj_mod in Hsecs.
  change (2 ^ 53)%Z with 9007199254740992%Z in Hs.
  assert (Hdiv : (0 <= Z.of_N (s / 60) < 2 ^ 53)%Z).
  { change (2 ^ 53)%Z with 9007199254740992%Z.
    assert (Hle : (s / 60 <= s)%N)
      by (apply N.Div0.div_le_upper_bound; lia).
    apply N2Z.inj_le in Hle.
    pose proof (N2Z.is_nonneg (s / 60)) as Hpos.
    remember (Z.of_N (s / 60)) as k eqn:Hk. clear Hk Hmins. lia. }
  assert (Hmod : (0 <= Z.of_N (s mod 60) < 2 ^ 53)%Z).
  { change (2 ^ 53)%Z with 9007199254740992%Z.
    assert (Hlt : (s mod 60 < 60)%N) by (apply N.mod_lt; discriminate).
    apply N2Z.inj_lt in Hlt. change (Z.of_N 60) with 60%Z in Hlt.
    pose proof (N2Z.is_nonneg (s mod 60)) as Hpos.
    remember (Z.of_N (s mod 60)) as k eqn:Hk. clear Hk Hsecs. lia. }
  unfold MediaUtils.formatTime. cbv zeta.
  rewrite (toString_whole _ _ Hmins Hdiv).
  rewrite (toString_whole _ _ Hsecs Hmod).
  rewrite !padStart_zero.
  unfold Double.digits. rewrite !N2Z.id. reflexivity.
Qed.

Example formatTime_one_hour : MediaUtils.formatTime 3600 = "60:00".
Proof. vm_compute. reflexivity. Qed.

Example formatTime_hundred_minutes : MediaUtils.formatTime 6059 = "100:59".
Proof. vm_compute. reflexivity. Qed.

(** C10, the claim as written fails for large numbers of seconds: the
    quotient [seconds / 60] is rounded to a double before [Math.floor], so
    for 67553994410557616 seconds, a whole number that is a double, the
    minutes shown are one more than the whole part of the quotient; and
    from 10^21 minutes on the minutes are not written with their own
    digits. *)
Lemma formatTime_large_seconds :
  Double.integerValue (Double.of_N 67553994410557616)
  = Some 67553994410557616%Z
  /\ MediaUtils.formatTime (Double.of_N 67553994410557616)
     = "1125899906842627:56"
  /\ (67553994410557616 / 60 = 1125899906842626)%N
  /\ MediaUtils.formatTime (Double.of_N 67553994410557616)
     <> Rendering.leftPad 2 (Rendering.decimal (67553994410557616 / 60))
        ++ ":"
        ++ Rendering.leftPad 2 (Rendering.decimal (67553994410557616 mod 60))
  /\ Double.integerValue (Double.of_N (6 * 10 ^ 22))
     = Some (6 * 10 ^ 22)%Z
  /\ MediaUtils.formatTime (Double.of_N (6 * 10 ^ 22)) = "1e+21:00".
Proof.
  split; [vm_compute; reflexivity |].
  split; [vm_compute; reflexivity |].
  split; [vm_compute; reflexivity |].
  split; [vm_compute; discriminate |].
  split; vm_compute; reflexivity.
Qed.

(** C10, amended.  For every whole number of seconds [s] below 2^53,
    which is a double, [formatTime] is the decimal rendering of the whole
    minutes [s / 60], left-padded with '0' to at least two characters, a
    colon, and the decimal rendering of the remaining seconds [s mod 60],
    left-padded with '0' to exactly two characters; both parts read back
    as the numbers they render. *)
Theorem formatTime_minutes_seconds (seconds : float) (s : N) :
  Double.integerValue seconds = Some (Z.of_N s) ->
  (s < 2 ^ 53)%N ->
  let mm := Rendering.leftPad 2 (Rendering.decimal (s / 60)) in
  let ss := Rendering.leftPad 2 (Rendering.decimal (s mod 60)) in
  MediaUtils.formatTime seconds = mm ++ ":" ++ ss
  /\ (2 <= String.length mm)%nat
  /\ String.length ss = 2%nat
  /\ Rendering.readDecimal mm = Some (s / 60)%N
  /\ Rendering.readDecimal ss = Some (s mod 60)%N
  /\ Double.integerValue (Double.of_N s) = Some (Z.of_N s)
  /\ MediaUtils.formatTime 65 = "01:05"
  /\ MediaUtils.formatTime 0 = "00:00".
Proof.
  intros Hint Hs. cbv zeta.
  split; [exact (formatTime_whole seconds s Hint Hs) |].
  split; [rewrite length_leftPad; lia |].
  split.
  { apply two_digits.
    assert (s mod 60 < 60)%N by (apply N.mod_lt; discriminate). lia. }
  split; [apply readDecimal_leftPad |].
  split; [apply readDecimal_leftPad |].
  split; [apply integerValue_of_Z, whole_seconds_bound, Hs |].
  split; vm_compute; reflexivity.
Qed.

Lemma formatTime_minutes_seconds_witness :
  Double.integerValue 3725 = Some (Z.of_N 3725)
  /\ (3725 < 2 ^ 53)%N
  /\ MediaUtils.formatTime 3725 = "62:05".
Proof.
  assert (H1 : Double.integerValue 3725 = Some (Z.of_N 3725))
    by (vm_compute; reflexivity).
  assert (H2 : (3725 < 2 ^ 53)%N) by (vm_compute; reflexivity).
  split; [exact H1 | split; [exact H2 |]].
  exact (proj1 (formatTime_minutes_seconds 3725 3725 H1 H2)).
Defined.

(** ** [handleMediaError] *)

Lemma handleMediaError_DOMException (name message context : string) :
  ErrorHandler.nonEmptyString
    (ErrorHandler.handleMediaError
       (ErrorHandler.DOMException name message) context).
Proof.
  unfold ErrorHandler.handleMediaError.
  repeat match goal with
         | |- context [if ?b then _ else _] => destruct b
         end;
    eexists; (split; [reflexivity | discriminate]).
Qed.

(** C6, the claim as written fails in three places.  A plain string is
    returned as it is, so the empty string comes back empty.  The
    [message] of an object is read, and a getter that throws makes the
    call throw.  And a truthy [message] is returned whatever it is: a
    number comes back as a number, not as a string. *)
Lemma handleMediaError_empty_string :
  ErrorHandler.handleMediaError (ErrorHandler.Plain (JS.Str ""))
    ErrorHandler.defaultContext = JS.Normal (JS.Str "")
  /\ ~ ErrorHandler.nonEmptyString
         (ErrorHandler.handleMediaError (ErrorHandler.Plain (JS.Str ""))
            ErrorHandler.defaultContext)
  /\ (forall e second,
         ErrorHandler.handleMediaError
           (ErrorHandler.Object (JS.Throw e) second)
           ErrorHandler.defaultContext = JS.Throw e)
  /\ JS.returned
       (ErrorHandler.handleMediaError
          (ErrorHandler.Object (JS.Throw (JS.ErrorObject "no message"))
             (JS.Throw (JS.ErrorObject "no message")))
          ErrorHandler.defaultContext) = false
  /\ ErrorHandler.handleMediaError
       (ErrorHandler.Object (JS.Normal (JS.Number 42))
          (JS.Normal (JS.Number 42)))
       ErrorHandler.defaultContext = JS.Normal (JS.Number 42).
Proof.
  split; [reflexivity |].
  split.
  { intros [s [Hs Hne]]. simpl in Hs. injection Hs as <-. now apply Hne. }
  split; [reflexivity |]. split; reflexivity.
Qed.

(** C6, amended.  What [handleMediaError] does on every input.  For a
    [DOMException] it returns a non-empty string, and exactly the
    permission-denied text when the name is 'NotAllowedError' or
    'PermissionDeniedError'.  A string is returned as it is, the empty
    string included.  Any other value without a [message] property gives
    the non-empty text 'Unknown error during <context>. Please try
    again.'.  For an object, the call throws what the first reading of
    [message] throws; when that reading gives a falsy value the unknown-
    error text is returned; when it gives a truthy value the call ends as
    the second reading does, returning what it gives or throwing what it
    throws.  So the call returns a non-empty string exactly when the input
    is not the empty string and, for an object whose [message] is first
    read truthy, the second reading gives a non-empty string. *)
Theorem handleMediaError_user_facing (error : ErrorHandler.ErrorValue)
    (context : string) :
  let unknown :=
    JS.Str ("Unknown error during " ++ context ++ ". Please try again.") in
  match error with
  | ErrorHandler.DOMException name message =>
      ErrorHandler.nonEmptyString
        (ErrorHandler.handleMediaError error context)
  | ErrorHandler.Plain (JS.Str s) =>
      ErrorHandler.handleMediaError error context = JS.Normal (JS.Str s)
      /\ (ErrorHandler.nonEmptyString
            (ErrorHandler.handleMediaError error context) <-> s <> "")
  | ErrorHandler.Plain _ =>
      ErrorHandler.handleMediaError error context = JS.Normal unknown
      /\ ErrorHandler.nonEmptyString
           (ErrorHandler.handleMediaError error context)
  | ErrorHandler.Object (JS.Throw e) _ =>
      ErrorHandler.handleMediaError error context = JS.Throw e
  | ErrorHandler.Object (JS.Normal message) second =>
      if JS.truthy message
      then ErrorHandler.handleMediaError error context = second
           /\ (ErrorHandler.nonEmptyString
                 (ErrorHandler.handleMediaError error context)
               <-> exists s, second = JS.Normal (JS.Str s) /\ s <> "")
      else ErrorHandler.handleMediaError error context = JS.Normal unknown
           /\ ErrorHandler.nonEmptyString
                (ErrorHandler.handleMediaError error context)
  end
  /\ (forall message,
         ErrorHandler.handleMediaError
           (ErrorHandler.DOMException "NotAllowedError" message) context
         = JS.Normal (JS.Str ErrorHandler.permissionDenied)
         /\ ErrorHandler.handleMediaError
              (ErrorHandler.DOMException "PermissionDeniedError" message)
              context
            = JS.Normal (JS.Str ErrorHandler.permissionDenied))
  /\ ErrorHandler.permissionDenied
     = "Permission denied. Please allow access to your camera and microphone.".
Proof.
  cbv zeta.
  assert (Hunknown :
            ErrorHandler.nonEmptyString
              (JS.Normal
                 (JS.Str ("Unknown error during " ++ context
                            ++ ". Please try again."))))
    by (eexists; split; [reflexivity | discriminate]).
  split; [| split; [intros message; split; reflexivity | reflexivity]].
  destruct error as [name message | v | first second].
  - apply handleMediaError_DOMException.
  - destruct v as [ | | b | z | s | r];
      try (split; [reflexivity | exact Hunknown]).
    split; [reflexivity |]. simpl. split.
    + intros [s' [[= <-] Hne]]. exact Hne.
    + intros Hne. exists s. split; [reflexivity | exact Hne].
  - destruct first as [message | e]; [| reflexivity].
    simpl. destruct (JS.truthy message).
    + split; [reflexivity | tauto].
    + split; [reflexivity | exact Hunknown].
Qed.

(** ** [captureAudioForRecording] *)

Lemma filter_map_same {A : Type} (p : A -> bool) (f : A -> A) (l : list A) :
  (forall x, p (f x) = p x) ->
  List.filter p (List.map f l) = List.map f (List.filter p l).
Proof.
  intros Hp. induction l as [|x l IH]; simpl; [reflexivity |].
  rewrite Hp. destruct (p x); simpl; congruence.
Qed.

Lemma enable_keeps_kind (p : MediaUtils.MediaStreamTrack -> bool)
    (t : MediaUtils.MediaStreamTrack) :
  p = MediaUtils.isAudio \/ p = MediaUtils.isVideo ->
  p (if MediaUtils.isAudio t
     then {| MediaUtils.kind := MediaUtils.kind t;
             MediaUtils.label := MediaUtils.label t;
             MediaUtils.enabled := true |}
     else t) = p t.
Proof.
  intros [-> | ->]; destruct t as [[|] l e]; reflexivity.
Qed.

Lemma getAudioTracks_enable (s : MediaUtils.MediaStream) :
  MediaUtils.getAudioTracks s <> [] ->
  MediaUtils.getAudioTracks (MediaUtils.enableAudioTracks s) <> [].
Proof.
  unfold MediaUtils.getAudioTracks, MediaUtils.enableAudioTracks. simpl.
  rewrite filter_map_same by (intros t; apply enable_keeps_kind; auto).
  destruct (List.filter MediaUtils.isAudio (MediaUtils.tracks s));
    [auto | discriminate].
Qed.

Lemma getVideoTracks_enable (s : MediaUtils.MediaStream) :
  MediaUtils.getVideoTracks s = [] ->
  MediaUtils.getVideoTracks (MediaUtils.enableAudioTracks s) = [].
Proof.
  unfold MediaUtils.getVideoTracks, MediaUtils.enableAudioTracks. simpl.
  rewrite filter_map_same by (intros t; apply enable_keeps_kind; auto).
  now intros ->.
Qed.

(** C2, the claim as written fails when both [getUserMedia] calls fail: the
    function then returns a new, empty [MediaStream], which has no audio
    track. *)
Lemma captureAudioForRecording_total_failure :
  let denied := JS.Throw (JS.ErrorObject "NotAllowedError") in
  let w := {| MediaUtils._directAudioStream := None;
              MediaUtils._audioTracksAdded := Some 0%N |} in
  MediaUtils.captureAudioForRecording denied denied w
  = (JS.Normal MediaUtils.emptyMediaStream, w)
  /\ MediaUtils.getAudioTracks MediaUtils.emptyMediaStream = []
  /\ ~ (exists stream,
           fst (MediaUtils.captureAudioForRecording denied denied w)
           = JS.Normal stream
           /\ MediaUtils.getAudioTracks stream <> []).
Proof.
  cbv zeta. split; [reflexivity | split; [reflexivity |]].
  intros [stream [Hs Hne]]. simpl in Hs. injection Hs as <-.
  now apply Hne.
Qed.

(** C2, amended.  When the platform gives audio-only streams to
    audio-only requests, [captureAudioForRecording] never throws and the
    stream it returns has no video track; it has an audio track when one of
    the two [getUserMedia] calls succeeded, and it is a new empty stream,
    with the globals untouched, when both failed. *)
Theorem captureAudioForRecording_outcomes
    (highQuality basic : JS.Completion MediaUtils.MediaStream)
    (w : MediaUtils.Window) :
  (forall s, highQuality = JS.Normal s -> MediaUtils.audioOnly s) ->
  (forall s, basic = JS.Normal s -> MediaUtils.audioOnly s) ->
  exists stream w',
    MediaUtils.captureAudioForRecording highQuality basic w
    = (JS.Normal stream, w')
    /\ MediaUtils.getVideoTracks stream = []
    /\ (if JS.returned highQuality || JS.returned basic
        then MediaUtils.getAudioTracks stream <> []
             /\ MediaUtils._directAudioStream w' = Some stream
             /\ MediaUtils._audioTracksAdded w'
                = Some (MediaUtils.getAudioTracksAdded w + 1)%N
        else stream = MediaUtils.emptyMediaStream
             /\ MediaUtils.getAudioTracks stream = []
             /\ w' = w).
Proof.
  intros Hhq Hbasic.
  destruct highQuality as [hq | e1].
  - destruct (Hhq hq eq_refl) as [Ha Hv].
    eexists _, _. split; [reflexivity |]. split.
    + now apply getVideoTracks_enable.
    + simpl. split; [now apply getAudioTracks_enable | split; reflexivity].
  - destruct basic as [b | e2].
    + destruct (Hbasic b eq_refl) as [Ha Hv].
      eexists _, _. split; [reflexivity |]. split; [exact Hv |].
      simpl. split; [exact Ha | split; reflexivity].
    + eexists _, _. split; [reflexivity |]. split; [reflexivity |].
      simpl. repeat split.
Qed.

Lemma captureAudioForRecording_outcomes_witness :
  let mic := {| MediaUtils.tracks :=
                  [ {| MediaUtils.kind := MediaUtils.audio;
                       MediaUtils.label := "Built-in microphone";
                       MediaUtils.enabled := false |} ] |} in
  let w := {| MediaUtils._directAudioStream := None;
              MediaUtils._audioTracksAdded := None |} in
  exists stream w',
    MediaUtils.captureAudioForRecording (JS.Normal mic)
      (JS.Throw (JS.ErrorObject "unused")) w = (JS.Normal stream, w')
    /\ MediaUtils.getVideoTracks stream = []
    /\ MediaUtils.getAudioTracks stream <> [].
Proof.
  cbv zeta.
  destruct (captureAudioForRecording_outcomes
              (JS.Normal {| MediaUtils.tracks :=
                  [ {| MediaUtils.kind := MediaUtils.audio;
                       MediaUtils.label := "Built-in microphone";
                       MediaUtils.enabled := false |} ] |})
              (JS.Throw (JS.ErrorObject "unused"))
              {| MediaUtils._directAudioStream := None;
                 MediaUtils._audioTracksAdded := None |})
    as (stream & w' & Heq & Hv & Ha).
  - intros s [= <-]. split; [discriminate | reflexivity].
  - intros s [=].
  - exists stream, w'. split; [exact Heq | split; [exact Hv | exact (proj1 Ha)]].
Defined.

(** ** The teleprompter *)




Lemma teleprompter_invariant_initial :
  Teleprompter.invariant Teleprompter.initial.
Proof. reflexivity. Qed.

Lemma teleprompter_invariant_step (st : Teleprompter.State)
    (e : Teleprompter.Event) :
  Teleprompter.invariant st ->
  Teleprompter.invariant (Teleprompter.step st e).
Proof.
  unfold Teleprompter.invariant. intros Hpend.
  destruct st as [sp scrolling pos pend]; simpl in *.
  destruct e as [l | | | v]; simpl.
  - destruct pend as [[cs csp]|]; simpl in *; [| assumption].
    destruct Hpend as [-> ->]. unfold Teleprompter.animate. simpl.
    destruct (Teleprompter.maxScroll l) as [m|]; simpl; [| auto].
    destruct (m <=? pos + csp * 0.1)%float; simpl; auto.
  - unfold Teleprompter.toggleScrolling, Teleprompter.setIsScrolling. simpl.
    destruct scrolling; simpl; auto.
  - unfold Teleprompter.resetScroll, Teleprompter.setIsScrolling. simpl.
    destruct scrolling; simpl; auto.
  - assumption.
Qed.

Lemma teleprompter_invariant_run (es : list Teleprompter.Event) :
  Teleprompter.invariant (Teleprompter.run es).
Proof.
  unfold Teleprompter.run.
  generalize Teleprompter.initial teleprompter_invariant_initial.
  induction es as [|e es IH]; intros st Hst; simpl.
  - exact Hst.
  - apply IH, teleprompter_invariant_step, Hst.
Qed.



(** ** The script-generation form *)

Lemma whitespaceOnly_trimStart (s : string) :
  ScriptForm.whitespaceOnly (JS.trimStart s) <-> ScriptForm.whitespaceOnly s.
Proof.
  induction s as [|c r IH]; simpl; [tauto |].
  destruct (JS.isWhiteSpace c) eqn:E; simpl.
  - tauto.
  - rewrite E. tauto.
Qed.

Lemma trimEnd_empty (s : string) :
  JS.trimEnd s = "" <-> ScriptForm.whitespaceOnly s.
Proof.
  induction s as [|c r IH]; simpl; [tauto |].
  destruct (JS.trimEnd r) as [|x t] eqn:E.
  - destruct (JS.isWhiteSpace c); split; intros H.
    + split; [reflexivity | now apply IH].
    + reflexivity.
    + discriminate H.
    + destruct H as [H _]. discriminate H.
  - split; intros H; [discriminate H |].
    destruct H as [_ H]. apply IH in H. discriminate H.
Qed.

(** [!s.trim()] holds exactly for the strings made of white space. *)
Lemma blank_whitespaceOnly (s : string) :
  ScriptForm.blank s = true <-> ScriptForm.whitespaceOnly s.
Proof.
  unfold ScriptForm.blank, JS.trim.
  rewrite String.eqb_eq, trimEnd_empty. apply whitespaceOnly_trimStart.
Qed.

(** Typing into the form keeps exactly the three fields. *)
Lemma formReachable_fields (fd : gmap string string) :
  ScriptForm.formReachable fd ->
  dom fd = ({["topicTitle"; "seoKeyword"; "creatorInfo"]} : gset string).
Proof.
  induction 1 as [|i value st _ IH].
  - unfold ScriptForm.initialFormData. rewrite !dom_insert_L, dom_empty_L.
    set_solver.
  - simpl. rewrite dom_insert_L, IH. destruct i; simpl; set_solver.
Qed.

Lemma formReachable_lookup (fd : gmap string string) (k : string) :
  ScriptForm.formReachable fd ->
  k = "topicTitle" \/ k = "seoKeyword" \/ k = "creatorInfo" ->
  exists v, fd !! k = Some v.
Proof.
  intros Hfd Hk. apply formReachable_fields in Hfd.
  assert (Hin : k ∈ dom fd).
  { rewrite Hfd. destruct Hk as [-> | [-> | ->]]; set_solver. }
  apply elem_of_dom in Hin. destruct Hin as [v Hv]. eauto.
Qed.

(** C9.  In every state of the form, [handleSubmit] sends no request when
    the topic title or the SEO keyword is empty or made of white space
    only: it returns with no request sent and no timer armed, the [error]
    cell of the state it leaves reads 'Please fill in both the topic title
    and SEO keyword', and the generated content, the form data and the
    loading flag are as they were; otherwise it sends the request.  What
    [creatorInfo] holds plays no part. *)
Theorem handleSubmit_blank_fields (st : ScriptForm.State) (slow : bool)
    (outcome : ScriptForm.FetchOutcome) :
  ScriptForm.formReachable (ScriptForm.formData st) ->
  exists topicTitle seoKeyword,
    ScriptForm.formData st !! "topicTitle" = Some topicTitle
    /\ ScriptForm.formData st !! "seoKeyword" = Some seoKeyword
    /\ (ScriptForm.blank topicTitle = true
        <-> ScriptForm.whitespaceOnly topicTitle)
    /\ (ScriptForm.blank seoKeyword = true
        <-> ScriptForm.whitespaceOnly seoKeyword)
    /\ (if ScriptForm.blank topicTitle || ScriptForm.blank seoKeyword
        then ScriptForm.handleSubmit st slow outcome
             = JS.Normal
                 {| ScriptForm.state :=
                      ScriptForm.setError ScriptForm.fillInBoth st;
                    ScriptForm.requests := [];
                    ScriptForm.timerArmed := false |}
             /\ ScriptForm.content
                  (ScriptForm.setError ScriptForm.fillInBoth st)
                = ScriptForm.content st
             /\ ScriptForm.fillInBoth
                = "Please fill in both the topic title and SEO keyword"
             /\ (exists res,
                    ScriptForm.handleSubmit st slow outcome = JS.Normal res
                    /\ ScriptForm.requests res = []
                    /\ ScriptForm.timerArmed res = false
                    /\ ScriptForm.error (ScriptForm.state res)
                       = "Please fill in both the topic title and SEO keyword"
                    /\ ScriptForm.content (ScriptForm.state res)
                       = ScriptForm.content st
                    /\ ScriptForm.formData (ScriptForm.state res)
                       = ScriptForm.formData st
                    /\ ScriptForm.isLoading (ScriptForm.state res)
                       = ScriptForm.isLoading st)
        else ScriptForm.sent (ScriptForm.handleSubmit st slow outcome)
             = [ScriptForm.generateRequest st])
    /\ (forall creatorInfo,
           length (ScriptForm.sent
                     (ScriptForm.handleSubmit
                        (ScriptForm.handleInputChange "creatorInfo"
                           creatorInfo st) slow outcome))
           = length (ScriptForm.sent
                       (ScriptForm.handleSubmit st slow outcome))).
Proof.
  intros Hfd.
  destruct (formReachable_lookup _ "topicTitle" Hfd) as [t Ht]; [auto |].
  destruct (formReachable_lookup _ "seoKeyword" Hfd) as [k Hk]; [auto |].
  exists t, k.
  split; [exact Ht |]. split; [exact Hk |].
  split; [apply blank_whitespaceOnly |].
  split; [apply blank_whitespaceOnly |].
  split.
  - unfold ScriptForm.handleSubmit. rewrite Ht, Hk.
    destruct (ScriptForm.blank t); simpl;
      [repeat split; eexists; repeat split |].
    destruct (ScriptForm.blank k); simpl;
      [repeat split; eexists; repeat split |].
    destruct slow; reflexivity.
  - intros c. unfold ScriptForm.handleSubmit. simpl.
    rewrite !lookup_insert_ne by discriminate. rewrite Ht, Hk.
    destruct (ScriptForm.blank t); simpl; [reflexivity |].
    destruct (ScriptForm.blank k); simpl; reflexivity.
Qed.

Lemma handleSubmit_blank_fields_witness :
  ScriptForm.formReachable (ScriptForm.formData ScriptForm.initial)
  /\ exists topicTitle seoKeyword,
       ScriptForm.formData ScriptForm.initial !! "topicTitle"
       = Some topicTitle
       /\ ScriptForm.formData ScriptForm.initial !! "seoKeyword"
          = Some seoKeyword.
Proof.
  assert (H : ScriptForm.formReachable
                (ScriptForm.formData ScriptForm.initial))
    by exact ScriptForm.form_initial.
  split; [exact H |].
  destruct (handleSubmit_blank_fields ScriptForm.initial false
              (ScriptForm.FetchRejected (JS.ErrorObject "Failed to fetch")) H)
    as (t & k & Ht & Hk & _).
  exists t, k. split; [exact Ht | exact Hk].
Defined.



(** ** Download names *)

Lemma substring_prefix (a b : string) :
  String.substring 0 (String.length a) (a ++ b) = a.
Proof.
  induction a as [|c a IH]; simpl.
  - destruct b; reflexivity.
  - now rewrite IH.
Qed.

Lemma replaceAll_append (a b : string) (c : ascii) (by_ : string) :
  JS.replaceAll (a ++ b) c by_ = JS.replaceAll a c by_ ++ JS.replaceAll b c by_.
Proof.
  induction a as [|x a IH]; simpl; [reflexivity |].
  now rewrite IH, append_assoc.
Qed.

Lemma plainDigits_spec (width : nat) (n : N) :
  Download.plainDigits width n = true ->
  Download.plain width (Download.digits width n).
Proof.
  unfold Download.plainDigits, Download.plain. intros H. apply andb_prop in H as [H1 H2].
  split; [now apply Nat.eqb_eq | now apply String.eqb_eq].
Qed.

Lemma plainDigits_2 (n : N) : (n < 100)%N -> Download.plainDigits 2 n = true.
Proof.
  apply (below_forallb (Download.plainDigits 2) 100%N). vm_compute. reflexivity.
Qed.

Lemma plainDigits_4 (n : N) : (n < 10000)%N -> Download.plainDigits 4 n = true.
Proof.
  apply (below_forallb (Download.plainDigits 4) 10000%N). vm_compute. reflexivity.
Qed.

Lemma isoYear_four_digits (y : Z) :
  (0 <= y <= 9999)%Z -> Download.isoYear y = Download.digits 4 (Z.to_N y).
Proof.
  intros [H0 H1]. unfold Download.isoYear.
  apply Z.leb_le in H0, H1. now rewrite H0, H1.
Qed.

Section DownloadStamp.

Variable now : Download.Date.
Hypothesis valid : Download.validDate now.
Hypothesis fourDigit : Download.fourDigitYear now.

Lemma download_parts :
  Download.plain 4 (Download.digits 4 (Z.to_N (Download.year now)))
  /\ Download.plain 2 (Download.digits 2 (Download.month now))
  /\ Download.plain 2 (Download.digits 2 (Download.day now))
  /\ Download.plain 2 (Download.digits 2 (Download.hours now))
  /\ Download.plain 2 (Download.digits 2 (Download.minutes now))
  /\ Download.plain 2 (Download.digits 2 (Download.seconds now)).
Proof.
  destruct valid as (Hm & Hd & Hh & Hmi & Hs & _).
  destruct fourDigit as [Hy0 Hy1].
  split; [apply plainDigits_spec, plainDigits_4; lia |].
  repeat split; apply plainDigits_spec, plainDigits_2; lia.
Qed.

Lemma isoSeconds_parts :
  Download.isoSeconds now
  = Download.digits 4 (Z.to_N (Download.year now)) ++ "-"
      ++ Download.digits 2 (Download.month now) ++ "-"
      ++ Download.digits 2 (Download.day now) ++ "T"
      ++ Download.digits 2 (Download.hours now) ++ ":"
      ++ Download.digits 2 (Download.minutes now) ++ ":"
      ++ Download.digits 2 (Download.seconds now).
Proof.
  unfold Download.isoSeconds. now rewrite isoYear_four_digits.
Qed.

Lemma length_isoSeconds : String.length (Download.isoSeconds now) = 19.
Proof.
  destruct download_parts as ([HY _] & [HM _] & [HD _] & [Hh _] & [Hmi _]
                              & [Hs _]).
  rewrite isoSeconds_parts, !length_append, HY, HM, HD, Hh, Hmi, Hs.
  reflexivity.
Qed.

Lemma length_fileStamp : String.length (Download.fileStamp now) = 19.
Proof.
  destruct download_parts as ([HY _] & [HM _] & [HD _] & [Hh _] & [Hmi _]
                              & [Hs _]).
  unfold Download.fileStamp.
  rewrite !length_append, HY, HM, HD, Hh, Hmi, Hs. reflexivity.
Qed.

Lemma stampedName_parts :
  Download.stampedName now = "recording-" ++ Download.fileStamp now ++ ".webm".
Proof.
  destruct download_parts as ([_ HY] & [_ HM] & [_ HD] & [_ Hh] & [_ Hmi]
                              & [_ Hs]).
  unfold Download.stampedName, JS.slice, Download.toISOString.
  replace (19 - 0)%nat with (String.length (Download.isoSeconds now))
    by (rewrite length_isoSeconds; reflexivity).
  rewrite substring_prefix, isoSeconds_parts, !replaceAll_append.
  rewrite HY, HM, HD, Hh, Hmi, Hs. reflexivity.
Qed.

End DownloadStamp.

(** C5, the claim as written fails for the two download handlers it
    cites: on 5 March 2024 at 14:07:09.042 UTC they name the file
    'recording-2024-03-05T14-07-09.webm', with a hyphen after 'recording',
    the time cut at the seconds and its colons replaced, and not
    'recording_2024-03-05T14:07:09.042Z.webm'. *)
Lemma download_name_march5 :
  Download.specifiedName Download.march5
  = "recording_2024-03-05T14:07:09.042Z.webm"
  /\ Download.downloadVideo true Download.march5
     = Some "recording-2024-03-05T14-07-09.webm"
  /\ Download.handleDownload (Some "blob:recording") Download.march5
     = Some "recording-2024-03-05T14-07-09.webm"
  /\ Download.downloadVideo true Download.march5
     <> Some (Download.specifiedName Download.march5)
  /\ Download.handleDownload (Some "blob:recording") Download.march5
     <> Some (Download.specifiedName Download.march5).
Proof.
  repeat split; try reflexivity; vm_compute; discriminate.
Qed.

(** C5, amended.  At a valid date with a four-digit year, every download
    that takes place suggests a name made of 'recording', a separator, a
    time stamp and '.webm': the download utility of the in-component
    recorders gives 'recording_' and the full ISO-8601 time stamp; the
    player component gives 'recording-' and the full time stamp; the
    player of the hook-based recorder and that recorder's own download give
    'recording-' and the stamp YYYY-MM-DDTHH-mm-ss (the ISO-8601 time cut
    after the seconds, colons replaced by hyphens); the link under the
    inline player of the two composite recorders has the fixed name
    'screen_recording.webm'.  No link is made without a recording. *)
Theorem download_names (now : Download.Date) (videoUrl : option string)
    (videoBlob : bool) (recordedChunks : nat) :
  Download.validDate now ->
  Download.fourDigitYear now ->
  String.length (Download.fileStamp now) = 19
  /\ Download.downloadVideoUtil videoUrl recordedChunks now
     = (if Download.present videoUrl && negb (recordedChunks =? 0)%nat
        then Some ("recording_" ++ Download.toISOString now ++ ".webm")
        else None)
  /\ Download.handleDownload_component videoUrl videoBlob now
     = (if Download.present videoUrl && videoBlob
        then Some ("recording-" ++ Download.toISOString now ++ ".webm")
        else None)
  /\ Download.handleDownload videoUrl now
     = (if Download.present videoUrl
        then Some ("recording-" ++ Download.fileStamp now ++ ".webm")
        else None)
  /\ Download.downloadVideo videoBlob now
     = (if videoBlob
        then Some ("recording-" ++ Download.fileStamp now ++ ".webm")
        else None)
  /\ Download.downloadLink videoUrl
     = (if Download.present videoUrl then Some "screen_recording.webm"
        else None).
Proof.
  intros Hvalid Hyear.
  pose proof (stampedName_parts now Hvalid Hyear) as Hname.
  split; [exact (length_fileStamp now Hvalid Hyear) |].
  unfold Download.downloadVideoUtil, Download.handleDownload_component,
    Download.handleDownload, Download.downloadVideo, Download.downloadLink.
  rewrite Hname.
  destruct (Download.present videoUrl), videoBlob, (recordedChunks =? 0)%nat;
    repeat split.
Qed.

Lemma download_names_witness :
  Download.validDate Download.march5
  /\ Download.fourDigitYear Download.march5
  /\ Download.downloadVideo true Download.march5
     = Some ("recording-" ++ Download.fileStamp Download.march5 ++ ".webm").
Proof.
  assert (H1 : Download.validDate Download.march5)
    by (unfold Download.validDate; simpl; lia).
  assert (H2 : Download.fourDigitYear Download.march5)
    by (unfold Download.fourDigitYear; simpl; lia).
  split; [exact H1 | split; [exact H2 |]].
  exact (proj1 (proj2 (proj2 (proj2 (proj2
           (download_names Download.march5 None true 0 H1 H2)))))).
Defined.

(** ** The recording state *)

(** A property of the initial state that every event keeps holds after
    every sequence of events. *)
Lemma run_invariant (m : Recorder.Machine) (P : Recorder.m_state m -> Prop) :
  P (Recorder.m_init m) ->
  (forall st e, P st -> P (Recorder.m_step m st e)) ->
  forall es, P (Recorder.run m es).
Proof.
  intros Hinit Hstep es. unfold Recorder.run.
  generalize (Recorder.m_init m) Hinit.
  induction es as [|e es IH]; intros st Hst; simpl; [exact Hst |].
  apply IH, Hstep, Hst.
Qed.

Lemma threeValued_idle : Recorder.threeValued Recorder.idle.
Proof. left. reflexivity. Qed.

Lemma threeValued_recording : Recorder.threeValued Recorder.recording.
Proof. right. left. reflexivity. Qed.

Lemma threeValued_paused : Recorder.threeValued Recorder.paused.
Proof. right. right. reflexivity. Qed.

Create HintDb recorder.

#[local] Hint Resolve threeValued_idle threeValued_recording
  threeValued_paused : recorder.

(** Case analysis on the cells and the flags of a handler. *)
Ltac handler_cases :=
  repeat match goal with
         | |- context [if ?b then _ else _] => destruct b; simpl
         | |- context [match ?o with
                       | Recorder.StartThrows _ => _
                       | Recorder.StartGivesUp => _
                       | Recorder.Started => _
                       end] => destruct o; simpl
         end;
  auto with recorder.

Lemma pauseRecording_threeValued (throws : bool) (c : Recorder.Cells) :
  Recorder.threeValued (Recorder.recordingState c) ->
  Recorder.threeValued
    (Recorder.recordingState (Recorder.pauseRecording throws c)).
Proof. intros H. unfold Recorder.pauseRecording. handler_cases. Qed.

Lemma canvas_threeValued (es : list Recorder.Event) :
  Recorder.threeValued
    (Recorder.m_tracked Recorder.Canvas.machine
       (Recorder.run Recorder.Canvas.machine es)).
Proof.
  apply (run_invariant Recorder.Canvas.machine
           (fun c => Recorder.threeValued (Recorder.recordingState c)));
    [apply threeValued_idle |].
  intros c e H. destruct e; simpl;
    try apply pauseRecording_threeValued; try assumption;
    unfold Recorder.Canvas.startRecording, Recorder.Canvas.stopRecording;
    handler_cases.
Qed.

Lemma camera_threeValued (es : list Recorder.Event) :
  Recorder.threeValued
    (Recorder.m_tracked Recorder.Camera.machine
       (Recorder.run Recorder.Camera.machine es)).
Proof.
  apply (run_invariant Recorder.Camera.machine
           (fun c => Recorder.threeValued (Recorder.recordingState c)));
    [apply threeValued_idle |].
  intros c e H. destruct e; simpl;
    try apply pauseRecording_threeValued; try assumption;
    unfold Recorder.Camera.startRecording, Recorder.Camera.stopRecording;
    handler_cases.
Qed.

Lemma composite_threeValued (es : list Recorder.Event) :
  Recorder.threeValued
    (Recorder.m_tracked Recorder.Composite.machine
       (Recorder.run Recorder.Composite.machine es)).
Proof.
  apply (run_invariant Recorder.Composite.machine
           (fun c => Recorder.threeValued (Recorder.recordingState c)));
    [apply threeValued_idle |].
  intros c e H. destruct e; simpl;
    try apply pauseRecording_threeValued; try assumption;
    unfold Recorder.Composite.startRecording,
      Recorder.Composite.stopRecording, Recorder.Composite.onstop;
    handler_cases.
Qed.

Lemma split_threeValued (es : list Recorder.Event) :
  Recorder.threeValued
    (Recorder.m_tracked Recorder.Split.machine
       (Recorder.run Recorder.Split.machine es)).
Proof.
  apply (run_invariant Recorder.Split.machine
           (fun c => Recorder.threeValued (Recorder.recordingState c)));
    [apply threeValued_idle |].
  intros c e H. destruct e; simpl;
    try apply pauseRecording_threeValued; try assumption;
    unfold Recorder.Split.startRecording, Recorder.Split.stopRecording,
      Recorder.Split.stopTimeout, Recorder.Split.onstop;
    handler_cases.
Qed.

Lemma hook_fourValued (es : list Recorder.Hook.Event) :
  Recorder.threeValued
    (Recorder.m_tracked Recorder.Hook.machine
       (Recorder.run Recorder.Hook.machine es))
  \/ Recorder.m_tracked Recorder.Hook.machine
       (Recorder.run Recorder.Hook.machine es) = Recorder.processing.
Proof.
  apply (run_invariant Recorder.Hook.machine
           (fun c =>
              Recorder.threeValued (Recorder.Hook.recordingState c)
              \/ Recorder.Hook.recordingState c = Recorder.processing));
    [left; apply threeValued_idle |].
  intros c e H. destruct e; simpl; try assumption;
    unfold Recorder.Hook.startRecording_begin,
      Recorder.Hook.startRecording_end, Recorder.Hook.stopRecording_begin,
      Recorder.Hook.stopRecording_end, Recorder.Hook.returnedPauseRecording;
    simpl;
    repeat match goal with
           | |- context [if ?b then _ else _] => destruct b; simpl
           end;
    auto with recorder.
Qed.

(** C1, the claim as written fails for the hook: [startRecording] sets the
    state to 'processing' before it waits for the recorder, so a start
    with a canvas stream reaches a fourth value. *)
Lemma hook_reaches_processing :
  Recorder.reachable Recorder.Hook.machine
    (Recorder.run Recorder.Hook.machine
       [Recorder.Hook.Mounted; Recorder.Hook.StartCalled true])
  /\ Recorder.m_tracked Recorder.Hook.machine
       (Recorder.run Recorder.Hook.machine
          [Recorder.Hook.Mounted; Recorder.Hook.StartCalled true])
     = Recorder.processing
  /\ ~ Recorder.threeValued
         (Recorder.m_tracked Recorder.Hook.machine
            (Recorder.run Recorder.Hook.machine
               [Recorder.Hook.Mounted; Recorder.Hook.StartCalled true])).
Proof.
  split; [eexists; reflexivity |]. split; [reflexivity |].
  intros [H | [H | H]]; discriminate H.
Qed.

(** C1, amended.  Every recorder starts in 'idle'.  In the four recorders
    that keep the state in the component, every reachable state is 'idle',
    'recording' or 'paused'.  In the hook [useRecording], every reachable
    state is one of these three or 'processing'. *)
Theorem recording_state_values :
  Forall (fun m => Recorder.m_tracked m (Recorder.m_init m) = Recorder.idle)
    Recorder.recorders
  /\ Forall (fun m => forall es : list (Recorder.m_event m),
                 Recorder.threeValued
                   (Recorder.m_tracked m (Recorder.run m es)))
       Recorder.inComponent
  /\ (forall es : list Recorder.Hook.Event,
         Recorder.threeValued
           (Recorder.m_tracked Recorder.Hook.machine
              (Recorder.run Recorder.Hook.machine es))
         \/ Recorder.m_tracked Recorder.Hook.machine
              (Recorder.run Recorder.Hook.machine es) = Recorder.processing).
Proof.
  split; [repeat constructor |]. split; [| exact hook_fourValued].
  unfold Recorder.inComponent.
  constructor; [exact canvas_threeValued |].
  constructor; [exact camera_threeValued |].
  constructor; [exact composite_threeValued |].
  constructor; [exact split_threeValued |].
  constructor.
Qed.

(** ** View modes *)

Lemma onClick_fourValues (b : ViewModes.Button) :
  In (ViewModes.onClick b) ViewModes.fourValues.
Proof. destruct b; simpl; auto. Qed.

(** What a click does: nothing when the mode is the current one, and
    otherwise the mode goes to the state and to the global. *)
Lemma click_effect (st : ViewModes.State) (c : ViewModes.Click) :
  (ViewModes.click st c = st
   /\ ViewModes.onClick (ViewModes.button c) = ViewModes.viewMode st)
  \/ (ViewModes.viewMode (ViewModes.click st c)
      = ViewModes.onClick (ViewModes.button c)
      /\ ViewModes._lastViewMode (ViewModes.click st c)
         = Some (ViewModes.onClick (ViewModes.button c))).
Proof.
  unfold ViewModes.click, ViewModes.changeViewMode.
  destruct (String.eqb_spec (ViewModes.onClick (ViewModes.button c))
              (ViewModes.viewMode st)) as [Heq | Hne].
  - left. split; [reflexivity | exact Heq].
  - right. split; reflexivity.
Qed.

Lemma viewMode_run (stamp : string) (global : option string)
    (cs : list ViewModes.Click) :
  In (ViewModes.viewMode (ViewModes.run stamp global cs)) ViewModes.fourValues
  /\ (ViewModes._lastViewMode (ViewModes.run stamp global cs) = global
      \/ exists v,
           ViewModes._lastViewMode (ViewModes.run stamp global cs) = Some v
           /\ In v ViewModes.fourValues).
Proof.
  unfold ViewModes.run.
  assert (Hinit : In (ViewModes.viewMode (ViewModes.initial stamp global))
                    ViewModes.fourValues
                  /\ (ViewModes._lastViewMode (ViewModes.initial stamp global)
                      = global
                      \/ exists v,
                           ViewModes._lastViewMode
                             (ViewModes.initial stamp global) = Some v
                           /\ In v ViewModes.fourValues))
    by (split; [simpl; auto | left; reflexivity]).
  revert Hinit. generalize (ViewModes.initial stamp global).
  induction cs as [|c cs IH]; intros st Hst; simpl; [exact Hst |].
  apply IH. destruct Hst as [Hv Hg].
  destruct (click_effect st c) as [[-> _] | [Hv' Hg']].
  - split; assumption.
  - split.
    + rewrite Hv'. apply onClick_fourValues.
    + right. eexists. split; [exact Hg' | apply onClick_fourValues].
Qed.

(** C7.  The type [ViewMode] has exactly the four values 'full', 'split',
    'circle' and 'tutorial'; the view mode of the first render is 'full';
    every button gives one of the four values to [changeViewMode]; a click
    either leaves everything as it is (the mode is the current one) or
    puts its mode into the view-mode state and into [_lastViewMode]; so
    after any sequence of clicks the view mode is one of the four values,
    and [_lastViewMode] is one of them as soon as a click has changed
    it. *)
Theorem view_mode_values :
  (forall s : string,
      (exists m : ViewModes.ViewMode, ViewModes.literal m = s)
      <-> In s ViewModes.fourValues)
  /\ ViewModes.fourValues = ["full"; "split"; "circle"; "tutorial"]
  /\ NoDup ViewModes.fourValues
  /\ (forall stamp global,
         ViewModes.viewMode (ViewModes.initial stamp global) = "full")
  /\ (forall b, In (ViewModes.onClick b) ViewModes.fourValues)
  /\ (forall st c,
         (ViewModes.click st c = st
          /\ ViewModes.onClick (ViewModes.button c) = ViewModes.viewMode st)
         \/ (ViewModes.viewMode (ViewModes.click st c)
             = ViewModes.onClick (ViewModes.button c)
             /\ ViewModes._lastViewMode (ViewModes.click st c)
                = Some (ViewModes.onClick (ViewModes.button c))))
  /\ (forall stamp global cs,
         In (ViewModes.viewMode (ViewModes.run stamp global cs))
           ViewModes.fourValues
         /\ (ViewModes._lastViewMode (ViewModes.run stamp global cs) = global
             \/ exists v,
                  ViewModes._lastViewMode (ViewModes.run stamp global cs)
                  = Some v
                  /\ In v ViewModes.fourValues)).
Proof.
  split.
  { intros s. split.
    - intros [m <-]. destruct m; simpl; auto.
    - simpl. intros [<- | [<- | [<- | [<- | []]]]].
      + exists ViewModes.full. reflexivity.
      + exists ViewModes.split. reflexivity.
      + exists ViewModes.circle. reflexivity.
      + exists ViewModes.tutorial. reflexivity. }
  split; [reflexivity |].
  split.
  { unfold ViewModes.fourValues.
    repeat (apply NoDup_cons_2;
            [rewrite ?elem_of_cons, elem_of_nil; intros H;
             repeat (destruct H as [H | H]; [discriminate H |]); exact H |]).
    apply NoDup_nil_2. }
  split; [reflexivity |].
  split; [exact onClick_fourValues |].
  split; [exact click_effect | exact viewMode_run].
Qed.

(* ===================================================================== *)
(** * Part III: further properties of the code                            *)
(* ===================================================================== *)

(** ** More on [getSupportedMimeType] and [formatTime] *)

Lemma probe_existsb (p : string -> bool) (types : list string) :
  match MediaUtils.probe p types with
  | Some t => In t types /\ p t = true /\ existsb p types = true
  | None => existsb p types = false
  end.
Proof.
  induction types as [|x rest IH]; simpl; [reflexivity |].
  destruct (p x) eqn:Hx; simpl.
  - auto.
  - destruct (MediaUtils.probe p rest) as [t|].
    + destruct IH as (Hin & Ht & Hex). auto.
    + exact IH.
Qed.

(** X1.  Whatever the browser supports, [getSupportedMimeType] returns an
    entry of its probe list, and the returned type is supported exactly
    when some entry of the list is: an unsupported type only comes back
    (as the 'video/webm' fallback) when nothing in the list is supported. *)
Theorem getSupportedMimeType_listed (isTypeSupported : string -> bool) :
  In (MediaUtils.getSupportedMimeType isTypeSupported) MediaUtils.mimeTypes
  /\ isTypeSupported (MediaUtils.getSupportedMimeType isTypeSupported)
     = existsb isTypeSupported MediaUtils.mimeTypes.
Proof.
  unfold MediaUtils.getSupportedMimeType.
  pose proof (probe_existsb isTypeSupported MediaUtils.mimeTypes) as H.
  destruct (MediaUtils.probe isTypeSupported MediaUtils.mimeTypes) as [t|].
  - destruct H as (Hin & Ht & Hex). split; [exact Hin | congruence].
  - split; [simpl; tauto |].
    rewrite H. 
    assert (Hall : forall t, In t MediaUtils.mimeTypes ->
                             isTypeSupported t = false).
    { intros t Hin. destruct (isTypeSupported t) eqn:E; [| reflexivity].
      assert (existsb isTypeSupported MediaUtils.mimeTypes = true)
        by (apply existsb_exists; eauto).
      congruence. }
    apply Hall. simpl. tauto.
Qed.

Lemma splitAtColon_digits (d : Decimal.uint) (rest : string) :
  TimeText.splitAtColon (NilEmpty.string_of_uint d ++ String ":" rest)
  = Some (NilEmpty.string_of_uint d, rest).
Proof.
  induction d; simpl; try rewrite IHd; reflexivity.
Qed.

Lemma splitAtColon_decimal (n : N) (rest : string) :
  TimeText.splitAtColon (Rendering.decimal n ++ String ":" rest)
  = Some (Rendering.decimal n, rest).
Proof.
  unfold Rendering.decimal, NilZero.string_of_uint.
  destruct (N.to_uint n) eqn:E; try (rewrite <- E; apply splitAtColon_digits).
  reflexivity.
Qed.

Lemma splitAtColon_leftPad (width : nat) (n : N) (rest : string) :
  TimeText.splitAtColon
    (Rendering.leftPad width (Rendering.decimal n) ++ String ":" rest)
  = Some (Rendering.leftPad width (Rendering.decimal n), rest).
Proof.
  unfold Rendering.leftPad.
  induction (width - String.length (Rendering.decimal n))%nat as [|k IH];
    simpl.
  - apply splitAtColon_decimal.
  - rewrite IH. reflexivity.
Qed.

Lemma parseTime_formatTime (seconds : float) (s : N) :
  Double.integerValue seconds = Some (Z.of_N s) ->
  (s < 2 ^ 53)%N ->
  TimeText.parseTime (MediaUtils.formatTime seconds) = Some s.
Proof.
  intros Hint Hs.
  rewrite (formatTime_whole seconds s Hint Hs).
  unfold TimeText.parseTime.
  change (":" ++ Rendering.leftPad 2 (Rendering.decimal (s mod 60)))
    with (String ":" (Rendering.leftPad 2 (Rendering.decimal (s mod 60)))).
  rewrite splitAtColon_leftPad, !readDecimal_leftPad.
  f_equal. symmetry. apply N.div_mod. discriminate.
Qed.

(** X2.  For whole numbers of seconds below 2^53, a formatted time reads
    back as the number of seconds it was made from, so two different
    durations are never shown as the same text. *)
Theorem formatTime_round_trip (seconds : float) (s : N) :
  Double.integerValue seconds = Some (Z.of_N s) ->
  (s < 2 ^ 53)%N ->
  TimeText.parseTime (MediaUtils.formatTime seconds) = Some s
  /\ forall (other : float) (t : N),
       Double.integerValue other = Some (Z.of_N t) ->
       (t < 2 ^ 53)%N ->
       MediaUtils.formatTime other = MediaUtils.formatTime seconds -> t = s.
Proof.
  intros Hint Hs.
  split; [apply parseTime_formatTime; assumption |].
  intros other t Hother Ht Heq.
  pose proof (parseTime_formatTime other t Hother Ht) as Hread.
  rewrite Heq, (parseTime_formatTime seconds s Hint Hs) in Hread.
  congruence.
Qed.

Lemma formatTime_round_trip_witness :
  Double.integerValue 3725 = Some (Z.of_N 3725)
  /\ (3725 < 2 ^ 53)%N
  /\ TimeText.parseTime (MediaUtils.formatTime 3725) = Some 3725%N.
Proof.
  assert (H1 : Double.integerValue 3725 = Some (Z.of_N 3725))
    by (vm_compute; reflexivity).
  assert (H2 : (3725 < 2 ^ 53)%N) by (vm_compute; reflexivity).
  split; [exact H1 | split; [exact H2 |]].
  exact (proj1 (formatTime_round_trip 3725 3725 H1 H2)).
Defined.

(** ** [createMixedStream] *)

Lemma addTrack_fold (f : MediaUtils.MediaStreamTrack -> MediaUtils.MediaStreamTrack)
    (ts : list MediaUtils.MediaStreamTrack) (m : MediaUtils.MediaStream) :
  MediaUtils.tracks
    (List.fold_left (fun m track => Mixing.addTrack (f track) m) ts m)
  = (MediaUtils.tracks m ++ List.map f ts)%list.
Proof.
  revert m. induction ts as [|t ts IH]; intros m; simpl.
  - now rewrite app_nil_r.
  - rewrite IH. simpl. now rewrite <- app_assoc.
Qed.

Lemma createMixedStream_tracks (v a : MediaUtils.MediaStream) :
  MediaUtils.tracks (Mixing.createMixedStream v a)
  = (MediaUtils.getVideoTracks v
     ++ List.map Mixing.clone (MediaUtils.getAudioTracks a))%list.
Proof.
  unfold Mixing.createMixedStream.
  rewrite (addTrack_fold Mixing.clone).
  rewrite (addTrack_fold (fun t => t)). simpl. now rewrite map_id.
Qed.

Lemma filter_filter_same {A : Type} (p : A -> bool) (l : list A) :
  List.filter p (List.filter p l) = List.filter p l.
Proof.
  induction l as [|x l IH]; simpl; [reflexivity |].
  destruct (p x) eqn:E; simpl; [rewrite E, IH; reflexivity | exact IH].
Qed.

Lemma filter_filter_none {A : Type} (p q : A -> bool) (l : list A) :
  (forall x, p x = true -> q x = false) ->
  List.filter q (List.filter p l) = [].
Proof.
  intros H. induction l as [|x l IH]; simpl; [reflexivity |].
  destruct (p x) eqn:E; simpl; [rewrite (H x E) |]; exact IH.
Qed.

Lemma audio_not_video (t : MediaUtils.MediaStreamTrack) :
  MediaUtils.isAudio t = true -> MediaUtils.isVideo t = false.
Proof.
  destruct t as [[|] l e]; unfold MediaUtils.isAudio, MediaUtils.isVideo;
    simpl; intros; congruence.
Qed.

Lemma video_not_audio (t : MediaUtils.MediaStreamTrack) :
  MediaUtils.isVideo t = true -> MediaUtils.isAudio t = false.
Proof.
  destruct t as [[|] l e]; unfold MediaUtils.isAudio, MediaUtils.isVideo;
    simpl; intros; congruence.
Qed.

Lemma clone_same (t : MediaUtils.MediaStreamTrack) : Mixing.clone t = t.
Proof. destruct t; reflexivity. Qed.

Lemma createMixedStream_video (v a : MediaUtils.MediaStream) :
  MediaUtils.getVideoTracks (Mixing.createMixedStream v a)
  = MediaUtils.getVideoTracks v.
Proof.
  unfold MediaUtils.getVideoTracks at 1.
  rewrite createMixedStream_tracks, List.filter_app.
  unfold MediaUtils.getVideoTracks, MediaUtils.getAudioTracks.
  rewrite filter_filter_same.
  rewrite (List.map_ext _ (fun t => t) clone_same), List.map_id.
  rewrite (filter_filter_none _ _ _ audio_not_video).
  apply app_nil_r.
Qed.

Lemma createMixedStream_audio (v a : MediaUtils.MediaStream) :
  MediaUtils.getAudioTracks (Mixing.createMixedStream v a)
  = List.map Mixing.clone (MediaUtils.getAudioTracks a).
Proof.
  unfold MediaUtils.getAudioTracks at 1.
  rewrite createMixedStream_tracks, List.filter_app.
  unfold MediaUtils.getVideoTracks, MediaUtils.getAudioTracks.
  rewrite (filter_filter_none _ _ _ video_not_audio).
  rewrite (List.map_ext _ (fun t => t) clone_same), List.map_id.
  now rewrite filter_filter_same.
Qed.

(** X3.  The mixed stream holds the video tracks of the video stream, in
    their order, followed by one clone of each audio track of the audio
    stream: the video tracks of the mix are those of the video stream, its
    audio tracks are the clones, and neither the audio of the video stream
    nor the video of the audio stream gets in. *)
Theorem createMixedStream_contents
    (videoStream audioStream : MediaUtils.MediaStream) :
  MediaUtils.tracks (Mixing.createMixedStream videoStream audioStream)
  = (MediaUtils.getVideoTracks videoStream
     ++ List.map Mixing.clone (MediaUtils.getAudioTracks audioStream))%list
  /\ MediaUtils.getVideoTracks (Mixing.createMixedStream videoStream audioStream)
     = MediaUtils.getVideoTracks videoStream
  /\ MediaUtils.getAudioTracks (Mixing.createMixedStream videoStream audioStream)
     = List.map Mixing.clone (MediaUtils.getAudioTracks audioStream)
  /\ length (MediaUtils.tracks
               (Mixing.createMixedStream videoStream audioStream))
     = (length (MediaUtils.getVideoTracks videoStream)
        + length (MediaUtils.getAudioTracks audioStream))%nat.
Proof.
  split; [apply createMixedStream_tracks |].
  split; [apply createMixedStream_video |].
  split; [apply createMixedStream_audio |].
  rewrite createMixedStream_tracks, length_app, length_map. reflexivity.
Qed.

(** X4.  When the platform gives audio-only streams to audio-only
    requests, mixing the canvas video with what [captureAudioForRecording]
    returned always gives a stream with the video tracks of the canvas; it
    has sound exactly when one of the two microphone requests succeeded,
    and it is silent, without any error, when both failed. *)
Theorem recordWithCapturedAudio_sound (canvas : MediaUtils.MediaStream)
    (highQuality basic : JS.Completion MediaUtils.MediaStream)
    (w : MediaUtils.Window) :
  (forall s, highQuality = JS.Normal s -> MediaUtils.audioOnly s) ->
  (forall s, basic = JS.Normal s -> MediaUtils.audioOnly s) ->
  exists mixed,
    Mixing.recordWithCapturedAudio canvas highQuality basic w = Some mixed
    /\ MediaUtils.getVideoTracks mixed = MediaUtils.getVideoTracks canvas
    /\ (if JS.returned highQuality || JS.returned basic
        then MediaUtils.getAudioTracks mixed <> []
        else MediaUtils.getAudioTracks mixed = []).
Proof.
  intros Hhq Hbasic. unfold Mixing.recordWithCapturedAudio.
  assert (Hmap : forall l : list MediaUtils.MediaStreamTrack,
             l <> [] -> List.map Mixing.clone l <> []).
  { intros [|x l] H; [now contradiction H | discriminate]. }
  destruct highQuality as [hq | e1]; simpl.
  - destruct (Hhq hq eq_refl) as [Ha _].
    eexists. split; [reflexivity |].
    split; [apply createMixedStream_video |].
    rewrite createMixedStream_audio. apply Hmap.
    now apply getAudioTracks_enable.
  - destruct basic as [b | e2]; simpl.
    + destruct (Hbasic b eq_refl) as [Ha _].
      eexists. split; [reflexivity |].
      split; [apply createMixedStream_video |].
      rewrite createMixedStream_audio. now apply Hmap.
    + eexists. split; [reflexivity |].
      split; [apply createMixedStream_video |].
      rewrite createMixedStream_audio. reflexivity.
Qed.

Lemma recordWithCapturedAudio_sound_witness :
  let canvas := {| MediaUtils.tracks :=
                     [ {| MediaUtils.kind := MediaUtils.video;
                          MediaUtils.label := "canvas";
                          MediaUtils.enabled := true |} ] |} in
  let denied := JS.Throw (JS.ErrorObject "NotAllowedError") in
  let w := {| MediaUtils._directAudioStream := None;
              MediaUtils._audioTracksAdded := None |} in
  exists mixed,
    Mixing.recordWithCapturedAudio canvas denied denied w = Some mixed
    /\ MediaUtils.getVideoTracks mixed = MediaUtils.getVideoTracks canvas
    /\ MediaUtils.getAudioTracks mixed = [].
Proof.
  cbv zeta.
  destruct (recordWithCapturedAudio_sound
              {| MediaUtils.tracks :=
                   [ {| MediaUtils.kind := MediaUtils.video;
                        MediaUtils.label := "canvas";
                        MediaUtils.enabled := true |} ] |}
              (JS.Throw (JS.ErrorObject "NotAllowedError"))
              (JS.Throw (JS.ErrorObject "NotAllowedError"))
              {| MediaUtils._directAudioStream := None;
                 MediaUtils._audioTracksAdded := None |})
    as (mixed & Hm & Hv & Ha).
  - intros s [=].
  - intros s [=].
  - exists mixed. split; [exact Hm | split; [exact Hv | exact Ha]].
Defined.

(** ** The globals *)

Lemma incrementTimes_count (n : nat) (w : WindowFix.Globals) :
  WindowFix.getAudioTracksAdded (WindowFix.incrementTimes n w)
  = (WindowFix.getAudioTracksAdded w + N.of_nat n)%N.
Proof.
  revert w. induction n as [|n IH]; intros w.
  - simpl. lia.
  - cbn [WindowFix.incrementTimes]. rewrite IH.
    unfold WindowFix.incrementAudioTracksAdded, WindowFix.getAudioTracksAdded.
    simpl. lia.
Qed.

Lemma incrementTimes_others (n : nat) (w : WindowFix.Globals) :
  WindowFix._directAudioStream (WindowFix.incrementTimes n w)
  = WindowFix._directAudioStream w
  /\ WindowFix._mediaRecorderInstance (WindowFix.incrementTimes n w)
     = WindowFix._mediaRecorderInstance w
  /\ WindowFix._lastViewMode (WindowFix.incrementTimes n w)
     = WindowFix._lastViewMode w
  /\ WindowFix._pendingAudioPromise (WindowFix.incrementTimes n w)
     = WindowFix._pendingAudioPromise w.
Proof.
  revert w. induction n as [|n IH]; intros w; [repeat split |].
  cbn [WindowFix.incrementTimes].
  destruct (IH (fst (WindowFix.incrementAudioTracksAdded w)))
    as (H1 & H2 & H3 & H4).
  rewrite H1, H2, H3, H4. repeat split.
Qed.

(** X5.  The counter of added audio tracks counts calls while it stays
    below 2^53, where adding 1 is exact: after [n] calls of
    [incrementAudioTracksAdded] it reads [n] more than before (from 0 when
    it was never set), each call returns the value it wrote, and the other
    globals are untouched. *)
Theorem incrementAudioTracksAdded_counts (n : nat) (w : WindowFix.Globals) :
  (WindowFix.getAudioTracksAdded w + N.of_nat n < 2 ^ 53)%N ->
  WindowFix.getAudioTracksAdded (WindowFix.incrementTimes n w)
  = (WindowFix.getAudioTracksAdded w + N.of_nat n)%N
  /\ WindowFix.getAudioTracksAdded (WindowFix.incrementTimes n WindowFix.unset)
     = N.of_nat n
  /\ snd (WindowFix.incrementAudioTracksAdded (WindowFix.incrementTimes n w))
     = WindowFix.getAudioTracksAdded
         (fst (WindowFix.incrementAudioTracksAdded
                 (WindowFix.incrementTimes n w)))
  /\ WindowFix._directAudioStream (WindowFix.incrementTimes n w)
     = WindowFix._directAudioStream w
  /\ WindowFix._lastViewMode (WindowFix.incrementTimes n w)
     = WindowFix._lastViewMode w.
Proof.
  intros _.
  split; [apply incrementTimes_count |].
  split; [rewrite incrementTimes_count; reflexivity |].
  split; [reflexivity |].
  destruct (incrementTimes_others n w) as (H1 & _ & H3 & _). auto.
Qed.

Lemma incrementAudioTracksAdded_counts_witness :
  (WindowFix.getAudioTracksAdded WindowFix.unset + N.of_nat 3 < 2 ^ 53)%N
  /\ WindowFix.getAudioTracksAdded
       (WindowFix.incrementTimes 3 WindowFix.unset) = 3%N.
Proof.
  assert (H : (WindowFix.getAudioTracksAdded WindowFix.unset + N.of_nat 3
               < 2 ^ 53)%N) by (vm_compute; reflexivity).
  split; [exact H |].
  exact (proj1 (incrementAudioTracksAdded_counts 3 WindowFix.unset H)).
Defined.

(** X6.  [initWindowGlobals] changes nothing that a reader can see and
    running it again changes nothing at all; it leaves the view mode and
    the counter set.  A view mode written with [setLastViewMode] is read
    back by [getLastViewMode], except the empty string, which reads as
    'full'. *)
Theorem initWindowGlobals_idempotent (w : WindowFix.Globals) (mode : string) :
  WindowFix.readings (WindowFix.initWindowGlobals w) = WindowFix.readings w
  /\ WindowFix.initWindowGlobals (WindowFix.initWindowGlobals w)
     = WindowFix.initWindowGlobals w
  /\ WindowFix._lastViewMode (WindowFix.initWindowGlobals w)
     = Some (WindowFix.getLastViewMode w)
  /\ WindowFix.getLastViewMode w <> ""
  /\ WindowFix.getLastViewMode (WindowFix.setLastViewMode mode w)
     = (if String.eqb mode "" then "full" else mode).
Proof.
  assert (Hne : WindowFix.getLastViewMode w <> "").
  { unfold WindowFix.getLastViewMode.
    destruct (WindowFix._lastViewMode w) as [m|]; [| discriminate].
    destruct (String.eqb_spec m ""); [discriminate | assumption]. }
  assert (Hget : WindowFix.getLastViewMode (WindowFix.initWindowGlobals w)
                 = WindowFix.getLastViewMode w).
  { unfold WindowFix.getLastViewMode at 1. simpl.
    destruct (String.eqb_spec (WindowFix.getLastViewMode w) "");
      [contradiction | reflexivity]. }
  split.
  { unfold WindowFix.readings. rewrite Hget. reflexivity. }
  split.
  { unfold WindowFix.initWindowGlobals at 1 3. rewrite Hget. reflexivity. }
  split; [reflexivity |]. split; [exact Hne | reflexivity].
Qed.

(** X7.  [cleanupAudioResources] stops every track of the direct audio
    stream, drops the stream, the recorder and the pending promise, and
    puts the counter back to 0 without touching the view mode; it asks the
    recorder to stop only when there is one and it is recording.  The next
    [incrementAudioTracksAdded] then counts 1. *)
Theorem cleanupAudioResources_resets (recorderRecording : bool)
    (w : WindowFix.Globals) :
  let '(w', stopped, stopCalled) :=
    WindowFix.cleanupAudioResources recorderRecording w in
  WindowFix.readings w'
  = (None, None, WindowFix.getLastViewMode w, 0%N, None)
  /\ WindowFix._lastViewMode w' = WindowFix._lastViewMode w
  /\ stopped = match WindowFix._directAudioStream w with
               | Some stream => MediaUtils.tracks stream
               | None => []
               end
  /\ stopCalled
     = (match WindowFix._mediaRecorderInstance w with
        | Some _ => true
        | None => false
        end && recorderRecording)
  /\ snd (WindowFix.incrementAudioTracksAdded w') = 1%N.
Proof.
  unfold WindowFix.cleanupAudioResources. simpl.
  repeat split.
  destruct (WindowFix._mediaRecorderInstance w); reflexivity.
Qed.

(** ** More on the teleprompter *)

Lemma frames_when_stopped (ls : list Teleprompter.Layout)
    (st : Teleprompter.State) :
  Teleprompter.pending st = None ->
  List.fold_left Teleprompter.step (List.map Teleprompter.Frame ls) st = st.
Proof.
  intros Hp. induction ls as [|l ls IH]; simpl; [reflexivity |].
  rewrite Hp. exact IH.
Qed.

(** X8.  Scrolling ends by itself and stays ended: when the frame that
    runs finds that its sum reaches or exceeds the maximum scroll it
    measures, the position is exactly that maximum, scrolling is off and
    no frame is requested, and the frames that follow change nothing,
    whatever they measure.  With the slider at 10 a script of 1000 pixels
    in the container of 256 reaches its end, 744, in the 744th frame and
    not before. *)
Theorem teleprompter_reaches_end (es : list Teleprompter.Event)
    (c : Teleprompter.Closure) (l : Teleprompter.Layout) (m : float)
    (later : list Teleprompter.Layout) :
  Teleprompter.pending (Teleprompter.run es) = Some c ->
  Teleprompter.maxScroll l = Some m ->
  (m <=? Teleprompter.position (Teleprompter.run es)
         + Teleprompter.c_speed c * 0.1)%float = true ->
  let st := Teleprompter.run (es ++ [Teleprompter.Frame l]) in
  Teleprompter.position st = m
  /\ Teleprompter.isScrolling st = false
  /\ Teleprompter.pending st = None
  /\ Teleprompter.run
       (es ++ [Teleprompter.Frame l] ++ List.map Teleprompter.Frame later)
     = st
  /\ (let frames n :=
        Teleprompter.run
          ([Teleprompter.SpeedChange 10; Teleprompter.ToggleClick]
           ++ List.repeat (Teleprompter.Frame Teleprompter.longScript) n) in
      Teleprompter.position (frames 743%nat) = 743%float
      /\ Teleprompter.isScrolling (frames 743%nat) = true
      /\ Teleprompter.position (frames 744%nat) = 744%float
      /\ Teleprompter.isScrolling (frames 744%nat) = false).
Proof.
  intros Hpend Hm Hreach. cbv zeta.
  assert (Hst : Teleprompter.run (es ++ [Teleprompter.Frame l])
                = Teleprompter.setPosition m
                    (Teleprompter.setIsScrolling false (Teleprompter.run es))).
  { unfold Teleprompter.run. rewrite List.fold_left_app. simpl.
    fold (Teleprompter.run es). rewrite Hpend.
    pose proof (teleprompter_invariant_run es) as Hinv.
    unfold Teleprompter.invariant in Hinv. rewrite Hpend in Hinv.
    destruct Hinv as [Hc _].
    unfold Teleprompter.animate. rewrite Hc, Hm. simpl.
    rewrite Hreach. reflexivity. }
  assert (Hstop : Teleprompter.pending
                    (Teleprompter.run (es ++ [Teleprompter.Frame l])) = None
                  /\ Teleprompter.isScrolling
                       (Teleprompter.run (es ++ [Teleprompter.Frame l]))
                     = false).
  { rewrite Hst.
    pose proof (teleprompter_invariant_run es) as Hinv.
    unfold Teleprompter.invariant in Hinv. rewrite Hpend in Hinv.
    destruct Hinv as [_ Hs].
    unfold Teleprompter.setIsScrolling. rewrite Hs. simpl. split; reflexivity. }
  destruct Hstop as [Hnone Hoff].
  split; [rewrite Hst; reflexivity |].
  split; [exact Hoff |]. split; [exact Hnone |].
  split.
  - rewrite List.app_assoc. unfold Teleprompter.run at 1.
    rewrite List.fold_left_app.
    fold (Teleprompter.run (es ++ [Teleprompter.Frame l])).
    apply frames_when_stopped, Hnone.
  - repeat split; vm_compute; reflexivity.
Qed.

Lemma teleprompter_reaches_end_witness :
  let es :=
    [Teleprompter.SpeedChange 10; Teleprompter.ToggleClick;
     Teleprompter.Frame Teleprompter.longScript;
     Teleprompter.Frame Teleprompter.longScript;
     Teleprompter.Frame Teleprompter.longScript] in
  let c := {| Teleprompter.c_isScrolling := true;
              Teleprompter.c_speed := 10 |} in
  Teleprompter.pending (Teleprompter.run es) = Some c
  /\ Teleprompter.maxScroll Teleprompter.cutScript = Some 4%float
  /\ (4 <=? Teleprompter.position (Teleprompter.run es)
            + Teleprompter.c_speed c * 0.1)%float = true
  /\ Teleprompter.position
       (Teleprompter.run
          (es ++ [Teleprompter.Frame Teleprompter.cutScript])) = 4%float.
Proof.
  cbv zeta.
  assert (H1 : Teleprompter.pending
                 (Teleprompter.run
                    [Teleprompter.SpeedChange 10; Teleprompter.ToggleClick;
                     Teleprompter.Frame Teleprompter.longScript;
                     Teleprompter.Frame Teleprompter.longScript;
                     Teleprompter.Frame Teleprompter.longScript])
               = Some {| Teleprompter.c_isScrolling := true;
                         Teleprompter.c_speed := 10 |})
    by (vm_compute; reflexivity).
  assert (H2 : Teleprompter.maxScroll Teleprompter.cutScript = Some 4%float)
    by (vm_compute; reflexivity).
  assert (H3 : (4 <=? Teleprompter.position
                        (Teleprompter.run
                           [Teleprompter.SpeedChange 10;
                            Teleprompter.ToggleClick;
                            Teleprompter.Frame Teleprompter.longScript;
                            Teleprompter.Frame Teleprompter.longScript;
                            Teleprompter.Frame Teleprompter.longScript])
                      + Teleprompter.c_speed
                          {| Teleprompter.c_isScrolling := true;
                             Teleprompter.c_speed := 10 |} * 0.1)%float
               = true)
    by (vm_compute; reflexivity).
  split; [exact H1 | split; [exact H2 | split; [exact H3 |]]].
  exact (proj1 (teleprompter_reaches_end _ _ Teleprompter.cutScript 4 []
                  H1 H2 H3)).
Defined.

(** ** View changes of the hook-based recorder *)

Lemma click_cases (st : ViewModes.State) (c : ViewModes.Click) :
  (ViewModes.click st c = st
   /\ ViewModes.onClick (ViewModes.button c) = ViewModes.viewMode st)
  \/ (ViewModes.onClick (ViewModes.button c) <> ViewModes.viewMode st
      /\ ViewModes.viewMode (ViewModes.click st c)
         = ViewModes.onClick (ViewModes.button c)
      /\ ViewModes._lastViewMode (ViewModes.click st c)
         = Some (ViewModes.onClick (ViewModes.button c))
      /\ ViewModes.scheduled (ViewModes.click st c)
         = (ViewModes.scheduled st
            ++ [ViewModes.onClick (ViewModes.button c)])%list
      /\ ViewModes.lastViewChange (ViewModes.click st c) = ViewModes.at_ c
      /\ ViewModes.cleanups (ViewModes.click st c)
         = match ViewModes.during c with
           | Recorder.recording | Recorder.paused => ViewModes.cleanups st
           | _ => S (ViewModes.cleanups st)
           end).
Proof.
  unfold ViewModes.click, ViewModes.changeViewMode.
  destruct (String.eqb_spec (ViewModes.onClick (ViewModes.button c))
              (ViewModes.viewMode st)) as [Heq | Hne].
  - left. split; [reflexivity | exact Heq].
  - right. split; [exact Hne |]. simpl.
    destruct (ViewModes.during c); repeat split.
Qed.

(** X10.  While a recording is active (recording or paused), changing the
    view never cleans up the streams: after any clicks made in such
    renders, no call of [cleanupStreams] has happened, whatever the
    buttons. *)
Theorem changeViewMode_keeps_streams (stamp : string) (global : option string)
    (cs : list ViewModes.Click) :
  Forall Conditions.activeClick cs ->
  ViewModes.cleanups (ViewModes.run stamp global cs) = 0%nat.
Proof.
  intros Hcs. unfold ViewModes.run.
  assert (Hinit : ViewModes.cleanups (ViewModes.initial stamp global) = 0%nat)
    by reflexivity.
  revert Hinit. generalize (ViewModes.initial stamp global).
  induction Hcs as [|c cs Hc _ IH]; intros st Hst; simpl; [exact Hst |].
  apply IH.
  destruct (click_cases st c) as [[-> _] | (_ & _ & _ & _ & _ & Hcl)];
    [exact Hst |].
  rewrite Hcl. destruct Hc as [-> | ->]; exact Hst.
Qed.

Lemma changeViewMode_keeps_streams_witness :
  Forall Conditions.activeClick
    [ {| ViewModes.button := ViewModes.SplitView;
         ViewModes.during := Recorder.recording;
         ViewModes.at_ := "2024-03-05T14:07:09.042Z" |} ]
  /\ ViewModes.cleanups
       (ViewModes.run "2024-03-05T14:07:00.000Z" None
          [ {| ViewModes.button := ViewModes.SplitView;
               ViewModes.during := Recorder.recording;
               ViewModes.at_ := "2024-03-05T14:07:09.042Z" |} ]) = 0%nat.
Proof.
  assert (H : Forall Conditions.activeClick
                [ {| ViewModes.button := ViewModes.SplitView;
                     ViewModes.during := Recorder.recording;
                     ViewModes.at_ := "2024-03-05T14:07:09.042Z" |} ]).
  { constructor; [left; reflexivity | constructor]. }
  split; [exact H |].
  exact (changeViewMode_keeps_streams "2024-03-05T14:07:00.000Z" None _ H).
Defined.

Lemma inStep_fold (stamp : string) (global : option string)
    (cs : list ViewModes.Click) (st : ViewModes.State) :
  Conditions.inStep stamp global st ->
  Conditions.inStep stamp global (fold_left ViewModes.click cs st)
  /\ (length (ViewModes.scheduled (fold_left ViewModes.click cs st))
      <= length (ViewModes.scheduled st) + length cs)%nat.
Proof.
  revert st. induction cs as [|c cs IH]; intros st Hst; simpl.
  - split; [exact Hst | lia].
  - destruct (click_cases st c)
      as [[-> _] | (_ & Hv & Hg & Hs & _ & Hcl)].
    + destruct (IH st Hst) as [H1 H2]. split; [exact H1 | lia].
    + assert (Hnext : Conditions.inStep stamp global (ViewModes.click st c)).
      { destruct Hst as [_ Hle]. unfold Conditions.inStep.
        rewrite Hs, Hg, Hv, Hcl, length_app, last_last. simpl. split.
        - destruct (ViewModes.scheduled st); simpl; split; reflexivity.
        - destruct (ViewModes.during c); lia. }
      destruct (IH _ Hnext) as [H1 H2]. split; [exact H1 |].
      rewrite Hs, length_app in H2. simpl in H2. lia.
Qed.

(** X11.  The view-mode state and the global stay in step: after any
    clicks, either no change was made (the mode is still 'full', the
    global is as the page left it, nothing was cleaned up or scheduled), or
    [window._lastViewMode] is the current view mode and the last stream
    initialisation scheduled is for that mode.  Every change schedules
    one initialisation and at most one clean-up, and a click changes the
    mode at most once. *)
Theorem changeViewMode_in_step (stamp : string) (global : option string)
    (cs : list ViewModes.Click) :
  Conditions.inStep stamp global (ViewModes.run stamp global cs)
  /\ (length (ViewModes.scheduled (ViewModes.run stamp global cs))
      <= length cs)%nat.
Proof.
  unfold ViewModes.run.
  destruct (inStep_fold stamp global cs (ViewModes.initial stamp global))
    as [H1 H2].
  - unfold Conditions.inStep. simpl. repeat split. lia.
  - split; [exact H1 | exact H2].
Qed.

(** ** Submitting the form *)

Lemma handleSubmit_sent_inv (st : ScriptForm.State) (slow : bool)
    (outcome : ScriptForm.FetchOutcome) :
  ScriptForm.sent (ScriptForm.handleSubmit st slow outcome) <> [] ->
  exists topicTitle seoKeyword,
    ScriptForm.formData st !! "topicTitle" = Some topicTitle
    /\ ScriptForm.formData st !! "seoKeyword" = Some seoKeyword
    /\ ScriptForm.blank topicTitle = false
    /\ ScriptForm.blank seoKeyword = false.
Proof.
  unfold ScriptForm.handleSubmit.
  destruct (ScriptForm.formData st !! "topicTitle") as [t|];
    [| intros H; now contradiction H].
  destruct (ScriptForm.blank t) eqn:Ht; [intros H; now contradiction H |].
  destruct (ScriptForm.formData st !! "seoKeyword") as [k|];
    [| intros H; now contradiction H].
  destruct (ScriptForm.blank k) eqn:Hk; [intros H; now contradiction H |].
  intros _. exists t, k. repeat split; assumption.
Qed.

Lemma formReachable_three (fd : gmap string string) (t k c : string) :
  ScriptForm.formReachable fd ->
  <["creatorInfo" := c]> (<["seoKeyword" := k]> (<["topicTitle" := t]> fd))
  = <["topicTitle" := t]> (<["seoKeyword" := k]> (<["creatorInfo" := c]> ∅)).
Proof.
  intros Hfd. apply formReachable_fields in Hfd.
  apply map_eq. intros i.
  destruct (decide (i = "creatorInfo")) as [-> | Hc];
    [now rewrite lookup_insert_eq, !lookup_insert_ne, lookup_insert_eq
       by discriminate |].
  destruct (decide (i = "seoKeyword")) as [-> | Hk];
    [now rewrite !(lookup_insert_ne _ "creatorInfo"), lookup_insert_eq,
       lookup_insert_ne, lookup_insert_eq by discriminate |].
  destruct (decide (i = "topicTitle")) as [-> | Ht];
    [now rewrite !(lookup_insert_ne _ "creatorInfo"),
       !(lookup_insert_ne _ "seoKeyword"), !lookup_insert_eq
       by discriminate |].
  rewrite !lookup_insert_ne, lookup_empty by congruence.
  apply not_elem_of_dom. rewrite Hfd.
  rewrite !elem_of_union, !elem_of_singleton. tauto.
Qed.

(** X12.  What the user typed is what is sent: after a topic title, a
    keyword and a creator text have been typed into the three inputs, with
    the first two not blank, [handleSubmit] posts exactly the object with
    these three values, whatever the form held before. *)
Theorem handleSubmit_sends_typed_values (st : ScriptForm.State)
    (topicTitle seoKeyword creatorInfo : string) (slow : bool)
    (outcome : ScriptForm.FetchOutcome) :
  ScriptForm.formReachable (ScriptForm.formData st) ->
  ScriptForm.blank topicTitle = false ->
  ScriptForm.blank seoKeyword = false ->
  ScriptForm.sent
    (ScriptForm.handleSubmit
       (ScriptForm.handleInputChange
          (ScriptForm.nameAttr ScriptForm.CreatorInfoInput) creatorInfo
          (ScriptForm.handleInputChange
             (ScriptForm.nameAttr ScriptForm.SeoKeywordInput) seoKeyword
             (ScriptForm.handleInputChange
                (ScriptForm.nameAttr ScriptForm.TopicTitleInput) topicTitle
                st)))
       slow outcome)
  = [ {| ScriptForm.url := "http://localhost:5000/generate-content";
         ScriptForm.method := "POST";
         ScriptForm.headers := [("Content-Type", "application/json")];
         ScriptForm.body :=
           <["topicTitle" := topicTitle]>
             (<["seoKeyword" := seoKeyword]>
                (<["creatorInfo" := creatorInfo]> ∅)) |} ].
Proof.
  intros Hfd Ht Hk.
  unfold ScriptForm.handleSubmit, ScriptForm.generateRequest. simpl.
  rewrite lookup_insert_ne, lookup_insert_ne, lookup_insert_eq by discriminate.
  rewrite Ht.
  rewrite lookup_insert_ne, lookup_insert_eq by discriminate.
  rewrite Hk. simpl.
  now rewrite (formReachable_three _ _ _ _ Hfd).
Qed.

Lemma handleSubmit_sends_typed_values_witness :
  ScriptForm.formReachable (ScriptForm.formData ScriptForm.initial)
  /\ ScriptForm.blank "Investing" = false
  /\ ScriptForm.blank "index funds" = false
  /\ ScriptForm.sent
       (ScriptForm.handleSubmit
          (ScriptForm.handleInputChange "creatorInfo" ""
             (ScriptForm.handleInputChange "seoKeyword" "index funds"
                (ScriptForm.handleInputChange "topicTitle" "Investing"
                   ScriptForm.initial)))
          false (ScriptForm.FetchRejected (JS.ErrorObject "Failed to fetch")))
     = [ {| ScriptForm.url := "http://localhost:5000/generate-content";
            ScriptForm.method := "POST";
            ScriptForm.headers := [("Content-Type", "application/json")];
            ScriptForm.body :=
              <["topicTitle" := "Investing"]>
                (<["seoKeyword" := "index funds"]>
                   (<["creatorInfo" := ""]> ∅)) |} ].
Proof.
  assert (H1 : ScriptForm.formReachable
                 (ScriptForm.formData ScriptForm.initial))
    by exact ScriptForm.form_initial.
  assert (H2 : ScriptForm.blank "Investing" = false) by reflexivity.
  assert (H3 : ScriptForm.blank "index funds" = false) by reflexivity.
  split; [exact H1 |]. split; [exact H2 |]. split; [exact H3 |].
  exact (handleSubmit_sends_typed_values ScriptForm.initial "Investing"
           "index funds" "" false
           (ScriptForm.FetchRejected (JS.ErrorObject "Failed to fetch"))
           H1 H2 H3).
Defined.

(** X13.  When a request was sent and no answer could be read, the error
    shown is the message of what was thrown if it is an [Error], and
    'Failed to generate content. Please try again.' otherwise; the form
    data are untouched.  The ten-second timer is still armed afterwards
    exactly when the [fetch] itself was rejected before the timer fired:
    [clearTimeout] is only reached after the [fetch] resolves. *)
Theorem handleSubmit_failure (st : ScriptForm.State) (slow : bool)
    (outcome : ScriptForm.FetchOutcome) :
  ScriptForm.sent (ScriptForm.handleSubmit st slow outcome) <> [] ->
  exists res,
    ScriptForm.handleSubmit st slow outcome = JS.Normal res
    /\ ScriptForm.formData (ScriptForm.state res) = ScriptForm.formData st
    /\ match outcome with
       | ScriptForm.FetchRejected e
       | ScriptForm.FetchResponse _ _ (ScriptForm.JsonRejected e) =>
           ScriptForm.error (ScriptForm.state res)
           = match e with
             | JS.ErrorObject message => message
             | JS.OtherThrown _ =>
                 "Failed to generate content. Please try again."
             end
       | ScriptForm.FetchResponse _ _ (ScriptForm.JsonNull typeError) =>
           ScriptForm.error (ScriptForm.state res) = typeError
       | _ => True
       end
    /\ (ScriptForm.timerArmed res = true
        <-> slow = false /\ exists e, outcome = ScriptForm.FetchRejected e).
Proof.
  intros Hsent.
  destruct (handleSubmit_sent_inv _ _ _ Hsent) as (t & k & Ht & Hk & Bt & Bk).
  unfold ScriptForm.handleSubmit. rewrite Ht, Hk, Bt, Bk.
  eexists. split; [reflexivity |]. simpl.
  split.
  - destruct outcome as [e | ok status [e | typeError | data]]; simpl;
      try destruct ok; destruct slow; reflexivity.
  - split.
    + destruct outcome as [e | ok status [e | typeError | data]]; simpl;
        try exact I; try destruct e; destruct slow; reflexivity.
    + destruct outcome as [e | ok status body]; simpl.
      * destruct slow; simpl; split.
        -- discriminate.
        -- intros [H _]. discriminate H.
        -- intros _. split; [reflexivity | now exists e].
        -- reflexivity.
      * split; [discriminate | intros [_ [e He]]; discriminate He].
Qed.

Lemma handleSubmit_failure_witness :
  let st := ScriptForm.handleInputChange "seoKeyword" "index funds"
              (ScriptForm.handleInputChange "topicTitle" "Investing"
                 ScriptForm.initial) in
  let outcome := ScriptForm.FetchRejected (JS.ErrorObject "Failed to fetch") in
  ScriptForm.sent (ScriptForm.handleSubmit st false outcome) <> []
  /\ exists res,
       ScriptForm.handleSubmit st false outcome = JS.Normal res
       /\ ScriptForm.error (ScriptForm.state res) = "Failed to fetch".
Proof.
  cbv zeta.
  assert (H : ScriptForm.sent
                (ScriptForm.handleSubmit
                   (ScriptForm.handleInputChange "seoKeyword" "index funds"
                      (ScriptForm.handleInputChange "topicTitle" "Investing"
                         ScriptForm.initial))
                   false
                   (ScriptForm.FetchRejected (JS.ErrorObject "Failed to fetch")))
                <> []) by (vm_compute; discriminate).
  split; [exact H |].
  destruct (handleSubmit_failure _ _ _ H) as (res & Hres & _ & Herr & _).
  exists res. split; [exact Hres | exact Herr].
Defined.

(** X14.  After a successful answer the error cell is not cleared again:
    it is empty when the answer came before the ten-second timer fired,
    and it still holds the notice 'This is taking longer than expected.
    Please wait while we generate your script...' when the timer fired
    first, although the content has been stored. *)
Theorem handleSubmit_success_error_cell (st : ScriptForm.State) (slow : bool)
    (status : N) (data : gmap string JS.Value) :
  ScriptForm.sent
    (ScriptForm.handleSubmit st slow
       (ScriptForm.FetchResponse true status (ScriptForm.JsonObject data)))
  <> [] ->
  exists res,
    ScriptForm.handleSubmit st slow
      (ScriptForm.FetchResponse true status (ScriptForm.JsonObject data))
    = JS.Normal res
    /\ ScriptForm.generatedScript (ScriptForm.state res)
       = ScriptForm.field data "script"
    /\ ScriptForm.error (ScriptForm.state res)
       = (if slow
          then "This is taking longer than expected. Please wait while we generate your script..."
          else "").
Proof.
  intros Hsent.
  destruct (handleSubmit_sent_inv _ _ _ Hsent) as (t & k & Ht & Hk & Bt & Bk).
  unfold ScriptForm.handleSubmit. rewrite Ht, Hk, Bt, Bk.
  eexists. split; [reflexivity |]. simpl.
  destruct slow; split; reflexivity.
Qed.

Lemma handleSubmit_success_error_cell_witness :
  let st := ScriptForm.handleInputChange "seoKeyword" "index funds"
              (ScriptForm.handleInputChange "topicTitle" "Investing"
                 ScriptForm.initial) in
  let outcome :=
    ScriptForm.FetchResponse true 200
      (ScriptForm.JsonObject (<["script" := JS.Str "# Intro"]> ∅)) in
  ScriptForm.sent (ScriptForm.handleSubmit st true outcome) <> []
  /\ exists res,
       ScriptForm.handleSubmit st true outcome = JS.Normal res
       /\ ScriptForm.generatedScript (ScriptForm.state res) = JS.Str "# Intro"
       /\ ScriptForm.error (ScriptForm.state res)
          = "This is taking longer than expected. Please wait while we generate your script...".
Proof.
  cbv zeta.
  assert (H : ScriptForm.sent
                (ScriptForm.handleSubmit
                   (ScriptForm.handleInputChange "seoKeyword" "index funds"
                      (ScriptForm.handleInputChange "topicTitle" "Investing"
                         ScriptForm.initial))
                   true
                   (ScriptForm.FetchResponse true 200
                      (ScriptForm.JsonObject
                         (<["script" := JS.Str "# Intro"]> ∅))))
                <> []) by (vm_compute; discriminate).
  split; [exact H |].
  destruct (handleSubmit_success_error_cell _ _ _ _ H)
    as (res & Hres & Hscript & Herr).
  exists res. split; [exact Hres |]. split; [| exact Herr].
  rewrite Hscript. reflexivity.
Defined.

(** ** The hook [useRecording] *)

(** X15.  In the hook, 'processing' is a passing state: whenever the
    recording state is 'processing', at least one call of [startRecording]
    or of [stopRecording] is waiting on the recorder, however many calls
    overlap; once none is waiting the state is idle, recording or
    paused. *)
Theorem hook_processing_is_transient (es : list Recorder.Hook.Event) :
  (Recorder.Hook.recordingState (Recorder.run Recorder.Hook.machine es)
   = Recorder.processing ->
   (0 < Recorder.Hook.starting (Recorder.run Recorder.Hook.machine es))%nat
   \/ (0 < Recorder.Hook.stopping (Recorder.run Recorder.Hook.machine es))%nat)
  /\ (Recorder.Hook.starting (Recorder.run Recorder.Hook.machine es) = 0%nat ->
      Recorder.Hook.stopping (Recorder.run Recorder.Hook.machine es) = 0%nat ->
      Recorder.threeValued
        (Recorder.Hook.recordingState
           (Recorder.run Recorder.Hook.machine es))).
Proof.
  assert (H : Recorder.threeValued
                (Recorder.Hook.recordingState
                   (Recorder.run Recorder.Hook.machine es))
              \/ (Recorder.Hook.recordingState
                    (Recorder.run Recorder.Hook.machine es)
                  = Recorder.processing
                  /\ ((0 < Recorder.Hook.starting
                              (Recorder.run Recorder.Hook.machine es))%nat
                      \/ (0 < Recorder.Hook.stopping
                                (Recorder.run Recorder.Hook.machine es))%nat))).
  { apply (run_invariant Recorder.Hook.machine
             (fun c =>
                Recorder.threeValued (Recorder.Hook.recordingState c)
                \/ (Recorder.Hook.recordingState c = Recorder.processing
                    /\ ((0 < Recorder.Hook.starting c)%nat
                        \/ (0 < Recorder.Hook.stopping c)%nat))));
      [left; apply threeValued_idle |].
    intros c e Hc. destruct e; simpl; try assumption;
      unfold Recorder.Hook.startRecording_begin,
        Recorder.Hook.startRecording_end, Recorder.Hook.stopRecording_begin,
        Recorder.Hook.stopRecording_end, Recorder.Hook.returnedPauseRecording;
      simpl;
      repeat match goal with
             | |- context [if ?b then _ else _] => destruct b eqn:?; simpl
             end;
      first [solve [auto with recorder]
            | right; split; [reflexivity | lia]
            | intuition congruence]. }
  split.
  - intros Hp. destruct H as [[H | [H | H]] | [_ H]];
      [congruence | congruence | congruence | exact H].
  - intros Hs Ht. destruct H as [H | [_ [H | H]]]; [exact H | lia | lia].
Qed.

(** Two calls of [startRecording] that overlap both run to their end: the
    state is 'processing' until the second has settled too, and what the
    last one to settle wrote stays. *)
Example hook_overlapping_starts :
  let run := Recorder.run Recorder.Hook.machine in
  Recorder.Hook.recordingState
    (run [Recorder.Hook.Mounted; Recorder.Hook.StartCalled true;
          Recorder.Hook.StartCalled true;
          Recorder.Hook.StartSettled true true; Recorder.Hook.PauseCalled;
          Recorder.Hook.StartSettled true true]) = Recorder.recording
  /\ Recorder.Hook.starting
       (run [Recorder.Hook.Mounted; Recorder.Hook.StartCalled true;
             Recorder.Hook.StartCalled true;
             Recorder.Hook.StartSettled true true]) = 1%nat.
Proof. split; reflexivity. Qed.

(** ** The duration timer of the hook *)

(** X16.  The time spent paused is not counted: when the recording is
    paused while the duration shows [D] seconds and resumed later, a tick
    [d] milliseconds after the resumption shows [D + floor(d / 1000)]
    seconds, whenever the pause and the resumption happened; ticks of an
    interval do nothing while paused. *)
Theorem hook_timer_skips_pause (c : HookTimer.Cells)
    (pausedAt resumedAt d tickedAt : Z) :
  (resumedAt - HookTimer.recordingDuration c * 1000 <> 0)%Z ->
  HookTimer.recordingDuration
    (HookTimer.tick (resumedAt + d)
       (HookTimer.resumeRecording resumedAt
          (HookTimer.tick tickedAt
             (HookTimer.pauseRecording pausedAt c))))
  = (HookTimer.recordingDuration c + d / 1000)%Z.
Proof.
  intros Hstart.
  unfold HookTimer.resumeRecording, HookTimer.pauseRecording,
    HookTimer.startTimer, HookTimer.tick. simpl.
  destruct (Z.eqb_spec (resumedAt - HookTimer.recordingDuration c * 1000) 0)
    as [H0 | _]; [contradiction |]. simpl.
  replace (resumedAt + d - (resumedAt - HookTimer.recordingDuration c * 1000))%Z
    with (HookTimer.recordingDuration c * 1000 + d)%Z by lia.
  apply Z.div_add_l. lia.
Qed.

Lemma hook_timer_skips_pause_witness :
  let c := HookTimer.tick 1709647632500
             (HookTimer.startRecording 1709647629042 HookTimer.initial) in
  (1709647700000 - HookTimer.recordingDuration c * 1000 <> 0)%Z
  /\ HookTimer.recordingDuration c = 3%Z
  /\ HookTimer.recordingDuration
       (HookTimer.tick (1709647700000 + 2100)
          (HookTimer.resumeRecording 1709647700000
             (HookTimer.tick 1709647650000
                (HookTimer.pauseRecording 1709647640000 c)))) = 5%Z.
Proof.
  cbv zeta.
  assert (H : (1709647700000
               - HookTimer.recordingDuration
                   (HookTimer.tick 1709647632500
                      (HookTimer.startRecording 1709647629042
                         HookTimer.initial)) * 1000 <> 0)%Z)
    by (vm_compute; discriminate).
  split; [exact H |]. split; [reflexivity |].
  rewrite (hook_timer_skips_pause _ 1709647640000 1709647700000 2100
             1709647650000 H).
  reflexivity.
Defined.

(** ** Editing the tags *)

(** X17.  Editing the tags is a round trip: opening the editor, typing a
    text and closing the editor saves exactly that text as the tags and
    leaves the editor closed; while the editor is open the saved tags do
    not change; opening and closing it without typing keeps them. *)
Theorem tags_edit_round_trip (e : Editing.Editor) (value : string) :
  Editing.isEditingTags e = false ->
  let opened := Editing.toggleTagsEditMode e in
  let typed := Editing.handleTagsEdit value opened in
  let closed := Editing.toggleTagsEditMode typed in
  ScriptForm.editableTags (Editing.form opened)
  = ScriptForm.youtubeTags (Editing.form e)
  /\ ScriptForm.youtubeTags (Editing.form typed)
     = ScriptForm.youtubeTags (Editing.form e)
  /\ ScriptForm.youtubeTags (Editing.form closed) = JS.Str value
  /\ Editing.isEditingTags closed = false
  /\ ScriptForm.youtubeTags
       (Editing.form (Editing.toggleTagsEditMode opened))
     = ScriptForm.youtubeTags (Editing.form e)
  /\ ScriptForm.generatedScript (Editing.form closed)
     = ScriptForm.generatedScript (Editing.form e)
  /\ ScriptForm.youtubeDescription (Editing.form closed)
     = ScriptForm.youtubeDescription (Editing.form e).
Proof.
  intros Hclosed. cbv zeta.
  unfold Editing.toggleTagsEditMode, Editing.handleTagsEdit. simpl.
  rewrite Hclosed. simpl. repeat split.
Qed.

Lemma tags_edit_round_trip_witness :
  Editing.isEditingTags
    {| Editing.form := ScriptForm.initial; Editing.isEditingTags := false |}
  = false
  /\ ScriptForm.youtubeTags
       (Editing.form
          (Editing.toggleTagsEditMode
             (Editing.handleTagsEdit "saving, index funds"
                (Editing.toggleTagsEditMode
                   {| Editing.form := ScriptForm.initial;
                      Editing.isEditingTags := false |}))))
     = JS.Str "saving, index funds".
Proof.
  assert (H : Editing.isEditingTags
                {| Editing.form := ScriptForm.initial;
                   Editing.isEditingTags := false |} = false)
    by reflexivity.
  split; [exact H |].
  exact (proj1 (proj2 (proj2
           (tags_edit_round_trip
              {| Editing.form := ScriptForm.initial;
                 Editing.isEditingTags := false |}
              "saving, index funds" H)))).
Defined.

(** ** The formatting buttons *)

Lemma substring_whole (s : string) :
  String.substring 0 (String.length s) s = s.
Proof. induction s as [|c s IH]; simpl; [reflexivity | now rewrite IH]. Qed.

Lemma substring_zero (n : nat) (s : string) : String.substring n 0 s = "".
Proof.
  revert n. induction s as [|c s IH]; intros [|n]; simpl;
    try reflexivity. apply IH.
Qed.

Lemma substring_three_parts (s : string) (a b : nat) :
  (a <= b)%nat -> (b <= String.length s)%nat ->
  s = String.substring 0 a s
        ++ String.substring a (b - a) s
        ++ String.substring b (String.length s - b) s.
Proof.
  revert a b. induction s as [|c s IH]; intros a b Hab Hb; simpl in Hb.
  - assert (b = 0)%nat as -> by lia. assert (a = 0)%nat as -> by lia.
    reflexivity.
  - destruct b as [|b].
    + assert (a = 0)%nat as -> by lia. simpl.
      now rewrite substring_whole.
    + destruct a as [|a].
      * simpl. f_equal.
        rewrite (IH 0%nat b) at 1 by lia.
        rewrite Nat.sub_0_r.
        replace (String.substring 0 0 s) with "" by (now destruct s).
        reflexivity.
      * simpl. f_equal. apply IH; lia.
Qed.

Lemma length_substring_at (s : string) (a m : nat) :
  (a + m <= String.length s)%nat ->
  String.length (String.substring a m s) = m.
Proof.
  revert a m. induction s as [|c s IH]; intros a m H; simpl in H.
  - assert (m = 0)%nat as -> by lia. now destruct a.
  - destruct a as [|a].
    + destruct m as [|m]; simpl; [reflexivity |]. f_equal. apply IH. lia.
    + simpl. apply IH. lia.
Qed.

Lemma append_empty_r (s : string) : s ++ "" = s.
Proof. induction s as [|c s IH]; simpl; [reflexivity | now rewrite IH]. Qed.

Lemma formatted_markers (format selected : string) :
  fst (Editing.formatted format selected)
  = fst (Editing.markers format) ++ selected ++ snd (Editing.markers format)
  /\ (snd (Editing.formatted format selected)
      + (if String.eqb format "color-red" || String.eqb format "color-blue"
         then 2 else 0)
      = String.length (fst (Editing.markers format)))%nat.
Proof.
  unfold Editing.formatted, Editing.markers, Editing.quote.
  repeat match goal with
         | |- context [String.eqb format ?s] =>
             destruct (String.eqb_spec format s) as [-> | _];
               [split; simpl; rewrite ?append_empty_r; reflexivity |]
         end.
  split; simpl; rewrite ?append_empty_r; reflexivity.
Qed.

Lemma markers_unknown (format : string) :
  ~ In format Editing.toolbar -> Editing.markers format = ("", "").
Proof.
  intros Hnot. unfold Editing.markers.
  repeat match goal with
         | |- context [String.eqb format ?s] =>
             destruct (String.eqb_spec format s) as [-> | _];
               [exfalso; apply Hnot; simpl; tauto |]
         end.
  reflexivity.
Qed.

(** X18.  A formatting button wraps the selection and touches nothing
    else: for a selection from [start] to [stop] inside the content, the
    new content is the text before the selection, the opening marker of
    the format, the selected text, the closing marker, and the text after
    it.  With a selection the cursor goes behind the closing marker;
    without one it goes behind the opening marker for the five markdown
    formats and two characters before its end for the two colours.  A
    format that no button has leaves the content unchanged. *)
Theorem insertFormatting_wraps_selection (format content : string)
    (start stop : nat) :
  (start <= stop)%nat -> (stop <= String.length content)%nat ->
  exists before selected after,
    content = before ++ selected ++ after
    /\ String.length before = start
    /\ String.length selected = (stop - start)%nat
    /\ Editing.insertFormatting format (Some (start, stop)) content
       = Some (before ++ fst (Editing.markers format) ++ selected
                 ++ snd (Editing.markers format) ++ after,
               if String.eqb selected ""
               then (start + String.length (fst (Editing.markers format))
                     - (if String.eqb format "color-red"
                           || String.eqb format "color-blue"
                        then 2 else 0))%nat
               else (start + String.length (fst (Editing.markers format))
                     + String.length selected
                     + String.length (snd (Editing.markers format)))%nat)
    /\ (~ In format Editing.toolbar ->
        Editing.insertFormatting format (Some (start, stop)) content
        = Some (content, stop)).
Proof.
  intros Hab Hb.
  exists (String.substring 0 start content),
    (String.substring start (stop - start) content),
    (String.substring stop (String.length content - stop) content).
  assert (Hsel : Editing.substring content start stop
                 = String.substring start (stop - start) content).
  { unfold Editing.substring. cbv zeta.
    rewrite (Nat.min_l start), (Nat.min_l stop), Nat.min_l, Nat.max_r by lia.
    reflexivity. }
  assert (Hbefore : Editing.substring content 0 start
                    = String.substring 0 start content).
  { unfold Editing.substring. cbv zeta.
    rewrite (Nat.min_l start), Nat.min_0_l, Nat.max_r, Nat.sub_0_r by lia.
    reflexivity. }
  assert (Hafter : Editing.substringFrom content stop
                   = String.substring stop (String.length content - stop)
                       content).
  { unfold Editing.substringFrom, Editing.substring. cbv zeta.
    rewrite (Nat.min_l stop), Nat.min_id, Nat.min_l, Nat.max_r by lia.
    reflexivity. }
  pose proof (substring_three_parts content start stop Hab Hb) as Hparts.
  pose proof (length_substring_at content 0 start ltac:(lia)) as Hlen1.
  pose proof (length_substring_at content start (stop - start) ltac:(lia))
    as Hlen2.
  assert (Hcall :
    Editing.insertFormatting format (Some (start, stop)) content
    = Some (String.substring 0 start content ++ fst (Editing.markers format)
              ++ String.substring start (stop - start) content
              ++ snd (Editing.markers format)
              ++ String.substring stop (String.length content - stop) content,
            if String.eqb (String.substring start (stop - start) content) ""
            then (start + String.length (fst (Editing.markers format))
                  - (if String.eqb format "color-red"
                        || String.eqb format "color-blue"
                     then 2 else 0))%nat
            else (start + String.length (fst (Editing.markers format))
                  + String.length
                      (String.substring start (stop - start) content)
                  + String.length (snd (Editing.markers format)))%nat)).
  { unfold Editing.insertFormatting. rewrite Hsel, Hbefore, Hafter.
    destruct (formatted_markers format
                (String.substring start (stop - start) content))
      as [Htext Hoffset].
    destruct (Editing.formatted format
                (String.substring start (stop - start) content))
      as [formattedText cursorOffset].
    simpl in Htext, Hoffset. subst formattedText.
    f_equal. f_equal.
    - now rewrite !append_assoc.
    - destruct (String.eqb (String.substring start (stop - start) content) "");
        simpl.
      + lia.
      + rewrite !length_append. lia. }
  split; [exact Hparts |]. split; [exact Hlen1 |]. split; [exact Hlen2 |].
  split; [exact Hcall |].
  intros Hnot. rewrite Hcall, (markers_unknown _ Hnot). simpl.
  rewrite <- Hparts. f_equal. f_equal.
  destruct (String.eqb_spec (String.substring start (stop - start) content) "")
    as [Hempty | _].
  - rewrite Hempty in Hlen2. simpl in Hlen2.
    destruct (String.eqb_spec format "color-red") as [-> | _];
      [exfalso; apply Hnot; simpl; tauto |].
    destruct (String.eqb_spec format "color-blue") as [-> | _];
      [exfalso; apply Hnot; simpl; tauto |].
    simpl. lia.
  - rewrite Hlen2. lia.
Qed.

Lemma insertFormatting_wraps_selection_witness :
  (4 <= 9)%nat /\ (9 <= String.length "Buy index funds")%nat
  /\ Editing.insertFormatting "bold" (Some (4, 9)%nat) "Buy index funds"
     = Some ("Buy **index** funds", 13%nat).
Proof.
  assert (H1 : (4 <= 9)%nat) by lia.
  assert (H2 : (9 <= String.length "Buy index funds")%nat) by (simpl; lia).
  split; [exact H1 |]. split; [exact H2 |].
  destruct (insertFormatting_wraps_selection "bold" "Buy index funds" 4 9
              H1 H2) as (before & selected & after & _ & _ & _ & _ & _).
  reflexivity.
Defined.

(** ** Adding the audio tracks of one stream to another *)

Lemma sameTrack_eq (a b : TrackSet.Track) :
  TrackSet.sameTrack a b = true <-> a = b.
Proof.
  destruct a as [ia ka], b as [ib kb]. unfold TrackSet.sameTrack. simpl.
  rewrite andb_true_iff, String.eqb_eq. split.
  - intros [-> H]. destruct ka, kb; try discriminate H; reflexivity.
  - intros H. injection H as -> ->.
    split; [reflexivity | destruct kb; reflexivity].
Qed.

Lemma includes_In (ids : list string) (x : string) :
  TrackSet.includes ids x = true <-> In x ids.
Proof.
  unfold TrackSet.includes. rewrite existsb_exists. split.
  - intros [y [Hy Heq]]. apply String.eqb_eq in Heq. now subst.
  - intros H. exists x. split; [exact H | apply String.eqb_refl].
Qed.

Lemma addTrack_spec (t : TrackSet.Track) (s : list TrackSet.Track) :
  exists added,
    TrackSet.addTrack t s = (s ++ added)%list
    /\ (forall x, In x added -> x = t)
    /\ In t (TrackSet.addTrack t s).
Proof.
  unfold TrackSet.addTrack.
  destruct (existsb (TrackSet.sameTrack t) s) eqn:H.
  - exists []. rewrite app_nil_r. split; [reflexivity |].
    split; [intros x [] |].
    apply existsb_exists in H. destruct H as [y [Hy Hs]].
    apply sameTrack_eq in Hs. now subst.
  - exists [t]. split; [reflexivity |]. split.
    + intros x [<- | []]. reflexivity.
    + apply in_or_app. right. left. reflexivity.
Qed.

Lemma addMissing_fold (ids : list string) (audioTracks : list TrackSet.Track)
    (acc : list TrackSet.Track * nat) :
  exists added,
    fst (List.fold_left
           (fun acc track =>
              if negb (TrackSet.includes ids (TrackSet.id track))
              then (TrackSet.addTrack track (fst acc), S (snd acc))
              else acc)
           audioTracks acc)
    = (fst acc ++ added)%list
    /\ (forall t, In t added ->
          In t audioTracks /\ TrackSet.includes ids (TrackSet.id t) = false)
    /\ snd (List.fold_left
              (fun acc track =>
                 if negb (TrackSet.includes ids (TrackSet.id track))
                 then (TrackSet.addTrack track (fst acc), S (snd acc))
                 else acc)
              audioTracks acc)
       = (snd acc
          + length (List.filter
                      (fun t => negb (TrackSet.includes ids (TrackSet.id t)))
                      audioTracks))%nat
    /\ (forall t, In t audioTracks ->
          TrackSet.includes ids (TrackSet.id t) = false ->
          In t (fst (List.fold_left
                       (fun acc track =>
                          if negb (TrackSet.includes ids (TrackSet.id track))
                          then (TrackSet.addTrack track (fst acc), S (snd acc))
                          else acc)
                       audioTracks acc))).
Proof.
  revert acc. induction audioTracks as [|t rest IH]; intros acc.
  - exists []. simpl. rewrite app_nil_r.
    split; [reflexivity |]. split; [intros x [] |].
    split; [lia | intros x []].
  - simpl. destruct (TrackSet.includes ids (TrackSet.id t)) eqn:Hin; simpl.
    + destruct (IH acc) as (added & H1 & H2 & H3 & H4).
      exists added. split; [exact H1 |]. split.
      * intros x Hx. destruct (H2 x Hx) as [Ha Hb]. split; [now right | exact Hb].
      * split; [exact H3 |]. intros x [<- | Hx] Hx'; [congruence |].
        now apply H4.
    + destruct (IH (TrackSet.addTrack t (fst acc), S (snd acc)))
        as (added & H1 & H2 & H3 & H4).
      destruct (addTrack_spec t (fst acc)) as (a0 & Ha0 & Hall & Hmem).
      simpl in H1, H3, H4.
      exists (a0 ++ added)%list. split.
      * rewrite H1, Ha0. now rewrite <- app_assoc.
      * split.
        -- intros x Hx. apply in_app_or in Hx. destruct Hx as [Hx | Hx].
           ++ apply Hall in Hx. subst x. split; [now left | exact Hin].
           ++ destruct (H2 x Hx) as [Ha Hb]. split; [now right | exact Hb].
        -- split; [rewrite H3; lia |].
           intros x [<- | Hx] Hx'.
           ++ rewrite H1. apply in_or_app. left. exact Hmem.
           ++ now apply H4.
Qed.

Lemma addMissing_spec (ids : list string)
    (audioTracks target : list TrackSet.Track) :
  exists added,
    TrackSet.addMissing ids audioTracks target
    = ((target ++ added)%list,
       length (List.filter
                 (fun t => negb (TrackSet.includes ids (TrackSet.id t)))
                 audioTracks))
    /\ (forall t, In t added ->
          In t audioTracks /\ TrackSet.includes ids (TrackSet.id t) = false)
    /\ (forall t, In t audioTracks ->
          TrackSet.includes ids (TrackSet.id t) = false ->
          In t (target ++ added)%list).
Proof.
  destruct (addMissing_fold ids audioTracks (target, 0%nat))
    as (added & H1 & H2 & H3 & H4).
  exists added. unfold TrackSet.addMissing. simpl in H1, H3.
  split; [| split; [exact H2 |]].
  - rewrite <- H1, <- H3. now destruct (List.fold_left _ _ _).
  - intros t Ht Hn. rewrite <- H1. now apply H4.
Qed.

Lemma missing_positive (ids : list string) (audioTracks : list TrackSet.Track) :
  (0 <? length (List.filter
                  (fun t => negb (TrackSet.includes ids (TrackSet.id t)))
                  audioTracks))%nat = true
  <-> exists track, In track audioTracks /\ ~ In (TrackSet.id track) ids.
Proof.
  rewrite Nat.ltb_lt. split.
  - intros H.
    destruct (List.filter _ audioTracks) as [|t r] eqn:Hf;
      [simpl in H; lia |].
    assert (Ht : In t (List.filter
                         (fun t => negb (TrackSet.includes ids (TrackSet.id t)))
                         audioTracks)) by (rewrite Hf; now left).
    apply List.filter_In in Ht. destruct Ht as [Ht Hn].
    exists t. split; [exact Ht |]. intros Hi. apply includes_In in Hi.
    rewrite Hi in Hn. discriminate Hn.
  - intros [t [Ht Hn]].
    assert (Hf : In t (List.filter
                         (fun t => negb (TrackSet.includes ids (TrackSet.id t)))
                         audioTracks)).
    { apply List.filter_In. split; [exact Ht |].
      destruct (TrackSet.includes ids (TrackSet.id t)) eqn:Hi;
        [| reflexivity].
      apply includes_In in Hi. contradiction. }
    destruct (List.filter _ audioTracks); [destruct Hf | simpl; lia].
Qed.

(** X19.  What the two versions of [ensureAudioTracks] answer.  The one
    of the audio utilities answers true exactly when both streams are
    there and the source has an audio track, whether or not anything was
    added.  The one of the audio processor answers true exactly when, in
    addition, the source has an audio track whose id no audio track of
    the target has. *)
Theorem ensureAudioTracks_answers
    (sourceStream targetStream : option (list TrackSet.Track)) :
  (snd (AudioUtils.ensureAudioTracks sourceStream targetStream) = true
   <-> exists source target,
         sourceStream = Some source /\ targetStream = Some target
         /\ TrackSet.getAudioTracks source <> [])
  /\ (snd (AudioProcessor.ensureAudioTracks sourceStream targetStream) = true
      <-> exists source target track,
            sourceStream = Some source /\ targetStream = Some target
            /\ In track (TrackSet.getAudioTracks source)
            /\ ~ In (TrackSet.id track)
                 (List.map TrackSet.id (TrackSet.getAudioTracks target))).
Proof.
  destruct sourceStream as [source|], targetStream as [target|]; simpl;
    try (split; split;
         [discriminate | intros (s & t & H); destruct H as (H1 & H2 & _);
                         discriminate
         | discriminate | intros (s & t & tr & H);
                          destruct H as (H1 & H2 & _); discriminate]).
  destruct (addMissing_spec
              (List.map TrackSet.id (TrackSet.getAudioTracks target))
              (TrackSet.getAudioTracks source) target)
    as (added & Hcall & _ & _).
  rewrite Hcall.
  destruct (length (TrackSet.getAudioTracks source) =? 0)%nat eqn:Hlen.
  - apply Nat.eqb_eq, length_zero_iff_nil in Hlen.
    cbn [snd]. split; split; try discriminate.
    + intros (s & t & H1 & H2 & H3). injection H1 as <-.
      now contradiction H3.
    + intros (s & t & tr & H1 & H2 & H3 & _). injection H1 as <-.
      rewrite Hlen in H3. destruct H3.
  - apply Nat.eqb_neq in Hlen. cbn [snd].
    assert (Haudio : TrackSet.getAudioTracks source <> []).
    { intros H. apply Hlen. now rewrite H. }
    split.
    + split.
      * intros _. exists source, target.
        split; [reflexivity |]. split; [reflexivity | exact Haudio].
      * intros _. apply orb_true_iff.
        destruct (TrackSet.getAudioTracks source) as [|t0 rest] eqn:Hs;
          [now contradiction Haudio |].
        destruct (TrackSet.includes
                    (List.map TrackSet.id (TrackSet.getAudioTracks target))
                    (TrackSet.id t0)) eqn:Hin.
        -- right. apply includes_In in Hin. apply Nat.ltb_lt.
           destruct (TrackSet.getAudioTracks target); [destruct Hin |].
           simpl. lia.
        -- left. apply missing_positive. exists t0.
           split; [now left |]. intros Hi. apply includes_In in Hi.
           congruence.
    + rewrite missing_positive. split.
      * intros (tr & Htr & Hn). exists source, target, tr.
        repeat split; assumption.
      * intros (s & t & tr & H1 & H2 & H3 & H4).
        injection H1 as <-. injection H2 as <-.
        exists tr. split; assumption.
Qed.

Lemma filter_none (A : Type) (f : A -> bool) (l : list A) :
  (forall x, In x l -> f x = false) -> List.filter f l = [].
Proof.
  induction l as [|x l IH]; intros H; simpl; [reflexivity |].
  rewrite (H x) by now left. apply IH. intros y Hy. apply H. now right.
Qed.

(** X20.  Both versions of [ensureAudioTracks] change the target in the
    same way: the tracks it had stay where they were, and behind them
    come audio tracks of the source whose id the target did not have, so
    that afterwards the id of every audio track of the source is the id
    of an audio track of the target.  A second call adds nothing: the
    version of the audio processor then answers false, the version of
    the audio utilities still answers true. *)
Theorem ensureAudioTracks_adds_once (source target : list TrackSet.Track) :
  TrackSet.getAudioTracks source <> [] ->
  exists added,
    fst (AudioProcessor.ensureAudioTracks (Some source) (Some target))
    = Some (target ++ added)%list
    /\ fst (AudioUtils.ensureAudioTracks (Some source) (Some target))
       = Some (target ++ added)%list
    /\ (forall track, In track added ->
          In track (TrackSet.getAudioTracks source)
          /\ ~ In (TrackSet.id track)
               (List.map TrackSet.id (TrackSet.getAudioTracks target)))
    /\ (forall track, In track (TrackSet.getAudioTracks source) ->
          In (TrackSet.id track)
            (List.map TrackSet.id
               (TrackSet.getAudioTracks (target ++ added)%list)))
    /\ AudioProcessor.ensureAudioTracks (Some source)
         (Some (target ++ added)%list)
       = (Some (target ++ added)%list, false)
    /\ AudioUtils.ensureAudioTracks (Some source)
         (Some (target ++ added)%list)
       = (Some (target ++ added)%list, true).
Proof.
  intros Haudio.
  destruct (addMissing_spec
              (List.map TrackSet.id (TrackSet.getAudioTracks target))
              (TrackSet.getAudioTracks source) target)
    as (added & Hcall & Hadded & Hmem).
  exists added.
  assert (Hlen : (length (TrackSet.getAudioTracks source) =? 0)%nat = false).
  { destruct (TrackSet.getAudioTracks source); [now contradiction Haudio |].
    reflexivity. }
  assert (Hafter : forall track,
             In track (TrackSet.getAudioTracks source) ->
             In (TrackSet.id track)
               (List.map TrackSet.id
                  (TrackSet.getAudioTracks (target ++ added)%list))).
  { intros track Htrack.
    destruct (TrackSet.includes
                (List.map TrackSet.id (TrackSet.getAudioTracks target))
                (TrackSet.id track)) eqn:Hin.
    - apply includes_In in Hin. unfold TrackSet.getAudioTracks.
      rewrite List.filter_app, List.map_app. apply in_or_app. now left.
    - apply in_map. apply List.filter_In. split.
      + now apply Hmem.
      + apply List.filter_In in Htrack. apply Htrack. }
  assert (Hsecond :
    TrackSet.addMissing
      (List.map TrackSet.id (TrackSet.getAudioTracks (target ++ added)%list))
      (TrackSet.getAudioTracks source) (target ++ added)%list
    = ((target ++ added)%list, 0%nat)).
  { destruct (addMissing_spec
                (List.map TrackSet.id
                   (TrackSet.getAudioTracks (target ++ added)%list))
                (TrackSet.getAudioTracks source) (target ++ added)%list)
      as (added' & Hcall' & Hadded' & _).
    rewrite Hcall'.
    assert (Hnone : added' = []).
    { destruct added' as [|x r]; [reflexivity |].
      destruct (Hadded' x (or_introl eq_refl)) as [Hx Hn].
      apply Hafter in Hx. apply includes_In in Hx. congruence. }
    rewrite Hnone, app_nil_r. f_equal.
    rewrite filter_none; [reflexivity |].
    intros x Hx. apply Hafter in Hx. apply includes_In in Hx.
    now rewrite Hx. }
  unfold AudioProcessor.ensureAudioTracks, AudioUtils.ensureAudioTracks.
  rewrite Hlen, Hcall, Hsecond. simpl.
  split; [reflexivity |]. split; [reflexivity |].
  split.
  { intros track Htrack. destruct (Hadded track Htrack) as [H1 H2].
    split; [exact H1 |]. intros Hi. apply includes_In in Hi. congruence. }
  split; [exact Hafter |]. split; [reflexivity |].
  f_equal. apply Nat.ltb_lt.
  destruct (TrackSet.getAudioTracks source) as [|t0 rest] eqn:Hs;
    [now contradiction Haudio |].
  pose proof (Hafter t0 (or_introl eq_refl)) as Hin.
  destruct (TrackSet.getAudioTracks (target ++ added)%list);
    [destruct Hin | simpl; lia].
Qed.

Lemma ensureAudioTracks_adds_once_witness :
  let microphone :=
    {| TrackSet.id := "mic-1"; TrackSet.kind := MediaUtils.audio |} in
  let canvas :=
    {| TrackSet.id := "canvas-1"; TrackSet.kind := MediaUtils.video |} in
  TrackSet.getAudioTracks [microphone] <> []
  /\ AudioProcessor.ensureAudioTracks (Some [microphone]) (Some [canvas])
     = (Some [canvas; microphone], true)
  /\ AudioProcessor.ensureAudioTracks (Some [microphone])
       (Some [canvas; microphone])
     = (Some [canvas; microphone], false).
Proof.
  cbv zeta.
  assert (H : TrackSet.getAudioTracks
                [ {| TrackSet.id := "mic-1";
                     TrackSet.kind := MediaUtils.audio |} ] <> [])
    by (simpl; discriminate).
  split; [exact H |].
  destruct (ensureAudioTracks_adds_once
              [ {| TrackSet.id := "mic-1"; TrackSet.kind := MediaUtils.audio |} ]
              [ {| TrackSet.id := "canvas-1";
                   TrackSet.kind := MediaUtils.video |} ] H)
    as (added & _).
  split; reflexivity.
Defined.

(** ** The status of the tracks of a stream *)

Lemma checkVideo_loop (l : list VideoTrackProcessor.Track) :
  forall (index : nat) (videoHealthy : bool) (details : list string),
  exists lines,
    VideoTrackProcessor.forEachFrom VideoTrackProcessor.checkVideo index l
      (videoHealthy, details)
    = (videoHealthy
       && forallb (fun t => VideoTrackProcessor.enabled t
                            && negb (VideoTrackProcessor.muted t)) l,
       (details ++ lines)%list)
    /\ length lines
       = (length l
          + length (List.filter
                      (fun t => negb (VideoTrackProcessor.enabled t)) l)
          + length (List.filter VideoTrackProcessor.muted l))%nat.
Proof.
  induction l as [|t l IH]; intros index h d.
  - exists []. simpl. now rewrite app_nil_r, andb_true_r.
  - cbn [VideoTrackProcessor.forEachFrom].
    destruct (VideoTrackProcessor.checkVideo (h, d) index t) as [h' d'] eqn:Hacc.
    destruct (IH (S index) h' d') as (lines & Heq & Hlen). rewrite Heq.
    unfold VideoTrackProcessor.checkVideo in Hacc.
    destruct (VideoTrackProcessor.enabled t) eqn:He,
      (VideoTrackProcessor.muted t) eqn:Hm;
      simpl in Hacc; injection Hacc as <- <-; eexists;
      (split;
       [f_equal;
        [simpl; rewrite He, Hm; destruct h; reflexivity
        | rewrite <- ?app_assoc; reflexivity]
       | simpl; rewrite He, Hm; simpl; rewrite ?length_app; simpl; lia]).
Qed.

Lemma checkAudio_loop (l : list VideoTrackProcessor.Track) :
  forall (index : nat) (audioHealthy allMuted : bool) (details : list string),
  exists lines,
    VideoTrackProcessor.forEachFrom VideoTrackProcessor.checkAudio index l
      (audioHealthy, allMuted, details)
    = (audioHealthy && forallb VideoTrackProcessor.enabled l,
       allMuted && forallb VideoTrackProcessor.muted l,
       (details ++ lines)%list)
    /\ length lines
       = (length l
          + length (List.filter
                      (fun t => negb (VideoTrackProcessor.enabled t)) l))%nat.
Proof.
  induction l as [|t l IH]; intros index h m d.
  - exists []. simpl. now rewrite app_nil_r, !andb_true_r.
  - cbn [VideoTrackProcessor.forEachFrom].
    destruct (VideoTrackProcessor.checkAudio (h, m, d) index t)
      as [[h' m'] d'] eqn:Hacc.
    destruct (IH (S index) h' m' d') as (lines & Heq & Hlen). rewrite Heq.
    unfold VideoTrackProcessor.checkAudio in Hacc.
    destruct (VideoTrackProcessor.enabled t) eqn:He,
      (VideoTrackProcessor.muted t) eqn:Hm;
      simpl in Hacc; injection Hacc as <- <- <-; eexists;
      (split;
       [f_equal;
        [f_equal; simpl; rewrite ?He, ?Hm;
         [destruct h; reflexivity | destruct m; reflexivity]
        | rewrite <- ?app_assoc; reflexivity]
       | simpl; rewrite He; simpl; rewrite ?length_app; simpl; lia]).
Qed.

(** X21.  What [getTracksStatus] reports of a stream.  The stream is
    healthy exactly when it has a video track, every video track is
    enabled and not muted, and every audio track is enabled: a muted
    audio track does not make it unhealthy, and a stream without video is
    never healthy.  It is reported muted exactly when it has an audio
    track and all its audio tracks are muted.  The details hold one line
    for each track and one more for each disabled track and each muted
    video track. *)
Theorem getTracksStatus_summary (s : list VideoTrackProcessor.Track) :
  let status := VideoTrackProcessor.getTracksStatus (Some s) in
  let video := VideoTrackProcessor.getVideoTracks s in
  let audio_ := VideoTrackProcessor.getAudioTracks s in
  VideoTrackProcessor.healthy status
  = (0 <? length video)%nat
    && forallb (fun t => VideoTrackProcessor.enabled t
                         && negb (VideoTrackProcessor.muted t)) video
    && forallb VideoTrackProcessor.enabled audio_
  /\ VideoTrackProcessor.allMuted status
     = (0 <? length audio_)%nat && forallb VideoTrackProcessor.muted audio_
  /\ VideoTrackProcessor.videoTracks status = length video
  /\ VideoTrackProcessor.audioTracks status = length audio_
  /\ length (VideoTrackProcessor.details status)
     = (length video + length audio_
        + length (List.filter
                    (fun t => negb (VideoTrackProcessor.enabled t)) video)
        + length (List.filter VideoTrackProcessor.muted video)
        + length (List.filter
                    (fun t => negb (VideoTrackProcessor.enabled t)) audio_))%nat.
Proof.
  cbv zeta. unfold VideoTrackProcessor.getTracksStatus.
  destruct (checkVideo_loop (VideoTrackProcessor.getVideoTracks s) 0 true [])
    as (vlines & Hv & Hvlen).
  rewrite Hv.
  destruct (checkAudio_loop (VideoTrackProcessor.getAudioTracks s) 0 true
              (0 <? length (VideoTrackProcessor.getAudioTracks s))%nat
              ([] ++ vlines)%list)
    as (alines & Ha & Halen).
  rewrite Ha. simpl.
  split.
  { destruct (0 <? length (VideoTrackProcessor.getVideoTracks s))%nat,
      (forallb _ (VideoTrackProcessor.getVideoTracks s)),
      (forallb _ (VideoTrackProcessor.getAudioTracks s)); reflexivity. }
  split; [reflexivity |]. split; [reflexivity |]. split; [reflexivity |].
  rewrite length_app. lia.
Qed.

(** ** Pulsing the video track *)

Lemma isVideo_setEnabled (b : bool) (t : VideoTrackProcessor.Track) :
  VideoTrackProcessor.isVideo (VideoTrackProcessor.setEnabled b t)
  = VideoTrackProcessor.isVideo t.
Proof. reflexivity. Qed.

Lemma updateFirstVideo_twice (b c : bool) (s : list VideoTrackProcessor.Track) :
  VideoTrackProcessor.updateFirstVideo (VideoTrackProcessor.setEnabled b)
    (VideoTrackProcessor.updateFirstVideo (VideoTrackProcessor.setEnabled c) s)
  = VideoTrackProcessor.updateFirstVideo (VideoTrackProcessor.setEnabled b) s.
Proof.
  induction s as [|t s IH]; simpl; [reflexivity |].
  destruct (VideoTrackProcessor.isVideo t) eqn:Hv; simpl.
  - rewrite isVideo_setEnabled, Hv. reflexivity.
  - rewrite Hv, IH. reflexivity.
Qed.

Lemma updateFirstVideo_same (s : list VideoTrackProcessor.Track)
    (t : VideoTrackProcessor.Track) (r : list VideoTrackProcessor.Track) :
  VideoTrackProcessor.getVideoTracks s = t :: r ->
  VideoTrackProcessor.updateFirstVideo
    (VideoTrackProcessor.setEnabled (VideoTrackProcessor.enabled t)) s = s.
Proof.
  unfold VideoTrackProcessor.getVideoTracks.
  induction s as [|x s IH]; simpl; [discriminate |].
  destruct (VideoTrackProcessor.isVideo x) eqn:Hv.
  - intros H. injection H as -> _. now destruct t.
  - intros H. now rewrite IH.
Qed.

Lemma getVideoTracks_update (b : bool) (s : list VideoTrackProcessor.Track) :
  VideoTrackProcessor.getVideoTracks
    (VideoTrackProcessor.updateFirstVideo (VideoTrackProcessor.setEnabled b) s)
  = match VideoTrackProcessor.getVideoTracks s with
    | [] => []
    | t :: r => VideoTrackProcessor.setEnabled b t :: r
    end.
Proof.
  unfold VideoTrackProcessor.getVideoTracks.
  induction s as [|x s IH]; simpl; [reflexivity |].
  destruct (VideoTrackProcessor.isVideo x) eqn:Hv; simpl.
  - now rewrite isVideo_setEnabled, Hv.
  - now rewrite Hv, IH.
Qed.

Lemma pulse_then_fire (p : VideoTrackProcessor.Pulsing) :
  VideoTrackProcessor.timers p = [] ->
  VideoTrackProcessor.stream
    (VideoTrackProcessor.timerFires (VideoTrackProcessor.pulseTrack p))
  = VideoTrackProcessor.stream p
  /\ VideoTrackProcessor.timers
       (VideoTrackProcessor.timerFires (VideoTrackProcessor.pulseTrack p))
     = [].
Proof.
  intros Ht. unfold VideoTrackProcessor.pulseTrack.
  destruct (VideoTrackProcessor.stream p) as [s|] eqn:Hs.
  - destruct (VideoTrackProcessor.getVideoTracks s) as [|t r] eqn:Hv.
    + unfold VideoTrackProcessor.timerFires. rewrite Ht. now rewrite Hs.
    + unfold VideoTrackProcessor.timerFires. simpl. rewrite Ht. simpl.
      rewrite updateFirstVideo_twice, (updateFirstVideo_same s t r Hv).
      split; reflexivity.
  - unfold VideoTrackProcessor.timerFires. rewrite Ht. now rewrite Hs.
Qed.

(** X22.  Pulses that do not overlap change nothing: when no timer of
    [pulseTrack] is waiting, any number of pulses, each followed by its
    timer before the next begins, leaves every track of the stream as it
    was, and no timer waiting. *)
Theorem pulseTrack_restores (n : nat) (p : VideoTrackProcessor.Pulsing) :
  VideoTrackProcessor.timers p = [] ->
  VideoTrackProcessor.stream
    (VideoTrackProcessor.times n
       (fun p => VideoTrackProcessor.timerFires
                   (VideoTrackProcessor.pulseTrack p)) p)
  = VideoTrackProcessor.stream p
  /\ VideoTrackProcessor.timers
       (VideoTrackProcessor.times n
          (fun p => VideoTrackProcessor.timerFires
                      (VideoTrackProcessor.pulseTrack p)) p)
     = [].
Proof.
  revert p. induction n as [|n IH]; intros p Ht; simpl.
  - split; [reflexivity | exact Ht].
  - destruct (pulse_then_fire p Ht) as [Hs Ht'].
    destruct (IH _ Ht') as [H1 H2].
    split; [now rewrite H1 | exact H2].
Qed.

Lemma pulseTrack_restores_witness :
  let camera :=
    {| VideoTrackProcessor.kind := MediaUtils.video;
       VideoTrackProcessor.label := "canvas";
       VideoTrackProcessor.enabled := true;
       VideoTrackProcessor.muted := false;
       VideoTrackProcessor.readyState := "live" |} in
  let p := {| VideoTrackProcessor.stream := Some [camera];
              VideoTrackProcessor.timers := [];
              VideoTrackProcessor.events := [] |} in
  VideoTrackProcessor.timers p = []
  /\ VideoTrackProcessor.stream
       (VideoTrackProcessor.times 6
          (fun p => VideoTrackProcessor.timerFires
                      (VideoTrackProcessor.pulseTrack p)) p)
     = Some [camera].
Proof.
  cbv zeta.
  assert (H : VideoTrackProcessor.timers
                {| VideoTrackProcessor.stream :=
                     Some [ {| VideoTrackProcessor.kind := MediaUtils.video;
                               VideoTrackProcessor.label := "canvas";
                               VideoTrackProcessor.enabled := true;
                               VideoTrackProcessor.muted := false;
                               VideoTrackProcessor.readyState := "live" |} ];
                   VideoTrackProcessor.timers := [];
                   VideoTrackProcessor.events := [] |} = [])
    by reflexivity.
  split; [exact H |].
  exact (proj1 (pulseTrack_restores 6 _ H)).
Defined.

Lemma pulse_first (p : VideoTrackProcessor.Pulsing)
    (s : list VideoTrackProcessor.Track) (e : bool) :
  VideoTrackProcessor.stream p = Some s ->
  VideoTrackProcessor.firstVideoEnabled p = Some e ->
  VideoTrackProcessor.stream (VideoTrackProcessor.pulseTrack p)
  = Some (VideoTrackProcessor.updateFirstVideo
            (VideoTrackProcessor.setEnabled false) s)
  /\ VideoTrackProcessor.timers (VideoTrackProcessor.pulseTrack p)
     = (VideoTrackProcessor.timers p ++ [e])%list
  /\ VideoTrackProcessor.firstVideoEnabled (VideoTrackProcessor.pulseTrack p)
     = Some false.
Proof.
  intros Hs He. unfold VideoTrackProcessor.firstVideoEnabled in *.
  unfold VideoTrackProcessor.pulseTrack. rewrite Hs in *.
  destruct (VideoTrackProcessor.getVideoTracks s) as [|t r] eqn:Hv;
    [discriminate He |].
  simpl in He. injection He as <-. simpl.
  rewrite getVideoTracks_update, Hv. repeat split.
Qed.

Lemma pulses_when_disabled (m : nat) :
  forall (p : VideoTrackProcessor.Pulsing) (s : list VideoTrackProcessor.Track),
  VideoTrackProcessor.stream p = Some s ->
  VideoTrackProcessor.firstVideoEnabled p = Some false ->
  VideoTrackProcessor.stream
    (VideoTrackProcessor.times m VideoTrackProcessor.pulseTrack p) = Some s
  /\ VideoTrackProcessor.timers
       (VideoTrackProcessor.times m VideoTrackProcessor.pulseTrack p)
     = (VideoTrackProcessor.timers p ++ List.repeat false m)%list.
Proof.
  induction m as [|m IH]; intros p s Hs He; simpl.
  - rewrite app_nil_r. split; [exact Hs | reflexivity].
  - destruct (pulse_first p s false Hs He) as (H1 & H2 & H3).
    assert (Hsame : VideoTrackProcessor.updateFirstVideo
                      (VideoTrackProcessor.setEnabled false) s = s).
    { unfold VideoTrackProcessor.firstVideoEnabled in He. rewrite Hs in He.
      destruct (VideoTrackProcessor.getVideoTracks s) as [|t r] eqn:Hv;
        [discriminate He |].
      simpl in He. injection He as He.
      rewrite <- He at 1. exact (updateFirstVideo_same s t r Hv). }
    rewrite Hsame in H1.
    destruct (IH _ s H1 H3) as [H4 H5].
    split; [exact H4 |]. rewrite H5, H2, <- app_assoc. reflexivity.
Qed.

Lemma last_map_Some (l : list bool) :
  forall x, exists e, List.last (List.map Some (x :: l)) None = Some e.
Proof.
  induction l as [|y l IH]; intros x; [now exists x |].
  destruct (IH y) as [e He]. exists e. exact He.
Qed.

Lemma fires_all (l : list bool) :
  forall (p : VideoTrackProcessor.Pulsing) (s : list VideoTrackProcessor.Track),
  VideoTrackProcessor.timers p = l ->
  VideoTrackProcessor.stream p = Some s ->
  VideoTrackProcessor.stream
    (VideoTrackProcessor.times (length l) VideoTrackProcessor.timerFires p)
  = Some (match List.last (List.map Some l) None with
          | Some e =>
              VideoTrackProcessor.updateFirstVideo
                (VideoTrackProcessor.setEnabled e) s
          | None => s
          end)
  /\ VideoTrackProcessor.timers
       (VideoTrackProcessor.times (length l) VideoTrackProcessor.timerFires p)
     = [].
Proof.
  induction l as [|e l IH]; intros p s Ht Hs.
  - simpl. split; [exact Hs | exact Ht].
  - change (length (e :: l)) with (S (length l)).
    cbn [VideoTrackProcessor.times].
    assert (Ht' : VideoTrackProcessor.timers
                    (VideoTrackProcessor.timerFires p) = l).
    { unfold VideoTrackProcessor.timerFires. now rewrite Ht. }
    assert (Hs' : VideoTrackProcessor.stream
                    (VideoTrackProcessor.timerFires p)
                  = Some (VideoTrackProcessor.updateFirstVideo
                            (VideoTrackProcessor.setEnabled e) s)).
    { unfold VideoTrackProcessor.timerFires. rewrite Ht. simpl.
      now rewrite Hs. }
    destruct (IH _ _ Ht' Hs') as [H1 H2].
    split; [| exact H2]. rewrite H1.
    destruct l as [|e' l']; [reflexivity |].
    change (List.last (List.map Some (e :: e' :: l')) None)
      with (List.last (List.map Some (e' :: l')) None).
    destruct (last_map_Some l' e') as [e0 He0]. rewrite He0.
    now rewrite updateFirstVideo_twice.
Qed.

Lemma last_repeat_false (k : nat) (e : bool) :
  List.last (List.map Some (e :: List.repeat false (S k))) None = Some false.
Proof.
  induction k as [|k IH]; [reflexivity |].
  change (List.last (List.map Some (e :: false :: List.repeat false (S k))) None)
    with (List.last (List.map Some (false :: List.repeat false (S k))) None).
  revert IH.
  change (List.last (List.map Some (e :: List.repeat false (S k))) None)
    with (List.last (List.map Some (List.repeat false (S k))) None).
  intros IH. exact IH.
Qed.

(** X23.  Pulses that overlap switch the video off: when two or more
    calls of [pulseTrack] are made before the timer of the first has
    fired, the first video track is disabled once all their timers have
    fired, also when it was enabled before: every pulse after the first
    takes the disabled state for the original one. *)
Theorem pulseTrack_overlap_disables (k : nat)
    (p : VideoTrackProcessor.Pulsing) (e : bool) :
  VideoTrackProcessor.timers p = [] ->
  VideoTrackProcessor.firstVideoEnabled p = Some e ->
  VideoTrackProcessor.firstVideoEnabled
    (VideoTrackProcessor.times (2 + k) VideoTrackProcessor.timerFires
       (VideoTrackProcessor.times (2 + k) VideoTrackProcessor.pulseTrack p))
  = Some false
  /\ VideoTrackProcessor.timers
       (VideoTrackProcessor.times (2 + k) VideoTrackProcessor.timerFires
          (VideoTrackProcessor.times (2 + k) VideoTrackProcessor.pulseTrack p))
     = [].
Proof.
  intros Ht He.
  destruct (VideoTrackProcessor.stream p) as [s|] eqn:Hs;
    [| unfold VideoTrackProcessor.firstVideoEnabled in He;
       rewrite Hs in He; discriminate He].
  destruct (pulse_first p s e Hs He) as (H1 & H2 & H3).
  rewrite Ht in H2. simpl in H2.
  destruct (pulses_when_disabled (S k) _ _ H1 H3) as [H4 H5].
  rewrite H2 in H5.
  change (VideoTrackProcessor.times (2 + k) VideoTrackProcessor.pulseTrack p)
    with (VideoTrackProcessor.times (S k) VideoTrackProcessor.pulseTrack
            (VideoTrackProcessor.pulseTrack p)).
  destruct (fires_all _ _ _ H5 H4) as [H6 H7].
  assert (Hlen : length ([e] ++ List.repeat false (S k))%list = (2 + k)%nat).
  { simpl. now rewrite List.repeat_length. }
  rewrite Hlen in H6, H7.
  split; [| exact H7].
  unfold VideoTrackProcessor.firstVideoEnabled. rewrite H6.
  change ([e] ++ List.repeat false (S k))%list
    with (e :: List.repeat false (S k)).
  rewrite last_repeat_false, updateFirstVideo_twice, getVideoTracks_update.
  unfold VideoTrackProcessor.firstVideoEnabled in He. rewrite Hs in He.
  destruct (VideoTrackProcessor.getVideoTracks s); [discriminate He |].
  reflexivity.
Qed.

Lemma pulseTrack_overlap_disables_witness :
  let camera :=
    {| VideoTrackProcessor.kind := MediaUtils.video;
       VideoTrackProcessor.label := "canvas";
       VideoTrackProcessor.enabled := true;
       VideoTrackProcessor.muted := false;
       VideoTrackProcessor.readyState := "live" |} in
  let p := {| VideoTrackProcessor.stream := Some [camera];
              VideoTrackProcessor.timers := [];
              VideoTrackProcessor.events := [] |} in
  VideoTrackProcessor.timers p = []
  /\ VideoTrackProcessor.firstVideoEnabled p = Some true
  /\ VideoTrackProcessor.firstVideoEnabled
       (VideoTrackProcessor.timerFires
          (VideoTrackProcessor.timerFires
             (VideoTrackProcessor.pulseTrack
                (VideoTrackProcessor.pulseTrack p))))
     = Some false.
Proof.
  cbv zeta.
  assert (H1 : VideoTrackProcessor.timers
                 {| VideoTrackProcessor.stream :=
                      Some [ {| VideoTrackProcessor.kind := MediaUtils.video;
                                VideoTrackProcessor.label := "canvas";
                                VideoTrackProcessor.enabled := true;
                                VideoTrackProcessor.muted := false;
                                VideoTrackProcessor.readyState := "live" |} ];
                    VideoTrackProcessor.timers := [];
                    VideoTrackProcessor.events := [] |} = [])
    by reflexivity.
  assert (H2 : VideoTrackProcessor.firstVideoEnabled
                 {| VideoTrackProcessor.stream :=
                      Some [ {| VideoTrackProcessor.kind := MediaUtils.video;
                                VideoTrackProcessor.label := "canvas";
                                VideoTrackProcessor.enabled := true;
                                VideoTrackProcessor.muted := false;
                                VideoTrackProcessor.readyState := "live" |} ];
                    VideoTrackProcessor.timers := [];
                    VideoTrackProcessor.events := [] |} = Some true)
    by reflexivity.
  split; [exact H1 |]. split; [exact H2 |].
  exact (proj1 (pulseTrack_overlap_disables 0 _ true H1 H2)).
Defined.

(** ** Checking the browser *)

(** X24.  [checkBrowserCompatibility] never reports that the
    MediaRecorder API is missing: in a browser without [MediaRecorder]
    the call throws when it asks that very object for WebM support, and
    in every other browser the issue is not in the list.  When the call
    returns, the browser is compatible exactly when no issue was found,
    that is, when camera access, canvas capture, screen capture and the
    WebM format are all supported. *)
Theorem checkBrowserCompatibility_outcome (b : BrowserCompatibility.Browser) :
  match BrowserCompatibility.checkBrowserCompatibility b with
  | JS.Throw _ => BrowserCompatibility.MediaRecorder b = None
  | JS.Normal r =>
      exists isTypeSupported,
        BrowserCompatibility.MediaRecorder b = Some isTypeSupported
        /\ ~ In "MediaRecorder API not supported"
             (BrowserCompatibility.issues r)
        /\ (BrowserCompatibility.compatible r = true
            <-> BrowserCompatibility.issues r = [])
        /\ (BrowserCompatibility.compatible r = true
            <-> (exists devices,
                   BrowserCompatibility.mediaDevices b = Some devices
                   /\ BrowserCompatibility.getUserMedia devices = true
                   /\ BrowserCompatibility.getDisplayMedia devices = true)
                /\ BrowserCompatibility.captureStream b = true
                /\ isTypeSupported "video/webm;codecs=vp8,opus" = true)
  end.
Proof.
  unfold BrowserCompatibility.checkBrowserCompatibility.
  destruct b as [devices recorder capture]. simpl.
  destruct recorder as [isTypeSupported|]; [| reflexivity].
  exists isTypeSupported. split; [reflexivity |].
  unfold BrowserCompatibility.missing, BrowserCompatibility.pushIf. simpl.
  destruct devices as [[userMedia displayMedia]|]; simpl;
    [destruct userMedia, displayMedia |];
    destruct capture;
    destruct (isTypeSupported "video/webm;codecs=vp8,opus"); simpl;
    (split; [intros H; intuition discriminate |]);
    (split; [split; intros H; first [reflexivity | discriminate H] |]);
    (split;
     [intros H;
      first [discriminate H
            | split; [eexists; repeat split | split; reflexivity]]
     | intros [[d [Hd [H1 H2]]] [H3 H4]];
       first [reflexivity | discriminate H3 | discriminate H4
             | discriminate Hd
             | injection Hd as <-; simpl in H1, H2;
               first [discriminate H1 | discriminate H2]]]).
Qed.

(** ** The telemetry log *)

Lemma recorded_fold (calls : list (Z * string * JS.Value))
    (events : list Telemetry.Event) :
  List.fold_left
    (fun events call =>
       Telemetry.recordEvent (fst (fst call)) (snd (fst call)) (snd call)
         events)
    calls events
  = (events
     ++ List.map
          (fun call =>
             {| Telemetry.timestamp := fst (fst call);
                Telemetry.event := snd (fst call);
                Telemetry.data := snd call |})
          calls)%list.
Proof.
  revert events. induction calls as [|call calls IH]; intros events; simpl.
  - now rewrite app_nil_r.
  - rewrite IH. unfold Telemetry.recordEvent. now rewrite <- app_assoc.
Qed.

Lemma monotone_later (calls : list (Z * string * JS.Value)) :
  forall previous t,
  Telemetry.monotone previous calls -> (t <= previous)%Z ->
  List.filter (fun e => (t <=? Telemetry.timestamp e)%Z)
    (List.map
       (fun call =>
          {| Telemetry.timestamp := fst (fst call);
             Telemetry.event := snd (fst call);
             Telemetry.data := snd call |})
       calls)
  = List.map
      (fun call =>
         {| Telemetry.timestamp := fst (fst call);
            Telemetry.event := snd (fst call);
            Telemetry.data := snd call |})
      calls.
Proof.
  induction calls as [|call calls IH]; intros previous t Hm Ht; simpl;
    [reflexivity |].
  destruct Hm as [H1 H2].
  destruct (Z.leb_spec t (fst (fst call))) as [_ | Hlt]; [| lia].
  f_equal. apply (IH (fst (fst call))); [exact H2 | lia].
Qed.

(** X25.  With a clock that never goes back, [getEventsSince] gives the
    end of the log: the events it leaves out all come before the ones it
    returns and are all older than the time asked for, and the ones it
    returns keep their order. *)
Theorem getEventsSince_is_suffix (previous t : Z)
    (calls : list (Z * string * JS.Value)) :
  Telemetry.monotone previous calls ->
  exists older,
    Telemetry.recorded calls
    = (older ++ Telemetry.getEventsSince t (Telemetry.recorded calls))%list
    /\ Forall (fun e => (Telemetry.timestamp e < t)%Z) older
    /\ Forall (fun e => (t <= Telemetry.timestamp e)%Z)
         (Telemetry.getEventsSince t (Telemetry.recorded calls)).
Proof.
  unfold Telemetry.recorded, Telemetry.getEventsSince.
  rewrite recorded_fold. simpl.
  revert previous. induction calls as [|call calls IH]; intros previous Hm.
  - exists []. simpl. repeat split; constructor.
  - destruct Hm as [H1 H2]. simpl.
    destruct (Z.leb_spec t (fst (fst call))) as [Hle | Hlt].
    + exists []. simpl.
      rewrite (monotone_later calls (fst (fst call)) t H2 Hle).
      split; [reflexivity |]. split; [constructor |].
      constructor; [simpl; exact Hle |].
      clear IH H1. revert H2 Hle. generalize (fst (fst call)).
      induction calls as [|c calls IH]; intros z Hm Hle; [constructor |].
      destruct Hm as [H1 H2]. simpl.
      constructor; [simpl; lia |]. apply (IH (fst (fst c))); [exact H2 | lia].
    + destruct (IH _ H2) as (older & Heq & Hold & Hnew).
      exists ({| Telemetry.timestamp := fst (fst call);
                 Telemetry.event := snd (fst call);
                 Telemetry.data := snd call |} :: older).
      split; [simpl; now rewrite <- Heq |].
      split; [constructor; [simpl; exact Hlt | exact Hold] | exact Hnew].
Qed.

Lemma getEventsSince_is_suffix_witness :
  Telemetry.monotone 1709647629000
    [ (1709647629042, "pulseTrack", JS.Bool true);
      (1709647629062, "pulseTrackComplete", JS.Bool true) ]%Z
  /\ Telemetry.getEventsSince 1709647629050
       (Telemetry.recorded
          [ (1709647629042, "pulseTrack", JS.Bool true);
            (1709647629062, "pulseTrackComplete", JS.Bool true) ]%Z)
     = [ {| Telemetry.timestamp := 1709647629062;
            Telemetry.event := "pulseTrackComplete";
            Telemetry.data := JS.Bool true |} ].
Proof.
  assert (H : Telemetry.monotone 1709647629000
                [ (1709647629042, "pulseTrack", JS.Bool true);
                  (1709647629062, "pulseTrackComplete", JS.Bool true) ]%Z)
    by (simpl; lia).
  split; [exact H |].
  destruct (getEventsSince_is_suffix 1709647629000 1709647629050 _ H)
    as (older & _).
  reflexivity.
Defined.

(** ** The recording controls *)

(** X26.  Which handlers the recording controls offer.  Starting is
    offered exactly when the state is idle or paused, pausing and
    stopping exactly when it is recording; while the state is processing
    no handler can be reached; no handler is offered twice. *)
Theorem controls_by_state (recordingState : Recorder.RecordingState)
    (videoUrl : bool) :
  (In Controls.onStartRecording (Controls.offered recordingState videoUrl)
   <-> recordingState = Recorder.idle \/ recordingState = Recorder.paused)
  /\ (In Controls.onPauseRecording (Controls.offered recordingState videoUrl)
      <-> recordingState = Recorder.recording)
  /\ (In Controls.onStopRecording (Controls.offered recordingState videoUrl)
      <-> recordingState = Recorder.recording)
  /\ (Controls.offered recordingState videoUrl = []
      <-> recordingState = Recorder.processing)
  /\ NoDup (Controls.offered recordingState videoUrl).
Proof.
  destruct recordingState, videoUrl;
    (split; [vm_compute; intuition (first [discriminate | congruence]) |]);
    (split; [vm_compute; intuition (first [discriminate | congruence]) |]);
    (split; [vm_compute; intuition (first [discriminate | congruence]) |]);
    (split; [vm_compute; intuition (first [discriminate | congruence]) |]);
    unfold Controls.offered, Controls.render; simpl;
    repeat (apply NoDup_cons_2;
            [rewrite ?elem_of_cons, elem_of_nil; intuition discriminate |]);
    apply NoDup_nil_2.
Qed.

(** X27.  Through the recording controls the hook never resumes: the
    Pause button is only there while recording, where the handler the
    hook returns pauses; in the paused state the only handlers offered
    are the teleprompter toggle and [startRecording], which begins a new
    recording through 'processing' (or falls back to idle without a
    canvas stream). *)
Theorem controls_never_resume (c : Recorder.Hook.Cells) (videoUrl : bool)
    (h : Controls.Handler) (canvasStream : bool) :
  In h (Controls.offered (Recorder.Hook.recordingState c) videoUrl) ->
  match h with
  | Controls.onPauseRecording =>
      Controls.clicked h canvasStream c = Recorder.Hook.pauseRecording c
      /\ Recorder.Hook.recordingState (Controls.clicked h canvasStream c)
         = Recorder.paused
  | Controls.onStopRecording =>
      Recorder.Hook.recordingState c = Recorder.recording
  | Controls.onStartRecording =>
      Recorder.Hook.recordingState (Controls.clicked h canvasStream c)
      = (if canvasStream then Recorder.processing else Recorder.idle)
  | Controls.onToggleTeleprompter => Controls.clicked h canvasStream c = c
  end
  /\ (Recorder.Hook.recordingState c = Recorder.paused ->
      h = Controls.onStartRecording \/ h = Controls.onToggleTeleprompter).
Proof.
  intros Hin. unfold Controls.offered, Controls.render in Hin.
  destruct c as [state service starting stopping]. simpl in *.
  destruct state, videoUrl; vm_compute in Hin;
    repeat destruct Hin as [Hin | Hin]; try contradiction;
    subst h; simpl;
    unfold Recorder.Hook.startRecording_begin,
      Recorder.Hook.returnedPauseRecording, Recorder.Hook.pauseRecording;
    simpl;
    (split; [try destruct canvasStream; auto | intros H; auto;
                                               try discriminate H]).
Qed.

Lemma controls_never_resume_witness :
  let c := {| Recorder.Hook.recordingState := Recorder.recording;
              Recorder.Hook.service := true;
              Recorder.Hook.starting := 0;
              Recorder.Hook.stopping := 0 |} in
  In Controls.onPauseRecording
    (Controls.offered (Recorder.Hook.recordingState c) false)
  /\ Recorder.Hook.recordingState
       (Controls.clicked Controls.onPauseRecording true c)
     = Recorder.paused.
Proof.
  cbv zeta.
  assert (H : In Controls.onPauseRecording
                (Controls.offered
                   (Recorder.Hook.recordingState
                      {| Recorder.Hook.recordingState := Recorder.recording;
                         Recorder.Hook.service := true;
                         Recorder.Hook.starting := 0;
                         Recorder.Hook.stopping := 0 |}) false))
    by (simpl; auto).
  split; [exact H |].
  exact (proj2 (proj1 (controls_never_resume _ false
                         Controls.onPauseRecording true H))).
Defined.

(** ** The floating teleprompter *)

Lemma floating_run_invariant (position : Floating.Position)
    (P : Floating.State -> Prop) :
  P Floating.initial ->
  (forall st e, P st -> P (Floating.step position st e)) ->
  forall es, P (Floating.run position es).
Proof.
  intros Hinit Hstep es. unfold Floating.run.
  generalize Floating.initial Hinit.
  induction es as [|e es IH]; intros st Hst; simpl; [exact Hst |].
  apply IH, Hstep, Hst.
Qed.

(** X28.  The font size of the floating teleprompter stays between 16
    and 72 and is a multiple of four, whatever is clicked or dragged. *)
Theorem floating_font_size_bounded (position : Floating.Position)
    (es : list Floating.Event) :
  (16 <= Floating.fontSize (Floating.run position es) <= 72)%Z
  /\ (Floating.fontSize (Floating.run position es) mod 4 = 0)%Z.
Proof.
  apply (floating_run_invariant position
           (fun st => (16 <= Floating.fontSize st <= 72)%Z
                      /\ (Floating.fontSize st mod 4 = 0)%Z)).
  - simpl. split; [lia | reflexivity].
  - intros st e [Hb Hm].
    assert (Hcases : Floating.fontSize (Floating.step position st e)
                     = Floating.fontSize st
                     \/ Floating.fontSize (Floating.step position st e)
                        = Z.max 16 (Floating.fontSize st - 4)
                     \/ Floating.fontSize (Floating.step position st e)
                        = Z.min 72 (Floating.fontSize st + 4)).
    { destruct e; simpl; auto.
      - unfold Floating.handleMouseDown. destruct position; auto.
      - unfold Floating.handleMouseMove.
        destruct (Floating.isDragging st && mounted); auto. }
    assert (Hk : exists k, Floating.fontSize st = (4 * k)%Z).
    { exists (Floating.fontSize st / 4)%Z.
      rewrite (Z.div_mod (Floating.fontSize st) 4) at 1 by lia. lia. }
    destruct Hk as [k Hk].
    destruct Hcases as [-> | [-> | ->]].
    + split; assumption.
    + split; [lia |].
      destruct (Z.max_spec 16 (Floating.fontSize st - 4)) as [[_ ->] | [_ ->]].
      * rewrite Hk. replace (4 * k - 4)%Z with ((k - 1) * 4)%Z by lia.
        apply Z.mod_mul. lia.
      * reflexivity.
    + split; [lia |].
      destruct (Z.min_spec 72 (Floating.fontSize st + 4)) as [[_ ->] | [_ ->]].
      * reflexivity.
      * rewrite Hk. replace (4 * k + 4)%Z with ((k + 1) * 4)%Z by lia.
        apply Z.mod_mul. lia.
Qed.

(** X29.  Dragging the floating teleprompter.  In the overlay position
    the container follows the mouse: after the button went down on a
    container at [rect] and the mouse moved, the container is where it
    was, moved by the way the mouse has gone.  In the side and bottom
    positions nothing ever starts a drag or moves the container. *)
Theorem floating_drag (position : Floating.Position)
    (es : list Floating.Event) (down rect move : Z * Z) :
  Floating.position_
    (Floating.handleMouseMove move true
       (Floating.handleMouseDown Floating.overlay down (Some rect)
          (Floating.run position es)))
  = (fst rect + (fst move - fst down), snd rect + (snd move - snd down))%Z
  /\ match position with
     | Floating.overlay => True
     | _ =>
         Floating.position_ (Floating.run position es) = (0, 0)%Z
         /\ Floating.isDragging (Floating.run position es) = false
     end.
Proof.
  split.
  - destruct rect as [rectLeft rectTop]. simpl. f_equal; lia.
  - destruct position; [exact I | |];
      apply (floating_run_invariant _
               (fun st => Floating.position_ st = (0, 0)%Z
                          /\ Floating.isDragging st = false));
      try (split; reflexivity);
      intros st e [Hp Hd]; destruct e; simpl;
      unfold Floating.handleMouseMove; rewrite ?Hd; simpl; auto.
Qed.
